(** * Telegram task assistant: the task repository and the bot logic

    A shallow embedding of [database.py] (the SQLite-backed task
    repository) and of the parts of [bot.py] that read and write it: the
    four task operations, the interactive handlers and the periodic
    deadline sweep [check_deadlines].

    Conventions of the embedding.
    - Instants and durations are integers counting microseconds, the
      resolution of Python's [datetime] and [timedelta].  The [due_date]
      column holds the ISO text of a UTC instant; the model keeps the
      instant (text order and instant order agree on such texts).
    - The tables are explicit state: every repository function takes the
      database and returns the new database with its Python result.
    - Every SQL statement executes: the [except sqlite3.Error] branch of
      the repository functions (a failing storage engine) is not modelled.
    - The outcome of a Telegram API call, the behaviour of
      [zoneinfo.ZoneInfo] on a key, the rendering of an instant in a zone
      and the date parser are parameters of the development.
    - A sweep tests the flags of the rows it fetched at its start and
      writes each mark to the table as it is by then.  [check_deadlines]
      is the sweep that no handler interrupts; [check_deadlines_during]
      is the sweep with the operations of the handlers that run while it
      awaits a send.
    - User and chat ids are Telegram's and fit SQLite's 64-bit integers;
      a task id typed by a user need not, see [sqlite_integer].
    - [/help] sends a fixed text and is left out, as is the
      language-model dispatch in [handle_conversation], whose four
      callables are modelled by [call_tool]. *)

From stdpp Require Import base list gmap strings sorting pretty.
From Stdlib Require Import ZArith Lia Ascii.

Local Open Scope string_scope.
Local Open Scope Z_scope.

(** ** Exceptions and results *)

Inductive exn : Type :=
  | NameError
  | ValueError
  | ZoneInfoNotFoundError
  | BadRequest
  | TelegramError
  | OverflowError.

Inductive result (A : Type) : Type :=
  | Ok (a : A)
  | Raise (e : exn).
Arguments Ok {A} a.
Arguments Raise {A} e.

(** ** The notification intervals

    The seven threshold columns of the [tasks] table. *)

Inductive interval : Type :=
  | I24h | I12h | I6h | I3h | I1h | I15m | Ifinal.

#[global] Instance interval_eq_dec : EqDecision interval.
Proof. solve_decision. Defined.

Definition key (i : interval) : string :=
  match i with
  | I24h => "notified_24h"
  | I12h => "notified_12h"
  | I6h => "notified_6h"
  | I3h => "notified_3h"
  | I1h => "notified_1h"
  | I15m => "notified_15m"
  | Ifinal => "notified_final_due"
  end.

Definition all_intervals : list interval :=
  [I24h; I12h; I6h; I3h; I1h; I15m; Ifinal].

(** [database.NOTIFICATION_INTERVAL_KEYS] *)
Definition NOTIFICATION_INTERVAL_KEYS : list string := key <$> all_intervals.

(** The column a key names, when it names one: the membership test of
    [mark_specific_notification_sent] together with the column selection
    of its [UPDATE]. *)
Definition column_of_key (k : string) : option interval :=
  list_find (λ i, key i = k) all_intervals ≫= λ p, Some p.2.

Definition interval_eqb (a b : interval) : bool :=
  match a, b with
  | I24h, I24h | I12h, I12h | I6h, I6h | I3h, I3h
  | I1h, I1h | I15m, I15m | Ifinal, Ifinal => true
  | _, _ => false
  end.

(** ** Rows and tables *)

Record task : Type := {
  id : Z;
  user_id : Z;
  chat_id : Z;
  description : string;
  due_date : option Z;
  status : string;
  added_date : Z;
  notified_24h : bool;
  notified_12h : bool;
  notified_6h : bool;
  notified_3h : bool;
  notified_1h : bool;
  notified_15m : bool;
  notified_final_due : bool
}.

(** [task[int_key]] *)
Definition flag (i : interval) (t : task) : bool :=
  match i with
  | I24h => notified_24h t
  | I12h => notified_12h t
  | I6h => notified_6h t
  | I3h => notified_3h t
  | I1h => notified_1h t
  | I15m => notified_15m t
  | Ifinal => notified_final_due t
  end.

(** [SET {interval_key} = TRUE] on one row *)
Definition set_flag (i : interval) (t : task) : task :=
  {| id := id t; user_id := user_id t; chat_id := chat_id t;
     description := description t; due_date := due_date t;
     status := status t; added_date := added_date t;
     notified_24h := if i is I24h then true else notified_24h t;
     notified_12h := if i is I12h then true else notified_12h t;
     notified_6h := if i is I6h then true else notified_6h t;
     notified_3h := if i is I3h then true else notified_3h t;
     notified_1h := if i is I1h then true else notified_1h t;
     notified_15m := if i is I15m then true else notified_15m t;
     notified_final_due := if i is Ifinal then true else notified_final_due t |}.

(** [SET status = ?] on one row *)
Definition set_status (s : string) (t : task) : task :=
  {| id := id t; user_id := user_id t; chat_id := chat_id t;
     description := description t; due_date := due_date t;
     status := s; added_date := added_date t;
     notified_24h := notified_24h t; notified_12h := notified_12h t;
     notified_6h := notified_6h t; notified_3h := notified_3h t;
     notified_1h := notified_1h t; notified_15m := notified_15m t;
     notified_final_due := notified_final_due t |}.

(** The set of thresholds already fired for a task. *)
Definition fired_thresholds (t : task) : list interval :=
  List.filter (λ i, flag i t) all_intervals.

(** The database: the [tasks] table in rowid order, the [users] table
    keyed by [user_id], and the AUTOINCREMENT counter of [tasks] (the
    largest id ever handed out, kept by SQLite in [sqlite_sequence]). *)
Record database : Type := {
  tasks : list task;
  users : gmap Z string;
  seq : Z
}.

Definition empty_db : database := {| tasks := []; users := ∅; seq := 0 |}.

Definition with_tasks (db : database) (ts : list task) : database :=
  {| tasks := ts; users := users db; seq := seq db |}.

(** ** database.py *)

Module database_py.

Section ZoneInfo.

(** [zoneinfo.ZoneInfo(key)]: [None] when the zone loads, [Some e] when
    the constructor raises [e]. *)
Variable zone_load : string → option exn.

(** [set_user_timezone] *)
Definition set_user_timezone (uid : Z) (timezone_str : string) (db : database)
  : result bool * database :=
  match zone_load timezone_str with
  | Some ZoneInfoNotFoundError => (Ok false, db)
  | Some e => (Raise e, db)
  | None =>
      (Ok true,
       {| tasks := tasks db; users := <[uid := timezone_str]> (users db);
          seq := seq db |})
  end.

(** [get_user_timezone_str] *)
Definition get_user_timezone_str (uid : Z) (db : database) : result string :=
  let default_tz := "UTC" in
  match users db !! uid with
  | Some tz =>
      match zone_load tz with
      | None => Ok tz
      | Some ZoneInfoNotFoundError => Ok default_tz
      | Some e => Raise e
      end
  | None => Ok default_tz
  end.

End ZoneInfo.

(** [add_task]; [now] is the value of [CURRENT_TIMESTAMP] that fills
    [added_date]. *)
Definition add_task (now : Z) (uid cid : Z) (desc : string)
    (due_date_utc : option Z) (db : database) : Z * database :=
  let task_id := seq db + 1 in
  let row :=
    {| id := task_id; user_id := uid; chat_id := cid; description := desc;
       due_date := due_date_utc; status := "pending"; added_date := now;
       notified_24h := false; notified_12h := false; notified_6h := false;
       notified_3h := false; notified_1h := false; notified_15m := false;
       notified_final_due := false |} in
  (task_id,
   {| tasks := tasks db ++ [row]; users := users db; seq := task_id |}).

(** [ORDER BY due_date ASC, added_date ASC]: SQLite orders NULL before
    every value. *)
Definition due_date_compare (a b : option Z) : comparison :=
  match a, b with
  | None, None => Eq
  | None, Some _ => Lt
  | Some _, None => Gt
  | Some x, Some y => x ?= y
  end.

Definition order_by (a b : task) : bool :=
  match due_date_compare (due_date a) (due_date b) with
  | Lt => true
  | Gt => false
  | Eq => added_date a <=? added_date b
  end.

(** [get_user_tasks].  The query fixes the order of two rows only when
    their sort keys differ; rows of equal keys come in the order the
    sort of the model leaves them in, which need not be rowid order. *)
Definition get_user_tasks (uid : Z) (st : string) (db : database) : list task :=
  merge_sort (λ a b, order_by a b)
    (List.filter (λ t, (user_id t =? uid) && String.eqb (status t) st)
       (tasks db)).

(** [get_task_by_id]: the row the query returns. *)
Definition get_task_by_id (tid uid : Z) (db : database) : option task :=
  List.find (λ t, (id t =? tid) && (user_id t =? uid)) (tasks db).

(** The integers SQLite stores and [sqlite3] binds: 64 bits, signed.
    Binding a Python [int] outside this range makes [cursor.execute]
    raise [OverflowError], which is no [sqlite3.Error]: the [except] of
    the repository functions does not catch it and it leaves them.  The
    ids of stored rows are within the range, so the exception shows only
    where no row is found; the handlers that look up an id typed by a
    user read [overflows] there.  The conversational functions get
    their ids from the language model and are modelled for ids within
    the range. *)
Definition sqlite_integer (z : Z) : bool :=
  (- 2 ^ 63 <=? z) && (z <? 2 ^ 63).

Definition overflows (task_id : Z) : option exn :=
  if sqlite_integer task_id then None else Some OverflowError.

(** [get_pending_tasks_with_due_dates]: each row with the
    [user_timezone] column of the join. *)
Definition get_pending_tasks_with_due_dates (db : database)
  : list (task * string) :=
  (λ t, (t, default "UTC" (users db !! user_id t))) <$>
  List.filter (λ t, String.eqb (status t) "pending" && bool_decide (due_date t ≠ None))
    (tasks db).

(** Rows an [UPDATE] or [DELETE] with the given [WHERE] touches. *)
Definition rowcount (p : task → bool) (db : database) : nat :=
  length (List.filter p (tasks db)).

(** [update_task_status] *)
Definition update_task_status (tid uid : Z) (st : string) (db : database)
  : bool * database :=
  let p t := (id t =? tid) && (user_id t =? uid) in
  (bool_decide (0 < rowcount p db)%nat,
   with_tasks db ((λ t, if p t then set_status st t else t) <$> tasks db)).

(** [delete_task] *)
Definition delete_task (tid uid : Z) (db : database) : bool * database :=
  let p t := (id t =? tid) && (user_id t =? uid) in
  (bool_decide (0 < rowcount p db)%nat,
   with_tasks db (List.filter (λ t, negb (p t)) (tasks db))).

(** [mark_specific_notification_sent] *)
Definition mark_specific_notification_sent (tid : Z) (interval_key : string)
    (db : database) : bool * database :=
  match column_of_key interval_key with
  | None => (false, db)
  | Some i =>
      let p t := id t =? tid in
      (bool_decide (0 < rowcount p db)%nat,
       with_tasks db ((λ t, if p t then set_flag i t else t) <$> tasks db))
  end.

(** The columns of each table, by table name: what [init_db] reads with
    [PRAGMA table_info] and changes with [CREATE TABLE] and
    [ALTER TABLE]. *)
Abbreviation schema := (gmap string (list string)).

(** [table_has_column]; a table that does not exist has no column. *)
Definition table_has_column (s : schema) (table_name column_name : string) : bool :=
  existsb (String.eqb column_name) (default [] (s !! table_name)).

(** [CREATE TABLE IF NOT EXISTS] *)
Definition create_table_if_not_exists (table_name : string) (cols : list string)
    (s : schema) : schema :=
  match s !! table_name with
  | Some _ => s
  | None => <[table_name := cols]> s
  end.

(** [ALTER TABLE ... ADD COLUMN] on an existing table *)
Definition add_column (table_name column_name : string) (s : schema) : schema :=
  match s !! table_name with
  | Some cols => <[table_name := (cols ++ [column_name])%list]> s
  | None => s
  end.

(** [ALTER TABLE ... RENAME COLUMN ... TO ...] *)
Definition rename_column (table_name old new : string) (s : schema) : schema :=
  match s !! table_name with
  | Some cols =>
      <[table_name := (λ c, if String.eqb c old then new else c) <$> cols]> s
  | None => s
  end.

(** [init_db], on the schema *)
Definition init_db (s : schema) : schema :=
  let s1 :=
    create_table_if_not_exists "tasks"
      ["id"; "user_id"; "chat_id"; "description"; "due_date"; "status"; "added_date"] s in
  let s2 :=
    fold_left
      (λ s col_name,
         if negb (table_has_column s "tasks" col_name)
         then add_column "tasks" col_name s else s)
      NOTIFICATION_INTERVAL_KEYS s1 in
  let s3 := create_table_if_not_exists "users" ["user_id"; "timezone"] s2 in
  if table_has_column s3 "tasks" "notified"
     && negb (table_has_column s3 "tasks" "notified_final_due")
  then rename_column "tasks" "notified" "notified_final_due" s3
  else if negb (table_has_column s3 "tasks" "notified_final_due")
  then add_column "tasks" "notified_final_due" s3
  else s3.

End database_py.

(** ** Python built-ins used by bot.py *)

Definition nl : string := String "010"%char "".

(** [s.replace(old, new)] for a non-empty [old]: occurrences are replaced
    from the left and do not overlap; [skip] counts the characters of a
    match still to be dropped. *)
Fixpoint replace_from (old new : string) (skip : nat) (s : string) : string :=
  match s with
  | "" => ""
  | String c s' =>
      match skip with
      | S n => replace_from old new n s'
      | O =>
          if String.prefix old s
          then new +:+ replace_from old new (pred (String.length old)) s'
          else String c (replace_from old new O s')
      end
  end.

Definition replace (old new s : string) : string := replace_from old new O s.

Definition is_ascii_digit (c : ascii) : bool :=
  let n := nat_of_ascii c in (48 <=? n)%nat && (n <=? 57)%nat.

(** [s.isdigit()] on ASCII text.  (Python's [str.isdigit] is also true
    of digits outside ASCII; the model's strings of digits are those
    [pretty] writes.) *)
Definition isdigit (s : string) : bool :=
  negb (String.eqb s "") && forallb is_ascii_digit (String.list_ascii_of_string s).

Definition digits_value (s : string) : Z :=
  fold_left (λ acc c, 10 * acc + (Z.of_nat (nat_of_ascii c) - 48))
    (String.list_ascii_of_string s) 0.

(** [int(s)] on ASCII text: an optional sign and decimal digits; anything
    else is a [ValueError].  (Python also accepts surrounding blanks,
    underscores between digits and digits outside ASCII; the keyboards of
    this bot produce none of them.) *)
Definition int (s : string) : result Z :=
  match s with
  | String "-" ds => if isdigit ds then Ok (- digits_value ds) else Raise ValueError
  | String "+" ds => if isdigit ds then Ok (digits_value ds) else Raise ValueError
  | _ => if isdigit s then Ok (digits_value s) else Raise ValueError
  end.

(** [s.split(":", 1)] unpacked into two names: the text before the first
    colon and the text after it; without a colon the unpacking raises
    [ValueError]. *)
Fixpoint split_colon (s : string) : result (string * string) :=
  match s with
  | "" => Raise ValueError
  | String c s' =>
      if Ascii.eqb c ":" then Ok ("", s')
      else match split_colon s' with
           | Ok (a, b) => Ok (String c a, b)
           | Raise e => Raise e
           end
  end.

(** [timedelta(hours=h)] and [timedelta(minutes=m)], in microseconds *)
Definition hours (h : Z) : Z := h * 3600 * 1000000.
Definition minutes (m : Z) : Z := m * 60 * 1000000.

(** ** The Telegram gate *)

(** The Bot API calls bot.py makes.  [reply_markup] of [send_message] is
    the task id the Done/Delete keyboard is built for
    ([build_task_keyboard]), or [None] without a keyboard. *)
Inductive request : Type :=
  | send_message (chat : Z) (text : string) (reply_markup : option Z)
  | reply_text (text : string)
  | edit_message_text (text : string)
  | answer.

(** One call with its outcome: [None] when it returned, [Some e] when it
    raised [e]. *)
Definition call : Type := request * option exn.

(** What a handler did: the exception that left it (if any), the database
    it left behind and the API calls it made, in order. *)
Record run : Type := {
  raised : option exn;
  final : database;
  calls : list call
}.

(** One [send_message] of the deadline sweep, with the loop variables
    [tid] and [int_key] it was made for. *)
Record notification : Type := {
  n_task : Z;
  n_key : interval;
  n_chat : Z;
  n_text : string;
  n_error : option exn
}.

Record zone : Type := { zone_key : string }.

(** ** bot.py *)

Module bot_py.

Import database_py.

(** [NOTIFICATION_INTERVALS], in the insertion order of the dict *)
Definition NOTIFICATION_INTERVALS : list (interval * (Z * string)) :=
  [ (I24h, (hours 24, "in less than 24 hours"));
    (I12h, (hours 12, "in less than 12 hours"));
    (I6h, (hours 6, "in less than 6 hours"));
    (I3h, (hours 3, "in less than 3 hours"));
    (I1h, (hours 1, "in less than 1 hour"));
    (I15m, (minutes 15, "in less than 15 minutes"));
    (Ifinal, (0, "NOW or is OVERDUE")) ].

(** [NOTIFICATION_INTERVALS[k]] *)
Definition interval_entry (k : interval) : Z * string :=
  default (0, "") (snd <$> List.find (λ kv, interval_eqb kv.1 k) NOTIFICATION_INTERVALS).

(** [sorted([(k,v) for k,v in NOTIFICATION_INTERVALS.items() if k!=final_key],
            key=lambda i:i[1][0])]: increasing offsets. *)
Definition sorted_intervals : list (interval * (Z * string)) :=
  merge_sort (λ a b, a.2.1 <=? b.2.1)
    (List.filter (λ kv, negb (interval_eqb kv.1 Ifinal)) NOTIFICATION_INTERVALS).

(** Names that a function body of bot.py can resolve at module level
    (imports, constants and the functions of the module); Python's
    built-in names are not listed, [tid] and [uid] are not among them. *)
Definition module_names : list string :=
  [ "logging"; "os"; "datetime"; "timedelta"; "timezone"; "zoneinfo";
    "sqlite3"; "load_dotenv"; "database"; "dateparser"; "functools";
    "genai"; "google_ai_installed"; "Update"; "BotCommand";
    "InlineKeyboardMarkup"; "InlineKeyboardButton"; "Application";
    "CommandHandler"; "MessageHandler"; "ContextTypes"; "filters";
    "CallbackQueryHandler"; "ParseMode"; "BadRequest"; "logger";
    "TELEGRAM_BOT_TOKEN"; "GOOGLE_API_KEY"; "UTC"; "NOTIFICATION_INTERVALS";
    "gemini_model"; "gemini_configured"; "safety_settings_med";
    "gemini_model_name"; "get_user_tz"; "format_datetime_local";
    "build_task_message_text"; "build_task_keyboard"; "add_task_logic";
    "list_tasks_logic"; "mark_task_done_logic"; "delete_task_logic";
    "start"; "help_command"; "set_timezone_command"; "my_timezone_command";
    "list_tasks_command"; "done_task_command"; "delete_task_command";
    "button_callback"; "handle_conversation"; "check_deadlines";
    "post_init"; "main"; "tzdata" ].

(** Parameters and assigned names of [button_callback] *)
Definition button_callback_locals : list string :=
  [ "update"; "context"; "query"; "user_id"; "user_tz"; "e";
    "callback_data"; "action"; "task_id_str"; "task_id"; "task";
    "original_display_text"; "done_txt"; "new_txt" ].

(** Reading a name inside a function: bound locally or at module level,
    else [NameError]. *)
Definition name_bound (locals : list string) (n : string) : bool :=
  existsb (String.eqb n) (locals ++ module_names).

(** [build_task_keyboard]: the rows of buttons, each a label with its
    callback data. *)
Definition build_task_keyboard (task_id : Z) : list (list (string * string)) :=
  [[ ("✅ Done", "done:" +:+ pretty task_id);
     ("🗑️ Delete", "delete:" +:+ pretty task_id) ]].

(** A job of the application's job queue: its name, its period and its
    first delay, in seconds; the callback of the one job bot.py
    schedules is [check_deadlines]. *)
Record job : Type := {
  job_name : string;
  job_interval : Z;
  job_first : Z
}.

(** The calls the language model can make through the four callables of
    [handle_conversation]. *)
Inductive tool_call : Type :=
  | add_task_wrapper (description : string) (due_date : option string)
  | list_tasks_wrapper (status_filter : string)
  | mark_task_done_wrapper (task_id : Z)
  | delete_task_wrapper (task_id : Z).

Section Env.

(** [zoneinfo.ZoneInfo(key)]: [None] when the zone loads, else the
    exception raised. *)
Variable zone_load : string → option exn.

(** [dt.astimezone(tz).strftime('%Y-%m-%d %H:%M')] for the zone of the
    given key; [None] when it raises. *)
Variable strftime : string → Z → option string.

(** [dateparser.parse(text, settings=..., languages=['en'])] with
    [RELATIVE_BASE] the given instant and [TIMEZONE] the given key,
    converted to UTC: the instant parsed, [Ok None] when the text is not
    understood, [Raise] when the parser raises. *)
Variable dateparser_parse : string → Z → string → result (option Z).

(** The outcome of each Bot API call. *)
Variable telegram : request → option exn.

Definition ZoneInfo (k : string) : result zone :=
  match zone_load k with
  | None => Ok {| zone_key := k |}
  | Some e => Raise e
  end.

Definition UTC : zone := {| zone_key := "UTC" |}.

(** [get_user_tz]: the call of [get_user_timezone_str] stands before the
    [try]. *)
Definition get_user_tz (uid : Z) (db : database) : result zone :=
  match get_user_timezone_str zone_load uid db with
  | Raise e => Raise e
  | Ok tz_str =>
      match ZoneInfo tz_str with
      | Ok z => Ok z
      | Raise _ => Ok UTC
      end
  end.

(** [format_datetime_local]; an instant of the model always carries its
    zone. *)
Definition format_datetime_local (dt_utc : option Z) (user_tz : zone) : string :=
  match dt_utc with
  | None => "[No Date Set]"
  | Some d =>
      match strftime (zone_key user_tz) d with
      | Some s => s
      | None => "[Date Error]"
      end
  end.

(** [build_task_message_text] *)
Definition build_task_message_text (task_data : task) (user_tz : zone) : string :=
  let due_date_display :=
    match due_date task_data with
    | Some d => " (Due: " +:+ format_datetime_local (Some d) user_tz +:+ ")"
    | None => ""
    end in
  "📌 ID: " +:+ pretty (id task_data) +:+ " - " +:+ description task_data
  +:+ due_date_display.

(** [add_task_logic]; [now] is the clock reading of the call. *)
Definition add_task_logic (now : Z) (desc : string) (due : option string)
    (uid cid : Z) (db : database) : result string * database :=
  if (uid =? 0) || (cid =? 0) then (Ok "Error: Missing context.", db)
  else
    match get_user_tz uid db with
    | Raise e => (Raise e, db)
    | Ok user_tz =>
        let given := match due with Some s => negb (String.eqb s "") | None => false end in
        let due_date_utc :=
          match due with
          | Some s =>
              if String.eqb s "" then None
              else match dateparser_parse s now (zone_key user_tz) with
                   | Ok (Some d) => Some d
                   | Ok None => None
                   | Raise _ => None
                   end
          | None => None
          end in
        let '(task_id, db') :=
          add_task (now `div` 1000000) uid cid desc due_date_utc db in
        if task_id =? 0 then (Ok "Sorry, I failed to add the task to the database.", db')
        else
          let response :=
            "Okay, I've added task '" +:+ desc +:+ "' (ID: " +:+ pretty task_id +:+ ")." in
          (Ok (response +:+
               match due_date_utc with
               | Some d =>
                   " Due date is set to " +:+ format_datetime_local (Some d) user_tz +:+ "."
               | None =>
                   if given then " I couldn't understand the due date, so none was set."
                   else " No due date was set."
               end),
           db')
    end.

(** [list_tasks_logic] *)
Definition list_tasks_logic (uid : Z) (status_filter : string) (db : database)
  : result string :=
  if uid =? 0 then Ok "Error: Missing context."
  else
    match get_user_tz uid db with
    | Raise e => Raise e
    | Ok user_tz =>
        match get_user_tasks uid status_filter db with
        | [] => Ok ("You have no " +:+ status_filter +:+ " tasks! 🎉")
        | ts =>
            let task_lines :=
              (λ t, replace "*" "" (replace "📌 " "- " (build_task_message_text t user_tz)))
                <$> ts in
            Ok ("OK. Your " +:+ status_filter +:+ " tasks (Times in "
                +:+ zone_key user_tz +:+ "):" +:+ nl +:+ nl
                +:+ String.concat nl task_lines)
        end
    end.

(** [mark_task_done_logic] *)
Definition mark_task_done_logic (tid uid : Z) (db : database) : string * database :=
  if (uid =? 0) || (tid =? 0) then ("Error: Missing task ID or user context.", db)
  else
    match get_task_by_id tid uid db with
    | None => ("Sorry, I couldn't find task ID " +:+ pretty tid +:+ ".", db)
    | Some t =>
        if String.eqb (status t) "done"
        then ("Task " +:+ pretty tid +:+ " ('" +:+ description t +:+ "') is already done.", db)
        else
          let '(ok, db') := update_task_status tid uid "done" db in
          if ok
          then ("✅ Marked task " +:+ pretty tid +:+ " ('" +:+ description t +:+ "') as done.", db')
          else ("❌ Failed to mark task " +:+ pretty tid
                +:+ " as done (it might have been deleted).", db')
    end.

(** [delete_task_logic] *)
Definition delete_task_logic (tid uid : Z) (db : database) : string * database :=
  if (uid =? 0) || (tid =? 0) then ("Error: Missing task ID or user context.", db)
  else
    let desc :=
      match get_task_by_id tid uid db with
      | Some t => description t
      | None => "ID " +:+ pretty tid
      end in
    let '(ok, db') := delete_task tid uid db in
    if ok then ("🗑️ Deleted task " +:+ pretty tid +:+ " ('" +:+ desc +:+ "').", db')
    else ("❌ Failed to delete task " +:+ pretty tid
          +:+ ". It might have already been deleted.", db').

(** A handler that ends on one [reply_text]: an exception of the call
    leaves the handler. *)
Definition reply (db : database) (text : string) : run :=
  let r := reply_text text in
  {| raised := telegram r; final := db; calls := [(r, telegram r)] |}.

(** The loop of [list_tasks_command]: [shown] counts the sends that
    returned; the notice is sent when a task is reached with
    [shown >= max_show]. *)
Fixpoint list_tasks_loop (user_tz : zone) (cid : Z) (max_show shown : nat)
    (ts : list task) : option exn * list call :=
  match ts with
  | [] => (None, [])
  | t :: rest =>
      if (max_show <=? shown)%nat then
        let r := send_message cid
                   ("..." +:+ nl +:+ "(First " +:+ pretty (Z.of_nat max_show) +:+ ")")
                   None in
        (telegram r, [(r, telegram r)])
      else
        let r := send_message cid (build_task_message_text t user_tz) (Some (id t)) in
        match telegram r with
        | None =>
            let '(e, cs) := list_tasks_loop user_tz cid max_show (S shown) rest in
            (e, (r, None) :: cs)
        | Some err =>
            let '(e, cs) := list_tasks_loop user_tz cid max_show shown rest in
            (e, (r, Some err) :: cs)
        end
  end.

(** [list_tasks_command] *)
Definition list_tasks_command (uid cid : Z) (db : database) : run :=
  match get_user_tz uid db with
  | Raise e => {| raised := Some e; final := db; calls := [] |}
  | Ok user_tz =>
      match get_user_tasks uid "pending" db with
      | [] => reply db "No pending tasks! 🎉"
      | ts =>
          let r := reply_text ("Pending tasks (Times: " +:+ zone_key user_tz +:+ "):") in
          match telegram r with
          | Some e => {| raised := Some e; final := db; calls := [(r, Some e)] |}
          | None =>
              let '(e, cs) := list_tasks_loop user_tz cid 20 0 ts in
              {| raised := e; final := db; calls := (r, None) :: cs |}
          end
      end
  end.

(** [done_task_command] *)
Definition done_task_command (uid : Z) (args : list string) (db : database) : run :=
  match args with
  | [] => reply db "Usage: /done <id>"
  | a :: _ =>
      if negb (isdigit a) then reply db "Usage: /done <id>"
      else
        match int a with
        | Raise e => {| raised := Some e; final := db; calls := [] |}
        | Ok task_id =>
            match get_task_by_id task_id uid db with
            | None =>
                match overflows task_id with
                | Some e => {| raised := Some e; final := db; calls := [] |}
                | None => reply db ("ID " +:+ pretty task_id +:+ " NF.")
                end
            | Some t =>
                if String.eqb (status t) "done"
                then reply db ("ID " +:+ pretty task_id +:+ " done.")
                else
                  let '(ok, db') := update_task_status task_id uid "done" db in
                  if ok then reply db' ("✅ Marked " +:+ pretty task_id +:+ " done.")
                  else reply db' ("❌ Fail mark " +:+ pretty task_id +:+ " done.")
            end
        end
  end.

(** [delete_task_command] *)
Definition delete_task_command (uid : Z) (args : list string) (db : database) : run :=
  match args with
  | [] => reply db "Usage: /delete <id>"
  | a :: _ =>
      if negb (isdigit a) then reply db "Usage: /delete <id>"
      else
        match int a with
        | Raise e => {| raised := Some e; final := db; calls := [] |}
        | Ok task_id =>
            match get_task_by_id task_id uid db with
            | None =>
                match overflows task_id with
                | Some e => {| raised := Some e; final := db; calls := [] |}
                | None => reply db ("ID " +:+ pretty task_id +:+ " NF.")
                end
            | Some _ =>
                let '(ok, db') := delete_task task_id uid db in
                if ok then reply db' ("🗑️ Deleted " +:+ pretty task_id +:+ ".")
                else reply db' ("❌ Fail delete " +:+ pretty task_id +:+ ".")
            end
        end
  end.

(** [try: await query.edit_message_text(...) except BadRequest: ...] as
    the last statement of a path; [pre] are the calls made before. *)
Definition edit_except_BadRequest (db : database) (pre : list call) (text : string) : run :=
  let r := edit_message_text text in
  {| raised := match telegram r with
               | Some BadRequest => None
               | o => o
               end;
     final := db;
     calls := pre ++ [(r, telegram r)] |}.

(** The same with a second handler [except Exception], which lets
    nothing out. *)
Definition edit_except_Exception (db : database) (pre : list call) (text : string) : run :=
  let r := edit_message_text text in
  {| raised := None; final := db; calls := pre ++ [(r, telegram r)] |}.

(** [button_callback]; [data] is [query.data], [None] when the update
    carries none. *)
Definition button_callback (uid : Z) (data : option string) (db : database) : run :=
  match get_user_tz uid db with
  | Raise e => {| raised := Some e; final := db; calls := [] |}
  | Ok user_tz =>
      let pre := [(answer, telegram answer)] in
      let parsed :=
        match data with
        | None => None
        | Some callback_data =>
            match split_colon callback_data with
            | Raise _ => None
            | Ok (action, task_id_str) =>
                match int task_id_str with
                | Raise _ => None
                | Ok task_id => Some (action, task_id)
                end
            end
        end in
      match parsed with
      | None => edit_except_BadRequest db pre "⚠️ Error."
      | Some (action, task_id) =>
          match get_task_by_id task_id uid db with
          | None =>
              match overflows task_id with
              | Some e => {| raised := Some e; final := db; calls := pre |}
              | None =>
                  edit_except_BadRequest db pre ("Task " +:+ pretty task_id +:+ " NF.")
              end
          | Some t =>
              let original_display_text := build_task_message_text t user_tz in
              if String.eqb action "done" then
                (* logger.info(f"Mark {tid} done user {uid}") *)
                if negb (name_bound button_callback_locals "tid"
                         && name_bound button_callback_locals "uid")
                then {| raised := Some NameError; final := db; calls := pre |}
                else if String.eqb (status t) "done" then
                  edit_except_Exception db pre
                    ("✅ Done!" +:+ nl +:+ "~" +:+ original_display_text +:+ "~")
                else
                  let '(ok, db') := update_task_status task_id uid "done" db in
                  if ok
                  then edit_except_BadRequest db' pre
                         ("✅ DONE: ~" +:+ original_display_text +:+ "~")
                  else edit_except_BadRequest db' pre
                         ("⚠️ Fail mark " +:+ pretty task_id +:+ ".")
              else if String.eqb action "delete" then
                let '(ok, db') := delete_task task_id uid db in
                if ok
                then edit_except_BadRequest db' pre
                       ("🗑️ Deleted: ~" +:+ original_display_text +:+ "~")
                else edit_except_BadRequest db' pre
                       ("⚠️ Fail delete " +:+ pretty task_id +:+ ".")
              else edit_except_BadRequest db pre "⚠️ Unknown."
          end
      end
  end.

(** The body of a branch of [check_deadlines] that sends: the flag is
    written after [send_message] returned, inside the same [try]; an
    exception of the send is logged and nothing is written. *)
Definition send_and_mark (tid : Z) (k : interval) (cid : Z) (msg : string)
    (db : database) : database * list notification :=
  let o := telegram (send_message cid msg None) in
  let n := {| n_task := tid; n_key := k; n_chat := cid; n_text := msg; n_error := o |} in
  match o with
  | None => ((mark_specific_notification_sent tid (key k) db).2, [n])
  | Some _ => (db, [n])
  end.

(** The interval the loop over [sorted_intervals] stops at. *)
Definition first_due_interval (remain : Z) (t : task) : option (interval * (Z * string)) :=
  List.find (λ kv, (remain <=? kv.2.1) && negb (flag kv.1 t)) sorted_intervals.

(** One iteration of the loop of [check_deadlines] over the fetched
    rows; the flags tested are those of the fetched row. *)
Definition check_task (now_utc : Z) (row : task * string) (db : database)
  : database * list notification :=
  let '(t, tz_str) := row in
  let tz := match ZoneInfo tz_str with Ok z => z | Raise _ => UTC end in
  match due_date t with
  | None => (db, [])
  | Some due_utc =>
      let remain := due_utc - now_utc in
      let d_loc := format_datetime_local (Some due_utc) tz in
      let tail := "!" +:+ nl +:+ "ID:" +:+ pretty (id t) +:+ nl +:+ "Desc:"
                  +:+ description t +:+ nl +:+ "Due:" +:+ d_loc
                  +:+ "(" +:+ zone_key tz +:+ ")" in
      if remain <=? 0 then
        if negb (flag Ifinal t)
        then send_and_mark (id t) Ifinal (chat_id t)
               ("🔔 DUE " +:+ (interval_entry Ifinal).2 +:+ tail) db
        else (db, [])
      else
        match first_due_interval remain t with
        | Some (int_key, (_, int_desc)) =>
            send_and_mark (id t) int_key (chat_id t)
              ("⏳ Reminder: Due " +:+ int_desc +:+ tail) db
        | None => (db, [])
        end
  end.

(** The notifications one fetched row gives rise to; they are decided by
    the fetched row alone, not by the table the flag is then written
    to. *)
Definition notifications_of (now_utc : Z) (row : task * string) : list notification :=
  (check_task now_utc row empty_db).2.

(** The loop of [check_deadlines] over a batch of fetched rows. *)
Fixpoint check_tasks (now_utc : Z) (rows : list (task * string)) (db : database)
  : database * list notification :=
  match rows with
  | [] => (db, [])
  | row :: rest =>
      let '(db1, ns1) := check_task now_utc row db in
      let '(db2, ns2) := check_tasks now_utc rest db1 in
      (db2, (ns1 ++ ns2)%list)
  end.

(** [check_deadlines]; [now_utc] is [datetime.now(UTC)]. *)
Definition check_deadlines (now_utc : Z) (db : database) : database * list notification :=
  check_tasks now_utc (get_pending_tasks_with_due_dates db) db.

(** [datetime.now(tz).strftime('%Y-%m-%d %H:%M:%S %Z%z')] for the zone
    of the given key. *)
Variable strftime_zone : string → Z → string.

(** [set_timezone_command]; [now] is the clock reading of the call. *)
Definition set_timezone_command (now : Z) (uid : Z) (args : list string)
    (db : database) : run :=
  match args with
  | [] => reply db "Usage: /set_timezone <Area/City> ..."
  | timezone_str :: _ =>
      let is_valid := match zone_load timezone_str with None => true | Some _ => false end in
      if negb is_valid
      then reply db ("❌ Invalid timezone: '" +:+ timezone_str +:+ "' ...")
      else
        match set_user_timezone zone_load uid timezone_str db with
        | (Raise e, db') => {| raised := Some e; final := db'; calls := [] |}
        | (Ok true, db') =>
            match get_user_tz uid db' with
            | Raise e => {| raised := Some e; final := db'; calls := [] |}
            | Ok user_tz =>
                reply db' ("✅ TZ set: " +:+ timezone_str +:+ nl +:+ "Current: "
                           +:+ strftime_zone (zone_key user_tz) now)
            end
        | (Ok false, db') => reply db' "❌ Failed to save timezone."
        end
  end.

(** [my_timezone_command] *)
Definition my_timezone_command (now : Z) (uid : Z) (db : database) : run :=
  match get_user_timezone_str zone_load uid db with
  | Raise e => {| raised := Some e; final := db; calls := [] |}
  | Ok user_tz_str =>
      match get_user_tz uid db with
      | Raise e => {| raised := Some e; final := db; calls := [] |}
      | Ok user_tz =>
          reply db ("TZ: *" +:+ user_tz_str +:+ "*" +:+ nl +:+ "Now: "
                    +:+ strftime_zone (zone_key user_tz) now)
      end
  end.

(** [start]: [mention] is [user.mention_html()], [jobs] the job queue
    of the application; the greeting is sent before the job is looked
    up. *)
Definition start (uid : Z) (mention : string) (jobs : list job) (db : database)
  : run * list job :=
  match get_user_timezone_str zone_load uid db with
  | Raise e => ({| raised := Some e; final := db; calls := [] |}, jobs)
  | Ok _ =>
      let r := reply_text ("Hi " +:+ mention
                           +:+ "! Use /help or tell me what task to add.") in
      match telegram r with
      | Some e => ({| raised := Some e; final := db; calls := [(r, Some e)] |}, jobs)
      | None =>
          let job_name_ := "global_deadline_check" in
          let current_jobs :=
            List.filter (λ j, String.eqb (job_name j) job_name_) jobs in
          ({| raised := None; final := db; calls := [(r, None)] |},
           match current_jobs with
           | [] => (jobs ++ [{| job_name := job_name_; job_interval := 900;
                                job_first := 5 |}])%list
           | _ => jobs
           end)
      end
  end.

(** One call of a callable of [handle_conversation], for the user and
    the chat of the message. *)
Definition call_tool (now : Z) (uid cid : Z) (c : tool_call) (db : database)
  : result string * database :=
  match c with
  | add_task_wrapper desc due => add_task_logic now desc due uid cid db
  | list_tasks_wrapper status_filter =>
      let status :=
        if String.eqb status_filter "pending" || String.eqb status_filter "done"
        then status_filter else "pending" in
      (list_tasks_logic uid status db, db)
  | mark_task_done_wrapper task_id =>
      let '(s, db') := mark_task_done_logic task_id uid db in (Ok s, db')
  | delete_task_wrapper task_id =>
      let '(s, db') := delete_task_logic task_id uid db in (Ok s, db')
  end.

(** The calls executed for one message, in order; an exception of a
    callable ends the exchange. *)
Fixpoint call_tools (now : Z) (uid cid : Z) (cs : list tool_call) (db : database)
  : database :=
  match cs with
  | [] => db
  | c :: rest =>
      match call_tool now uid cid c db with
      | (Ok _, db') => call_tools now uid cid rest db'
      | (Raise _, db') => db'
      end
  end.

End Env.

End bot_py.

Import database_py bot_py.

(** ** Operations of the program *)

(** Well-formed [tasks] table: [id] is a primary key and no id exceeds
    the AUTOINCREMENT counter. *)
Definition wf (db : database) : Prop :=
  NoDup (id <$> tasks db) ∧ ∀ t, t ∈ tasks db → id t ≤ seq db.

(** The effect of the sweep on one row of the table: the flags of the
    notifications that were delivered for its id are set. *)
Definition apply_notification (t : task) (n : notification) : task :=
  match n_error n with
  | None => if id t =? n_task n then set_flag (n_key n) t else t
  | Some _ => t
  end.

Definition apply_notifications (ns : list notification) (t : task) : task :=
  fold_left apply_notification ns t.

(** No task without a due date has a fired threshold. *)
Definition none_unfired (db : database) : Prop :=
  ∀ t, t ∈ tasks db → due_date t = None → fired_thresholds t = [].

(** From [db] to [db'] no flag was cleared: a row of [db'] whose id had
    been handed out in [db] comes from a row of [db] with that id, and
    has every flag that row had. *)
Definition flags_kept (db db' : database) : Prop :=
  seq db ≤ seq db'
  ∧ ∀ t', t' ∈ tasks db' → id t' ≤ seq db →
          ∃ t, t ∈ tasks db ∧ id t = id t' ∧ ∀ k, flag k t = true → flag k t' = true.

(** The offset of a threshold. *)
Definition offset (k : interval) : Z := (interval_entry k).1.

(** A [send_message] with a task keyboard that returned. *)
Definition delivered_task_message (c : call) : bool :=
  match c with
  | (send_message _ _ (Some _), None) => true
  | _ => false
  end.

(** The notice [list_tasks_command] sends when it stops short; its other
    [send_message] calls carry a keyboard. *)
Definition truncation_notice (c : call) : bool :=
  match c with
  | (send_message _ text None, _) =>
      String.eqb text ("..." +:+ nl +:+ "(First 20)")
  | _ => false
  end.

(** The order of the rows [get_user_tasks] returns: rows without a due
    date first, then increasing due dates; [added_date] decides between
    equal due dates. *)
Definition listed_before (a b : task) : Prop :=
  match due_date a, due_date b with
  | None, None => added_date a ≤ added_date b
  | None, Some _ => True
  | Some _, None => False
  | Some x, Some y => x < y ∨ (x = y ∧ added_date a ≤ added_date b)
  end.

(** The same order with the rows without a due date last. *)
Definition listed_before_nulls_last (a b : task) : Prop :=
  match due_date a, due_date b with
  | None, None => added_date a ≤ added_date b
  | None, Some _ => False
  | Some _, None => True
  | Some x, Some y => x < y ∨ (x = y ∧ added_date a ≤ added_date b)
  end.

Section Operations.

Variable zone_load : string → option exn.
Variable strftime : string → Z → option string.
Variable dateparser_parse : string → Z → string → result (option Z).

(** What users and the scheduler can do.  The interactive handlers and
    the sweep carry the outcomes of their Bot API calls. *)
Inductive action : Type :=
  | Add (now : Z) (desc : string) (due : option string) (uid cid : Z)
  | ListTasks (uid : Z) (status_filter : string)
  | Complete (tid uid : Z)
  | Delete (tid uid : Z)
  | ListCommand (telegram : request → option exn) (uid cid : Z)
  | DoneCommand (telegram : request → option exn) (uid : Z) (args : list string)
  | DeleteCommand (telegram : request → option exn) (uid : Z) (args : list string)
  | Button (telegram : request → option exn) (uid : Z) (data : option string)
  | SetTimezone (uid : Z) (timezone_str : string)
  | Sweep (telegram : request → option exn) (now_utc : Z).

(** The database an action leaves behind. *)
Definition perform (a : action) (db : database) : database :=
  match a with
  | Add now desc due uid cid =>
      (add_task_logic zone_load strftime dateparser_parse now desc due uid cid db).2
  | ListTasks uid st => db
  | Complete tid uid => (mark_task_done_logic tid uid db).2
  | Delete tid uid => (delete_task_logic tid uid db).2
  | ListCommand tg uid cid => final (list_tasks_command zone_load strftime tg uid cid db)
  | DoneCommand tg uid args => final (done_task_command tg uid args db)
  | DeleteCommand tg uid args => final (delete_task_command tg uid args db)
  | Button tg uid data => final (button_callback zone_load strftime tg uid data db)
  | SetTimezone uid tz => (set_user_timezone zone_load uid tz db).2
  | Sweep tg now => (check_deadlines zone_load strftime tg now db).1
  end.

(** Actions, and the repository's mark operation called on its own. *)
Inductive operation : Type :=
  | Act (a : action)
  | MarkThresholdFired (tid : Z) (interval_key : string).

Definition execute (o : operation) (db : database) : database :=
  match o with
  | Act a => perform a db
  | MarkThresholdFired tid k => (mark_specific_notification_sent tid k db).2
  end.

Definition perform_all (acts : list action) (db : database) : database :=
  fold_left (λ d a, perform a d) acts db.

Definition execute_all (ops : list operation) (db : database) : database :=
  fold_left (λ d o, execute o d) ops db.

(** The sweep with the handlers that run while it waits.
    [check_deadlines] fetches its rows once; for a row it notifies it
    awaits [send_message], and during that await the handlers of other
    updates run: [during] are their operations, one list for each
    notification the sweep sends, in order.  The flag is written after
    the send returned, to the table as it is by then. *)
Definition commit_during (ops : list operation) (n : notification) (db : database)
  : database :=
  let db1 := execute_all ops db in
  match n_error n with
  | None => (mark_specific_notification_sent (n_task n) (key (n_key n)) db1).2
  | Some _ => db1
  end.

Fixpoint check_tasks_during (telegram : request → option exn) (now_utc : Z)
    (rows : list (task * string)) (during : list (list operation)) (db : database)
  : database * list notification :=
  match rows with
  | [] => (db, [])
  | row :: rest =>
      match notifications_of zone_load strftime telegram now_utc row with
      | [] => check_tasks_during telegram now_utc rest during db
      | n :: _ =>
          let db1 := commit_during (hd [] during) n db in
          let '(db2, ns) := check_tasks_during telegram now_utc rest (tl during) db1 in
          (db2, n :: ns)
      end
  end.

Definition check_deadlines_during (telegram : request → option exn) (now_utc : Z)
    (during : list (list operation)) (db : database) : database * list notification :=
  check_tasks_during telegram now_utc (get_pending_tasks_with_due_dates db) during db.

(** One write of the repository.  [G tid db] says when a mark of [tid]
    is admitted in [db]. *)
Inductive write (G : Z → database → Prop) : database → database → Prop :=
  | write_add now uid cid desc due db :
      write G db (add_task now uid cid desc due db).2
  | write_status tid uid st db :
      write G db (update_task_status tid uid st db).2
  | write_delete tid uid db :
      write G db (delete_task tid uid db).2
  | write_timezone uid tz db :
      write G db (set_user_timezone zone_load uid tz db).2
  | write_mark tid k db :
      G tid db → write G db (mark_specific_notification_sent tid k db).2.

(** The user an action acts for; the sweep acts for none. *)
Definition actor (a : action) : option Z :=
  match a with
  | Add _ _ _ uid _ | ListTasks uid _ | Complete _ uid | Delete _ uid
  | ListCommand _ uid _ | DoneCommand _ uid _ | DeleteCommand _ uid _
  | Button _ uid _ | SetTimezone uid _ => Some uid
  | Sweep _ _ => None
  end.

(** One write on behalf of a user: the writes the handlers make. *)
Inductive user_write (uid : Z) : database → database → Prop :=
  | user_add now cid desc due db :
      user_write uid db (add_task now uid cid desc due db).2
  | user_done tid db :
      user_write uid db (update_task_status tid uid "done" db).2
  | user_delete tid db :
      user_write uid db (delete_task tid uid db).2
  | user_timezone tz db :
      user_write uid db (set_user_timezone zone_load uid tz db).2.

(** Every stored timezone loads. *)
Definition zones_load (db : database) : Prop :=
  ∀ uid tz, users db !! uid = Some tz → zone_load tz = None.

(** A series of [/start] commands, each with its gate, user and
    mention, on one job queue. *)
Definition starts (reqs : list ((request → option exn) * Z * string))
    (db : database) (jobs : list job) : list job :=
  fold_left (λ js q, (start zone_load q.1.1 q.1.2 q.2 js db).2) reqs jobs.

End Operations.

(** [t'] is [t] later in its life: the data given at creation is the
    same, and the status is the same or has become done. *)
Definition later_task (t t' : task) : Prop :=
  id t' = id t ∧ user_id t' = user_id t ∧ chat_id t' = chat_id t
  ∧ description t' = description t ∧ due_date t' = due_date t
  ∧ added_date t' = added_date t
  ∧ (status t' = status t ∨ status t' = "done").

(** From [db] to [db'] no task was rewritten: a row of [db'] whose id had
    been handed out in [db] is a row of [db] later in its life. *)
Definition tasks_kept (db db' : database) : Prop :=
  seq db ≤ seq db'
  ∧ ∀ t', t' ∈ tasks db' → id t' ≤ seq db → ∃ t, t ∈ tasks db ∧ later_task t t'.

(** The rows of the tasks that do not belong to [uid], in table order. *)
Definition tasks_of_others (uid : Z) (db : database) : list task :=
  List.filter (λ t, negb (user_id t =? uid)) (tasks db).

(** The deadline jobs of a job queue. *)
Definition deadline_jobs (jobs : list job) : list job :=
  List.filter (λ j, String.eqb (job_name j) "global_deadline_check") jobs.

(** Marks of any task. *)
Definition any_task : Z → database → Prop := λ _ _, True.

(** Marks of tasks that have a due date. *)
Definition has_due_date : Z → database → Prop :=
  λ tid db, ∀ t, t ∈ tasks db → id t = tid → due_date t ≠ None.

(** ** A sample environment *)

(** A zone database with two zones; the empty key is malformed
    ([zoneinfo] raises [ValueError] for it), any other key is unknown. *)
Definition sample_zone_load (k : string) : option exn :=
  if String.eqb k "UTC" || String.eqb k "Asia/Tashkent" then None
  else if String.eqb k "" then Some ValueError
  else Some ZoneInfoNotFoundError.

(** The same zone database after Asia/Tashkent was removed from it. *)
Definition later_zone_load (k : string) : option exn :=
  if String.eqb k "Asia/Tashkent" then Some ZoneInfoNotFoundError
  else sample_zone_load k.

Definition sample_strftime (k : string) (d : Z) : option string :=
  Some (pretty d).

Definition sample_parse (s : string) (now : Z) (k : string) : result (option Z) :=
  if String.eqb s "in ten minutes" then Ok (Some (now + minutes 10)) else Ok None.

(** A gate that delivers everything. *)
Definition delivers_all (r : request) : option exn := None.

(** A gate that fails the task message of task [tid] and every message
    into chat [cid], and delivers the rest. *)
Definition fails_for (tid cid : Z) (r : request) : option exn :=
  match r with
  | send_message c _ (Some i) => if (i =? tid) || (c =? cid) then Some TelegramError else None
  | send_message c _ None => if c =? cid then Some TelegramError else None
  | _ => None
  end.

(** A pending task of user 12345 in chat 67890. *)
Definition sample_task (i : Z) (due : option Z) : task :=
  {| id := i; user_id := 12345; chat_id := 67890; description := "Submit thesis";
     due_date := due; status := "pending"; added_date := i;
     notified_24h := false; notified_12h := false; notified_6h := false;
     notified_3h := false; notified_1h := false; notified_15m := false;
     notified_final_due := false |}.

(** The same task in another chat. *)
Definition sample_task_in (cid : Z) (i : Z) (due : option Z) : task :=
  {| id := i; user_id := 12345; chat_id := cid; description := "Submit thesis";
     due_date := due; status := "pending"; added_date := i;
     notified_24h := false; notified_12h := false; notified_6h := false;
     notified_3h := false; notified_1h := false; notified_15m := false;
     notified_final_due := false |}.

Definition sample_db (ts : list task) : database :=
  {| tasks := ts; users := ∅; seq := Z.of_nat (length ts) |}.

(** The same with a stored timezone for user 12345. *)
Definition sample_db_in_zone (tz : string) (ts : list task) : database :=
  {| tasks := ts; users := {[ 12345 := tz ]}; seq := Z.of_nat (length ts) |}.

(** A tasks table of the first version of the bot, with its one
    [notified] column. *)
Definition legacy_schema : schema :=
  {[ "tasks" := ["id"; "user_id"; "chat_id"; "description"; "due_date"; "status";
                 "added_date"; "notified"] ]}.

Definition sample_strftime_zone (k : string) (d : Z) : string :=
  pretty d +:+ " " +:+ k.

(** [n] pending tasks without a due date, ids [1..n]. *)
Definition many_tasks (n : nat) : list task :=
  (λ i, sample_task (Z.of_nat (S i)) None) <$> List.seq 0 n.

(** * Properties *)

(** ** Rows, flags and filters *)

Lemma elem_of_filter_bool {A} (p : A → bool) (l : list A) (x : A) :
  x ∈ List.filter p l ↔ x ∈ l ∧ p x = true.
Proof. rewrite !list_elem_of_In. apply filter_In. Qed.

Lemma rowcount_positive (p : task → bool) (db : database) :
  bool_decide (0 < rowcount p db)%nat = true ↔ ∃ t, t ∈ tasks db ∧ p t = true.
Proof.
  rewrite bool_decide_eq_true. unfold rowcount. split.
  - intros Hlen. destruct (List.filter p (tasks db)) as [|t l] eqn:E.
    + simpl in Hlen. lia.
    + exists t. apply elem_of_filter_bool. rewrite E. left.
  - intros (t & Hin & Hp).
    assert (Hf : t ∈ List.filter p (tasks db)) by (apply elem_of_filter_bool; done).
    destruct (List.filter p (tasks db)); [inversion Hf | simpl; lia].
Qed.

Lemma column_of_key_key (k : interval) : column_of_key (key k) = Some k.
Proof. destruct k; reflexivity. Qed.

Lemma set_flag_id i t : id (set_flag i t) = id t.
Proof. reflexivity. Qed.

Lemma set_flag_due_date i t : due_date (set_flag i t) = due_date t.
Proof. reflexivity. Qed.

Lemma flag_set_flag_same i t : flag i (set_flag i t) = true.
Proof. destruct i; reflexivity. Qed.

Lemma flag_set_flag_mono i k t : flag k t = true → flag k (set_flag i t) = true.
Proof. destruct i, k; simpl; auto. Qed.

Lemma with_tasks_same db : with_tasks db (tasks db) = db.
Proof. destruct db; reflexivity. Qed.

Lemma fmap_unchanged {A} (f : A → A) (l : list A) :
  (∀ x, x ∈ l → f x = x) → f <$> l = l.
Proof.
  induction l as [|a l IH]; intros H; [done|].
  rewrite fmap_cons, H by left. f_equal. apply IH.
  intros x Hx. apply H. by right.
Qed.

(** ** The mark operation of the repository *)

(** C4 (as the code has it): for a valid threshold key,
    [mark_specific_notification_sent] returns true exactly when the table
    has a task of that id, whatever its status; when it has none, the
    database is left as it was and the result is false. *)
Theorem mark_true_iff_task_exists (tid : Z) (k : string) (i : interval) (db : database) :
  column_of_key k = Some i →
  ((mark_specific_notification_sent tid k db).1 = true
     ↔ ∃ t, t ∈ tasks db ∧ id t = tid)
  ∧ ((¬ ∃ t, t ∈ tasks db ∧ id t = tid) →
     mark_specific_notification_sent tid k db = (false, db)).
Proof.
  intros Hk. unfold mark_specific_notification_sent. rewrite Hk. simpl. split.
  - rewrite rowcount_positive. split; intros (t & Hin & Ht); exists t; split; auto; lia.
  - intros Hnone. f_equal.
    + destruct (bool_decide _) eqn:Hpos; [|done].
      apply rowcount_positive in Hpos.
      destruct Hpos as (t & Hin & Ht). exfalso. apply Hnone. exists t. split; [done|lia].
    + rewrite fmap_unchanged; [apply with_tasks_same|].
      intros t Hin. destruct (id t =? tid) eqn:E; [|done].
      exfalso. apply Hnone. exists t. split; [done|lia].
Qed.

Lemma mark_true_iff_task_exists_witness :
  (mark_specific_notification_sent 1 "notified_1h"
     (sample_db [sample_task 1 (Some 0)])).1 = true
  ↔ ∃ t, t ∈ tasks (sample_db [sample_task 1 (Some 0)]) ∧ id t = 1.
Proof.
  exact (proj1 (mark_true_iff_task_exists 1 "notified_1h" I1h
                  (sample_db [sample_task 1 (Some 0)]) eq_refl)).
Defined.

(** C4 (as stated) fails: the mark of a task that is done returns true,
    although no pending task of that id exists. *)
Lemma mark_true_for_done_task :
  ¬ (∀ (tid : Z) (k : string) (i : interval) (db : database),
       column_of_key k = Some i →
       ((mark_specific_notification_sent tid k db).1 = true
          ↔ ∃ t, t ∈ tasks db ∧ id t = tid ∧ status t = "pending")).
Proof.
  intros H.
  destruct (H 1 "notified_1h" I1h
              (sample_db [set_status "done" (sample_task 1 (Some 0))]) eq_refl)
    as [Hex _].
  destruct (Hex eq_refl) as (t & Hin & _ & Hst).
  apply list_elem_of_singleton in Hin. subst t. discriminate Hst.
Qed.

(** ** The deadline sweep: which threshold a task is notified of *)

Section Sweep.

Variable zone_load : string → option exn.
Variable strftime : string → Z → option string.
Variable telegram : request → option exn.

Lemma sorted_intervals_eq :
  sorted_intervals =
  [ (I15m, (minutes 15, "in less than 15 minutes"));
    (I1h, (hours 1, "in less than 1 hour"));
    (I3h, (hours 3, "in less than 3 hours"));
    (I6h, (hours 6, "in less than 6 hours"));
    (I12h, (hours 12, "in less than 12 hours"));
    (I24h, (hours 24, "in less than 24 hours")) ].
Proof. reflexivity. Qed.

(** The first entry of a list sorted by offset that satisfies a test has
    the least offset of all entries that satisfy it. *)
Lemma find_sorted_least {A} (R : A → A → Prop) (p : A → bool) (l : list A) (x : A) :
  (∀ a, R a a) → StronglySorted R l → List.find p l = Some x →
  x ∈ l ∧ p x = true ∧ ∀ y, y ∈ l → p y = true → R x y.
Proof.
  intros Hrefl Hs. induction Hs as [|a l Hs IH Hall]; simpl; [done|].
  destruct (p a) eqn:Hp.
  - intros [= <-]. split; [left|]. split; [done|].
    intros y Hy _. apply elem_of_cons in Hy as [->|Hy]; [apply Hrefl|].
    rewrite Forall_forall in Hall. by apply Hall.
  - intros Hf. destruct (IH Hf) as (Hin & Hpx & Hmin).
    split; [by right|]. split; [done|].
    intros y Hy Hpy. apply elem_of_cons in Hy as [->|Hy]; [congruence|auto].
Qed.

Lemma find_none_all {A} (p : A → bool) (l : list A) :
  List.find p l = None ↔ ∀ y, y ∈ l → p y = false.
Proof.
  induction l as [|a l IH]; simpl.
  - split; [intros _ y Hy; inversion Hy | done].
  - destruct (p a) eqn:Hp.
    + split; [done|]. intros H. specialize (H a). rewrite Hp in H. discriminate H. left.
    + rewrite IH. split.
      * intros H y Hy. apply elem_of_cons in Hy as [->|Hy]; auto.
      * intros H y Hy. apply H. by right.
Qed.

Lemma sorted_intervals_sorted :
  StronglySorted (λ a b : interval * (Z * string), a.2.1 ≤ b.2.1) sorted_intervals.
Proof.
  rewrite sorted_intervals_eq. unfold hours, minutes.
  repeat (constructor; [|repeat constructor; simpl; lia]). constructor.
Qed.

Lemma timed_interval_listed (k : interval) :
  k ≠ Ifinal → ∃ desc, (k, (offset k, desc)) ∈ sorted_intervals.
Proof.
  intros Hk. rewrite sorted_intervals_eq.
  destruct k; try done; eexists; unfold offset; simpl;
    repeat (first [left | right]).
Qed.

Lemma listed_interval_offset (k : interval) (d : Z) (desc : string) :
  (k, (d, desc)) ∈ sorted_intervals → k ≠ Ifinal ∧ d = offset k.
Proof.
  rewrite sorted_intervals_eq. intros H.
  repeat (apply elem_of_cons in H as [[= -> -> _]|H]; [done|]).
  inversion H.
Qed.

Lemma offset_final : offset Ifinal = 0.
Proof. reflexivity. Qed.

(** The loop over [sorted_intervals] stops at the unfired threshold of
    least offset among those that cover the remaining time. *)
Lemma first_due_interval_some (remain : Z) (t : task) k d desc :
  0 < remain →
  first_due_interval remain t = Some (k, (d, desc)) →
  flag k t = false ∧ remain ≤ offset k ∧
  ∀ k', flag k' t = false → remain ≤ offset k' → offset k ≤ offset k'.
Proof.
  intros Hpos Hfind. unfold first_due_interval in Hfind.
  destruct (find_sorted_least (λ a b : interval * (Z * string), a.2.1 ≤ b.2.1)
              _ _ _ (λ a, Z.le_refl _) sorted_intervals_sorted Hfind)
    as (Hin & Hp & Hmin). simpl in Hp.
  apply listed_interval_offset in Hin as [Hk ->].
  apply andb_true_iff in Hp as [Hle Hfl].
  apply Z.leb_le in Hle. apply negb_true_iff in Hfl.
  split; [done|]. split; [done|].
  intros k' Hfl' Hle'.
  destruct (decide (k' = Ifinal)) as [->|Hk'].
  { rewrite offset_final in Hle'. lia. }
  destruct (timed_interval_listed k' Hk') as [desc' Hin'].
  specialize (Hmin _ Hin'). simpl in Hmin. apply Hmin.
  rewrite Hfl'. simpl. rewrite andb_true_r. by apply Z.leb_le.
Qed.

Lemma first_due_interval_none (remain : Z) (t : task) :
  0 < remain →
  (first_due_interval remain t = None ↔ ∀ k, remain ≤ offset k → flag k t = true).
Proof.
  intros Hpos. unfold first_due_interval. rewrite find_none_all. split.
  - intros H k Hle.
    destruct (decide (k = Ifinal)) as [->|Hk].
    { rewrite offset_final in Hle. lia. }
    destruct (timed_interval_listed k Hk) as [desc Hin].
    specialize (H _ Hin). simpl in H.
    apply andb_false_iff in H as [H|H].
    + apply Z.leb_gt in H. lia.
    + by apply negb_false_iff in H.
  - intros H [k [d desc]] Hin. simpl.
    apply listed_interval_offset in Hin as [Hk ->].
    destruct (remain <=? offset k) eqn:Hle; [|done].
    apply Z.leb_le in Hle. rewrite (H k Hle). done.
Qed.

(** *** The effect of the sweep on the table *)

Lemma filter_all_true {A} (p : A → bool) (l : list A) :
  (∀ x, x ∈ l → p x = true) → List.filter p l = l.
Proof.
  induction l as [|a l IH]; intros H; simpl; [done|].
  rewrite H by left. f_equal. apply IH. intros x Hx. apply H. by right.
Qed.

Lemma filter_all_false {A} (p : A → bool) (l : list A) :
  (∀ x, x ∈ l → p x = false) → List.filter p l = [].
Proof.
  induction l as [|a l IH]; intros H; simpl; [done|].
  rewrite H by left. apply IH. intros x Hx. apply H. by right.
Qed.

Lemma NoDup_fmap_filter {A B} (g : A → B) (p : A → bool) (l : list A) :
  NoDup (g <$> l) → NoDup (g <$> List.filter p l).
Proof.
  induction l as [|a l IH]; [done|].
  rewrite fmap_cons, NoDup_cons. intros [Hnot Hnd].
  cbn [List.filter]. destruct (p a); [|by apply IH].
  rewrite fmap_cons, NoDup_cons. split; [|by apply IH].
  intros Hin. apply Hnot.
  apply list_elem_of_fmap in Hin as (x & -> & Hx).
  apply elem_of_filter_bool in Hx as [Hx _].
  apply list_elem_of_fmap. by exists x.
Qed.

Lemma NoDup_fmap_eq {A B} (g : A → B) (l : list A) (x y : A) :
  NoDup (g <$> l) → x ∈ l → y ∈ l → g x = g y → x = y.
Proof.
  induction l as [|a l IH]; [by intros _ H; inversion H|].
  rewrite fmap_cons, NoDup_cons. intros [Hnot Hnd] Hx Hy Heq.
  apply elem_of_cons in Hx as [->|Hx]; apply elem_of_cons in Hy as [->|Hy]; auto.
  - exfalso. apply Hnot. rewrite Heq. apply list_elem_of_fmap. by exists y.
  - exfalso. apply Hnot. rewrite <- Heq. apply list_elem_of_fmap. by exists x.
Qed.

Lemma apply_notifications_app ns1 ns2 t :
  apply_notifications (ns1 ++ ns2) t = apply_notifications ns2 (apply_notifications ns1 t).
Proof. apply fold_left_app. Qed.

Lemma apply_notification_id t n : id (apply_notification t n) = id t.
Proof. unfold apply_notification. destruct (n_error n), (id t =? n_task n); done. Qed.

Lemma apply_notifications_id ns t : id (apply_notifications ns t) = id t.
Proof.
  revert t. induction ns as [|n ns IH]; intros t; simpl; [done|].
  unfold apply_notifications in IH. by rewrite IH, apply_notification_id.
Qed.

Lemma apply_notification_due_date t n : due_date (apply_notification t n) = due_date t.
Proof. unfold apply_notification. destruct (n_error n), (id t =? n_task n); done. Qed.

Lemma apply_notifications_due_date ns t :
  due_date (apply_notifications ns t) = due_date t.
Proof.
  revert t. induction ns as [|n ns IH]; intros t; simpl; [done|].
  unfold apply_notifications in IH. by rewrite IH, apply_notification_due_date.
Qed.

Lemma apply_notification_flag_mono t n k :
  flag k t = true → flag k (apply_notification t n) = true.
Proof.
  unfold apply_notification. destruct (n_error n), (id t =? n_task n); auto.
  apply flag_set_flag_mono.
Qed.

Lemma apply_notifications_flag_mono ns t k :
  flag k t = true → flag k (apply_notifications ns t) = true.
Proof.
  revert t. induction ns as [|n ns IH]; intros t Hk; simpl; [done|].
  apply IH. by apply apply_notification_flag_mono.
Qed.

Lemma with_tasks_with_tasks db l l' : with_tasks (with_tasks db l) l' = with_tasks db l'.
Proof. reflexivity. Qed.

(** One branch that sends. *)
Lemma send_and_mark_effect tid k cid msg db :
  send_and_mark telegram tid k cid msg db
  = (with_tasks db
       (apply_notifications (send_and_mark telegram tid k cid msg empty_db).2 <$> tasks db),
     (send_and_mark telegram tid k cid msg empty_db).2).
Proof.
  unfold send_and_mark, mark_specific_notification_sent, apply_notifications.
  rewrite column_of_key_key. unfold apply_notification.
  destruct (telegram _) eqn:E; simpl; rewrite ?E; [|done].
  rewrite fmap_unchanged by done. by rewrite with_tasks_same.
Qed.

Lemma send_and_mark_notification tid k cid msg db n :
  n ∈ (send_and_mark telegram tid k cid msg db).2 →
  n_task n = tid ∧ n_key n = k ∧ n_chat n = cid
  ∧ n_error n = telegram (send_message cid (n_text n) None).
Proof.
  unfold send_and_mark. destruct (telegram _) eqn:E; simpl;
    intros ->%list_elem_of_singleton; simpl; by rewrite E.
Qed.

(** One fetched row: the table afterwards is the table before with the
    flags of the delivered notifications set. *)
Lemma check_task_effect now row db :
  check_task zone_load strftime telegram now row db
  = (with_tasks db (apply_notifications (notifications_of zone_load strftime telegram now row)
                      <$> tasks db),
     notifications_of zone_load strftime telegram now row).
Proof.
  assert (Hnone : (db, @nil notification)
                  = (with_tasks db (apply_notifications [] <$> tasks db), [])).
  { unfold apply_notifications. simpl. rewrite fmap_unchanged by done.
    by rewrite with_tasks_same. }
  unfold notifications_of, check_task. destruct row as [t tz_str].
  destruct (due_date t) as [due|]; [|exact Hnone].
  destruct (due - now <=? 0).
  - destruct (negb (flag Ifinal t)); [apply send_and_mark_effect|exact Hnone].
  - destruct (first_due_interval _ _) as [[k [d desc]]|];
      [apply send_and_mark_effect|exact Hnone].
Qed.

(** The whole batch. *)
Lemma check_tasks_effect now rows db :
  check_tasks zone_load strftime telegram now rows db
  = (with_tasks db
       (apply_notifications (flat_map (notifications_of zone_load strftime telegram now) rows)
          <$> tasks db),
     flat_map (notifications_of zone_load strftime telegram now) rows).
Proof.
  revert db. induction rows as [|row rows IH]; intros db.
  - simpl. unfold apply_notifications. simpl. rewrite fmap_unchanged by done.
    by rewrite with_tasks_same.
  - cbn [check_tasks flat_map]. rewrite check_task_effect, IH.
    rewrite with_tasks_with_tasks. cbn [tasks with_tasks].
    rewrite <- list_fmap_compose. f_equal. f_equal.
    apply list_fmap_ext. intros i t _. simpl. by rewrite apply_notifications_app.
Qed.

(** A notification carries the id and the chat of the row it was
    computed from; a row gives at most one. *)
Lemma notifications_of_row now t tz_str n :
  n ∈ notifications_of zone_load strftime telegram now (t, tz_str) →
  n_task n = id t ∧ n_chat n = chat_id t
  ∧ n_error n = telegram (send_message (n_chat n) (n_text n) None)
  ∧ is_Some (due_date t).
Proof.
  unfold notifications_of, check_task.
  destruct (due_date t) as [due|]; [|by intros H; inversion H].
  destruct (due - now <=? 0).
  - destruct (negb (flag Ifinal t)); [|by intros H; inversion H].
    intros (-> & _ & Hc & He)%send_and_mark_notification. rewrite Hc in *. eauto.
  - destruct (first_due_interval _ _) as [[k [d desc]]|]; [|by intros H; inversion H].
    intros (-> & _ & Hc & He)%send_and_mark_notification. rewrite Hc in *. eauto.
Qed.

(** The threshold a row is notified of was not fired in that row. *)
Lemma notifications_of_unfired now t tz_str n :
  n ∈ notifications_of zone_load strftime telegram now (t, tz_str) →
  flag (n_key n) t = false.
Proof.
  unfold notifications_of, check_task.
  destruct (due_date t) as [due|]; [|by intros H; inversion H].
  destruct (due - now <=? 0).
  - destruct (negb (flag Ifinal t)) eqn:Hfl; [|by intros H; inversion H].
    intros (_ & -> & _)%send_and_mark_notification. by apply negb_true_iff.
  - destruct (first_due_interval _ _) as [[k [d desc]]|] eqn:Hfind;
      [|by intros H; inversion H].
    intros (_ & -> & _)%send_and_mark_notification.
    apply find_some in Hfind as [_ Hp]. simpl in Hp.
    apply andb_true_iff in Hp as [_ Hp]. by apply negb_true_iff.
Qed.

Lemma send_and_mark_length tid k cid msg db :
  length (send_and_mark telegram tid k cid msg db).2 = 1%nat.
Proof. unfold send_and_mark. by destruct (telegram _). Qed.

Lemma send_and_mark_nonempty tid k cid msg db :
  (send_and_mark telegram tid k cid msg db).2 ≠ [].
Proof. unfold send_and_mark. by destruct (telegram _). Qed.

Lemma notifications_of_length now row :
  (length (notifications_of zone_load strftime telegram now row) ≤ 1)%nat.
Proof.
  unfold notifications_of, check_task. destruct row as [t tz_str].
  destruct (due_date t) as [due|]; [|simpl; lia].
  destruct (due - now <=? 0).
  - destruct (negb (flag Ifinal t)); [by rewrite send_and_mark_length|simpl; lia].
  - destruct (first_due_interval _ _) as [[k [d desc]]|];
      [by rewrite send_and_mark_length|simpl; lia].
Qed.

(** Of a batch with distinct ids, the notifications for one id are those
    of the one row with that id. *)
Lemma filter_flat_map_unique {A} (f : A → list notification) (g : A → Z)
    (l : list A) (a : A) :
  (∀ x n, n ∈ f x → n_task n = g x) →
  NoDup (g <$> l) → a ∈ l →
  List.filter (λ n, n_task n =? g a) (flat_map f l) = f a.
Proof.
  intros Hf. induction l as [|x l IH]; [by intros _ H; inversion H|].
  rewrite fmap_cons, NoDup_cons. intros [Hnot Hnd] Ha.
  cbn [flat_map]. rewrite List.filter_app.
  assert (Hrest : ∀ y, y ∈ l → g y ≠ g x).
  { intros y Hy Heq. apply Hnot. rewrite <- Heq. apply list_elem_of_fmap. by exists y. }
  apply elem_of_cons in Ha as [->|Ha].
  - rewrite filter_all_true, filter_all_false, app_nil_r; [done| |].
    + intros n Hn. apply list_elem_of_In, in_flat_map in Hn as (y & Hy & Hn).
      apply list_elem_of_In in Hy, Hn. apply Hf in Hn. rewrite Hn.
      apply Z.eqb_neq. by apply Hrest.
    + intros n Hn. apply Hf in Hn. by apply Z.eqb_eq.
  - rewrite filter_all_false; [by apply IH|].
    intros n Hn. apply Hf in Hn. rewrite Hn. apply Z.eqb_neq.
    intros Heq. by apply (Hrest a).
Qed.

End Sweep.

Section SweepThresholds.

Variable zone_load : string → option exn.
Variable strftime : string → Z → option string.
Variable telegram : request → option exn.

Lemma notifications_of_task_id now (row : task * string) n :
  n ∈ notifications_of zone_load strftime telegram now row → n_task n = id row.1.
Proof. destruct row as [t tz]. intros H. by apply notifications_of_row in H as [? _]. Qed.

Lemma fetched_rows_ids db :
  (λ r : task * string, id r.1) <$> get_pending_tasks_with_due_dates db
  = id <$> List.filter
             (λ t, String.eqb (status t) "pending" && bool_decide (due_date t ≠ None))
             (tasks db).
Proof. unfold get_pending_tasks_with_due_dates. by rewrite <- list_fmap_compose. Qed.

Lemma fetched_rows_NoDup db :
  NoDup (id <$> tasks db) →
  NoDup ((λ r : task * string, id r.1) <$> get_pending_tasks_with_due_dates db).
Proof. intros H. rewrite fetched_rows_ids. by apply NoDup_fmap_filter. Qed.

Lemma fetched_row_elem db (r : task * string) :
  r ∈ get_pending_tasks_with_due_dates db ↔
  r.1 ∈ tasks db ∧ status r.1 = "pending" ∧ due_date r.1 ≠ None
  ∧ r.2 = default "UTC" (users db !! user_id r.1).
Proof.
  unfold get_pending_tasks_with_due_dates. rewrite list_elem_of_fmap. split.
  - intros (t & -> & Ht). apply elem_of_filter_bool in Ht as [Hin Hp].
    apply andb_true_iff in Hp as [Hs Hd].
    apply String.eqb_eq in Hs. apply bool_decide_eq_true in Hd. done.
  - intros (Hin & Hs & Hd & Htz). exists r.1. split.
    + destruct r as [t tz]. simpl in *. by subst.
    + apply elem_of_filter_bool. split; [done|].
      apply andb_true_iff. split; [by apply String.eqb_eq|by apply bool_decide_eq_true].
Qed.

(** The notifications of a sweep for one task of the table are those of
    its fetched row. *)
Lemma sweep_notifications_of_task now db t :
  NoDup (id <$> tasks db) → t ∈ tasks db →
  status t = "pending" → due_date t ≠ None →
  List.filter (λ n, n_task n =? id t)
    (check_deadlines zone_load strftime telegram now db).2
  = notifications_of zone_load strftime telegram now
      (t, default "UTC" (users db !! user_id t)).
Proof.
  intros Hnd Hin Hs Hd. unfold check_deadlines. rewrite check_tasks_effect. simpl.
  apply (filter_flat_map_unique
           (notifications_of zone_load strftime telegram now)
           (λ r : task * string, id r.1) _
           (t, default "UTC" (users db !! user_id t))).
  - intros r n. apply notifications_of_task_id.
  - by apply fetched_rows_NoDup.
  - by apply fetched_row_elem.
Qed.

(** C1 (as the code has it): in a sweep over a table with distinct ids,
    a pending task whose due date lies in the future is sent at most one
    notification, and its threshold is the unfired one of least offset
    among those whose offset is at least the remaining time; the task is
    sent nothing exactly when every such threshold has already fired. *)
Theorem sweep_notifies_least_due_threshold now db t due :
  NoDup (id <$> tasks db) → t ∈ tasks db →
  status t = "pending" → due_date t = Some due → now < due →
  let ns := List.filter (λ n, n_task n =? id t)
              (check_deadlines zone_load strftime telegram now db).2 in
  (length ns ≤ 1)%nat
  ∧ (∀ n, n ∈ ns →
       flag (n_key n) t = false ∧ due - now ≤ offset (n_key n)
       ∧ ∀ k', flag k' t = false → due - now ≤ offset k' →
               offset (n_key n) ≤ offset k')
  ∧ (ns = [] ↔ ∀ k, due - now ≤ offset k → flag k t = true).
Proof.
  intros Hnd Hin Hs Hdue Hnow. simpl.
  rewrite sweep_notifications_of_task by (done || by rewrite Hdue).
  split; [apply notifications_of_length|].
  unfold notifications_of, check_task. rewrite Hdue.
  assert (Hpos : 0 < due - now) by lia.
  destruct (due - now <=? 0) eqn:Hle; [apply Z.leb_le in Hle; lia|].
  destruct (first_due_interval (due - now) t) as [[k [d desc]]|] eqn:Hfind.
  - destruct (first_due_interval_some _ _ _ _ _ Hpos Hfind) as (Hfl & Hoff & Hmin).
    split.
    + intros n (_ & -> & _)%send_and_mark_notification. done.
    + split.
      * intros Hnil. by apply send_and_mark_nonempty in Hnil.
      * intros Hall. rewrite (Hall k Hoff) in Hfl. discriminate Hfl.
  - split; [by intros n H; inversion H|].
    split; [intros _|done]. by apply first_due_interval_none.
Qed.
End SweepThresholds.

Lemma head_elem {A} (l : list A) (x : A) : head l = Some x → x ∈ l.
Proof. destruct l; intros [= ->]. left. Qed.

Lemma sweep_notifies_least_due_threshold_witness :
  let db := sample_db [sample_task 1 (Some (minutes 10))] in
  let ns := List.filter (λ n, n_task n =? 1)
              (check_deadlines sample_zone_load sample_strftime delivers_all 0 db).2 in
  (length ns ≤ 1)%nat
  ∧ (∀ n, n ∈ ns →
       flag (n_key n) (sample_task 1 (Some (minutes 10))) = false
       ∧ minutes 10 - 0 ≤ offset (n_key n)
       ∧ ∀ k', flag k' (sample_task 1 (Some (minutes 10))) = false →
               minutes 10 - 0 ≤ offset k' → offset (n_key n) ≤ offset k')
  ∧ (ns = [] ↔ ∀ k, minutes 10 - 0 ≤ offset k →
                    flag k (sample_task 1 (Some (minutes 10))) = true).
Proof.
  apply (sweep_notifies_least_due_threshold sample_zone_load sample_strftime delivers_all
           0 (sample_db [sample_task 1 (Some (minutes 10))])
           (sample_task 1 (Some (minutes 10))) (minutes 10)).
  - simpl. apply NoDup_singleton.
  - simpl. left.
  - reflexivity.
  - reflexivity.
  - reflexivity.
Defined.

(** C1 (as stated) fails: ten minutes before the due date, with nothing
    fired, the sweep sends the 15-minute notification, although the
    unfired 24-hour threshold covers the remaining time with a larger
    offset. *)
Lemma sweep_does_not_notify_largest_threshold :
  ¬ (∀ (telegram : request → option exn) now db t due,
       NoDup (id <$> tasks db) → t ∈ tasks db →
       status t = "pending" → due_date t = Some due → now < due →
       ∀ n, n ∈ List.filter (λ n, n_task n =? id t)
                  (check_deadlines sample_zone_load sample_strftime telegram now db).2 →
            ∀ k', flag k' t = false → due - now ≤ offset k' →
                  offset k' ≤ offset (n_key n)).
Proof.
  intros H.
  specialize (H delivers_all 0 (sample_db [sample_task 1 (Some (minutes 10))])
                (sample_task 1 (Some (minutes 10))) (minutes 10)).
  destruct (head (List.filter (λ n, n_task n =? 1)
              (check_deadlines sample_zone_load sample_strftime delivers_all 0
                 (sample_db [sample_task 1 (Some (minutes 10))])).2)) as [n|] eqn:E;
    [|vm_compute in E; discriminate E].
  assert (Hk : n_key n = I15m) by (vm_compute in E; by injection E as <-).
  apply head_elem in E.
  assert (Hcover : minutes 10 - 0 ≤ offset I24h) by (vm_compute; discriminate).
  specialize (H (NoDup_singleton _) ltac:(left) eq_refl eq_refl eq_refl n E I24h
                eq_refl Hcover).
  rewrite Hk in H. vm_compute in H. by apply H.
Qed.

(** ** The deadline sweep: delivery failures *)

Section SweepDelivery.

Variable zone_load : string → option exn.
Variable strftime : string → Z → option string.
Variable telegram : request → option exn.

Lemma flat_map_notifications_NoDup {A} (f : A → list notification) (g : A → Z)
    (l : list A) :
  (∀ x n, n ∈ f x → n_task n = g x) →
  (∀ x, (length (f x) ≤ 1)%nat) →
  NoDup (g <$> l) → NoDup (n_task <$> flat_map f l).
Proof.
  intros Hf Hlen. induction l as [|x l IH]; [intros _; constructor|].
  rewrite fmap_cons, NoDup_cons. intros [Hnot Hnd]. cbn [flat_map].
  rewrite fmap_app. apply NoDup_app. split; [|split; [|by apply IH]].
  - specialize (Hlen x). destruct (f x) as [|n [|n' l']]; simpl in Hlen; try lia.
    + constructor.
    + apply NoDup_singleton.
  - intros i Hi Hi'. apply Hnot.
    apply list_elem_of_fmap in Hi as (n & -> & Hn). apply Hf in Hn.
    apply list_elem_of_fmap in Hi' as (n' & Heq & Hn').
    apply list_elem_of_In, in_flat_map in Hn' as (y & Hy & Hn').
    apply list_elem_of_In in Hy, Hn'. apply Hf in Hn'.
    rewrite <- Hn, Heq, Hn'. apply list_elem_of_fmap. by exists y.
Qed.

Lemma sweep_notifications_NoDup now db :
  NoDup (id <$> tasks db) →
  NoDup (n_task <$> (check_deadlines zone_load strftime telegram now db).2).
Proof.
  intros Hnd. unfold check_deadlines. rewrite check_tasks_effect. simpl.
  apply (flat_map_notifications_NoDup _ (λ r : task * string, id r.1)).
  - intros r n. apply notifications_of_task_id.
  - intros r. apply notifications_of_length.
  - by apply fetched_rows_NoDup.
Qed.

Lemma apply_notifications_unchanged ns t :
  (∀ n, n ∈ ns → n_error n = None → n_task n ≠ id t) →
  apply_notifications ns t = t.
Proof.
  induction ns as [|a ns IH]; intros H; [done|].
  unfold apply_notifications. simpl. fold (apply_notifications ns).
  assert (Ha : apply_notification t a = t).
  { unfold apply_notification. destruct (n_error a) eqn:E; [done|].
    destruct (id t =? n_task a) eqn:Eid; [|done].
    apply Z.eqb_eq in Eid. exfalso. apply (H a); [left|done|done]. }
  rewrite Ha. apply IH. intros n Hn. apply H. by right.
Qed.

Lemma apply_notifications_sets ns t n :
  n ∈ ns → n_error n = None → id t = n_task n →
  flag (n_key n) (apply_notifications ns t) = true.
Proof.
  revert t. induction ns as [|a ns IH]; intros t Hin He Hid; [inversion Hin|].
  unfold apply_notifications. simpl. fold (apply_notifications ns).
  apply elem_of_cons in Hin as [<-|Hin].
  - apply apply_notifications_flag_mono. unfold apply_notification.
    rewrite He. rewrite (proj2 (Z.eqb_eq _ _) Hid). apply flag_set_flag_same.
  - apply IH; [done|done|]. by rewrite apply_notification_id.
Qed.

(** The rows of the table after a sweep. *)
Lemma sweep_tasks now db :
  tasks (check_deadlines zone_load strftime telegram now db).1
  = apply_notifications (check_deadlines zone_load strftime telegram now db).2
      <$> tasks db.
Proof. unfold check_deadlines. by rewrite check_tasks_effect. Qed.

Lemma sweep_notification_row now db n :
  n ∈ (check_deadlines zone_load strftime telegram now db).2 →
  ∃ r, r ∈ get_pending_tasks_with_due_dates db
       ∧ n ∈ notifications_of zone_load strftime telegram now r.
Proof.
  unfold check_deadlines. rewrite check_tasks_effect. simpl.
  intros (r & Hr & Hn)%list_elem_of_In%in_flat_map.
  exists r. by rewrite !list_elem_of_In.
Qed.

(** Which task and threshold a row is notified of does not depend on
    the gate. *)
Lemma send_and_mark_gate (telegram' : request → option exn) tid k cid msg db db' n :
  n ∈ (send_and_mark telegram tid k cid msg db).2 →
  ∃ n', n' ∈ (send_and_mark telegram' tid k cid msg db').2
        ∧ n_task n' = n_task n ∧ n_key n' = n_key n.
Proof.
  intros (Ht & Hk & _)%send_and_mark_notification.
  unfold send_and_mark. destruct (telegram' _); simpl;
    eexists; (split; [left|]); simpl; by rewrite Ht, Hk.
Qed.

Lemma notifications_of_gate (telegram' : request → option exn) now row n :
  n ∈ notifications_of zone_load strftime telegram now row →
  ∃ n', n' ∈ notifications_of zone_load strftime telegram' now row
        ∧ n_task n' = n_task n ∧ n_key n' = n_key n.
Proof.
  unfold notifications_of, check_task. destruct row as [t tz_str].
  destruct (due_date t) as [due|]; [|by intros H; inversion H].
  destruct (due - now <=? 0).
  - destruct (negb (flag Ifinal t)); [apply send_and_mark_gate|by intros H; inversion H].
  - destruct (first_due_interval _ _) as [[k [d desc]]|];
      [apply send_and_mark_gate|by intros H; inversion H].
Qed.

(** The threshold a later sweep selects for an unchanged row is the one
    selected before or a smaller one. *)
Lemma notifications_of_later (telegram' : request → option exn) now now' t tz tz' n n' :
  n ∈ notifications_of zone_load strftime telegram now (t, tz) →
  n' ∈ notifications_of zone_load strftime telegram' now' (t, tz') →
  now ≤ now' →
  offset (n_key n') ≤ offset (n_key n).
Proof.
  unfold notifications_of, check_task.
  destruct (due_date t) as [due|]; [|by intros H; inversion H].
  intros Hn Hn' Hle.
  destruct (due - now <=? 0) eqn:E1; destruct (due - now' <=? 0) eqn:E2.
  - destruct (negb (flag Ifinal t)); [|by inversion Hn].
    apply send_and_mark_notification in Hn as (_ & -> & _).
    by apply send_and_mark_notification in Hn' as (_ & -> & _).
  - apply Z.leb_le in E1. apply Z.leb_gt in E2. lia.
  - apply Z.leb_gt in E1.
    destruct (first_due_interval _ _) as [[k [d desc]]|] eqn:Hf; [|by inversion Hn].
    destruct (negb (flag Ifinal t)); [|by inversion Hn'].
    apply send_and_mark_notification in Hn as (_ & -> & _).
    apply send_and_mark_notification in Hn' as (_ & -> & _).
    apply first_due_interval_some in Hf as (_ & Hcov & _); [|done].
    rewrite offset_final. lia.
  - apply Z.leb_gt in E1. apply Z.leb_gt in E2.
    destruct (first_due_interval (due - now) t) as [[k [d desc]]|] eqn:Hf;
      [|by inversion Hn].
    destruct (first_due_interval (due - now') t) as [[k' [d' desc']]|] eqn:Hf';
      [|by inversion Hn'].
    apply send_and_mark_notification in Hn as (_ & -> & _).
    apply send_and_mark_notification in Hn' as (_ & -> & _).
    apply first_due_interval_some in Hf as (Hfl & Hcov & _); [|done].
    apply first_due_interval_some in Hf' as (_ & _ & Hmin); [|done].
    apply Hmin; [done|lia].
Qed.

(** A row that was notified is notified by every later sweep as long as
    its final notification has not fired. *)
Lemma notifications_of_later_exists (telegram' : request → option exn) now now' t tz tz' n :
  n ∈ notifications_of zone_load strftime telegram now (t, tz) →
  now ≤ now' → flag Ifinal t = false →
  ∃ n', n' ∈ notifications_of zone_load strftime telegram' now' (t, tz').
Proof.
  unfold notifications_of, check_task.
  destruct (due_date t) as [due|]; [|by intros H; inversion H].
  intros Hn Hle Hfinal. rewrite Hfinal. cbn [negb].
  assert (Hsend : ∀ tid k cid msg,
            ∃ n', n' ∈ (send_and_mark telegram' tid k cid msg empty_db).2).
  { intros tid k cid msg. unfold send_and_mark.
    destruct (telegram' _); eexists; left. }
  destruct (due - now' <=? 0) eqn:E2; [apply Hsend|].
  apply Z.leb_gt in E2.
  destruct (due - now <=? 0) eqn:E1; [apply Z.leb_le in E1; lia|].
  apply Z.leb_gt in E1.
  destruct (first_due_interval (due - now) t) as [[k [d desc]]|] eqn:Hf;
    [|by inversion Hn].
  apply first_due_interval_some in Hf as (Hfl & Hcov & _); [|done].
  destruct (first_due_interval (due - now') t) as [[k' [d' desc']]|] eqn:Hf';
    [apply Hsend|].
  pose proof (proj1 (first_due_interval_none (due - now') t E2) Hf' k ltac:(lia)) as Hk.
  rewrite Hk in Hfl. discriminate Hfl.
Qed.

(** C3 (as the code has it): in a sweep over a table with distinct ids,
    (1) the notification due for each fetched row is attempted whatever
    happens to the others, (2) a task whose notification failed to
    deliver keeps its row as it was, with the threshold's flag still
    unset, (3) so that the next sweep, whenever it runs and with any
    gate, decides for that task from the unchanged row: what it sends
    the task is what the row as it was gives at that time; (4) a sweep
    run next at the same instant attempts the same threshold again,
    (5) what a later sweep sends the task is the failed threshold or one
    of smaller offset in its place, and it does send the task a
    notification as long as the final one has not fired, and (6) a task
    whose notification was delivered has the threshold's flag set. *)
Theorem sweep_commits_only_delivered now db :
  NoDup (id <$> tasks db) →
  let db' := (check_deadlines zone_load strftime telegram now db).1 in
  let ns := (check_deadlines zone_load strftime telegram now db).2 in
  (∀ r n, r ∈ get_pending_tasks_with_due_dates db →
          n ∈ notifications_of zone_load strftime telegram now r → n ∈ ns)
  ∧ (∀ n t', n ∈ ns → n_error n ≠ None → t' ∈ tasks db' → id t' = n_task n →
             t' ∈ tasks db ∧ flag (n_key n) t' = false)
  ∧ (∀ n telegram' now' t, n ∈ ns → n_error n ≠ None → t ∈ tasks db → id t = n_task n →
        List.filter (λ n', n_task n' =? id t)
          (check_deadlines zone_load strftime telegram' now' db').2
        = notifications_of zone_load strftime telegram' now'
            (t, default "UTC" (users db !! user_id t)))
  ∧ (∀ n telegram', n ∈ ns → n_error n ≠ None →
        ∃ n', n' ∈ (check_deadlines zone_load strftime telegram' now db').2
              ∧ n_task n' = n_task n ∧ n_key n' = n_key n)
  ∧ (∀ n telegram' now', n ∈ ns → n_error n ≠ None → now ≤ now' →
        (∀ n', n' ∈ (check_deadlines zone_load strftime telegram' now' db').2 →
               n_task n' = n_task n → offset (n_key n') ≤ offset (n_key n))
        ∧ ((∀ t, t ∈ tasks db → id t = n_task n → flag Ifinal t = false) →
           ∃ n', n' ∈ (check_deadlines zone_load strftime telegram' now' db').2
                 ∧ n_task n' = n_task n))
  ∧ (∀ n t', n ∈ ns → n_error n = None → t' ∈ tasks db' → id t' = n_task n →
             flag (n_key n) t' = true).
Proof.
  intros Hnd. cbv zeta.
  assert (Hkeep : ∀ n t, n ∈ (check_deadlines zone_load strftime telegram now db).2 →
            n_error n ≠ None → t ∈ tasks db → id t = n_task n →
            apply_notifications (check_deadlines zone_load strftime telegram now db).2 t = t).
  { intros n t Hn Herr Ht Hid. apply apply_notifications_unchanged.
    intros n' Hn' Hok Heq.
    assert (n' = n) as ->; [|congruence].
    apply (NoDup_fmap_eq n_task _ _ _ (sweep_notifications_NoDup now db Hnd));
      [done|done|congruence]. }
  assert (Hnd' : NoDup (id <$> tasks (check_deadlines zone_load strftime telegram now db).1)).
  { rewrite sweep_tasks, <- list_fmap_compose.
    erewrite list_fmap_ext; [exact Hnd|].
    intros i t _. simpl. apply apply_notifications_id. }
  assert (Husers : users (check_deadlines zone_load strftime telegram now db).1 = users db).
  { unfold check_deadlines. by rewrite check_tasks_effect. }
  assert (Hrow : ∀ n t, n ∈ (check_deadlines zone_load strftime telegram now db).2 →
            n_error n ≠ None → t ∈ tasks db → id t = n_task n →
            t ∈ tasks (check_deadlines zone_load strftime telegram now db).1
            ∧ status t = "pending" ∧ due_date t ≠ None
            ∧ n ∈ notifications_of zone_load strftime telegram now
                    (t, default "UTC" (users db !! user_id t))).
  { intros n t Hn Herr Ht Hid.
    destruct (sweep_notification_row _ _ _ Hn) as ([t0 tz] & Hr & Hn0).
    apply fetched_row_elem in Hr as (Hin0 & Hs & Hd & Htz). simpl in Hin0, Hs, Hd, Htz.
    pose proof (notifications_of_task_id _ _ _ _ _ _ Hn0) as Hid0. simpl in Hid0.
    assert (t0 = t) as ->.
    { apply (NoDup_fmap_eq id (tasks db)); [done|done|done|congruence]. }
    subst tz. split; [|done].
    rewrite sweep_tasks. apply list_elem_of_fmap. exists t. split; [|done].
    symmetry. by apply (Hkeep n). }
  assert (Hnext : ∀ n telegram' now' t,
            n ∈ (check_deadlines zone_load strftime telegram now db).2 →
            n_error n ≠ None → t ∈ tasks db → id t = n_task n →
            List.filter (λ n', n_task n' =? id t)
              (check_deadlines zone_load strftime telegram' now'
                 (check_deadlines zone_load strftime telegram now db).1).2
            = notifications_of zone_load strftime telegram' now'
                (t, default "UTC" (users db !! user_id t))).
  { intros n telegram' now' t Hn Herr Ht Hid.
    destruct (Hrow n t Hn Herr Ht Hid) as (Ht' & Hs & Hd & _).
    rewrite <- Husers. by apply sweep_notifications_of_task. }
  split; [|split; [|split; [exact Hnext|split; [|split]]]].
  - intros r n Hr Hn. unfold check_deadlines. rewrite check_tasks_effect. simpl.
    apply list_elem_of_In, in_flat_map. exists r. by rewrite <- !list_elem_of_In.
  - intros n t' Hn Herr Ht' Hid.
    rewrite sweep_tasks in Ht'. apply list_elem_of_fmap in Ht' as (t & -> & Ht).
    rewrite apply_notifications_id in Hid.
    rewrite (Hkeep n t) by done. split; [done|].
    destruct (Hrow n t Hn Herr Ht Hid) as (_ & _ & _ & Hn0).
    by apply notifications_of_unfired in Hn0.
  - intros n telegram' Hn Herr.
    destruct (sweep_notification_row _ _ _ Hn) as ([t tz] & Hr & Hn0).
    destruct (notifications_of_gate telegram' _ _ _ Hn0) as (n' & Hn' & Hids).
    exists n'. split; [|done].
    unfold check_deadlines at 1. rewrite check_tasks_effect. cbn [snd].
    apply list_elem_of_In, in_flat_map. exists (t, tz).
    rewrite <- !list_elem_of_In. split; [|done].
    apply fetched_row_elem in Hr as (Hin & Hs & Hd & Htz). simpl in *.
    apply fetched_row_elem. simpl. rewrite sweep_tasks.
    split; [|split; [done|split; [done|]]].
    + apply list_elem_of_fmap. exists t. split; [|done].
      symmetry. apply (Hkeep n); [done|done|done|].
      apply notifications_of_task_id in Hn0. by simpl in Hn0.
    + unfold check_deadlines. by rewrite check_tasks_effect.
  - intros n telegram' now' Hn Herr Hle.
    destruct (sweep_notification_row _ _ _ Hn) as ([t tz] & Hr & Hn0).
    apply fetched_row_elem in Hr as (Hin & _). simpl in Hin.
    pose proof (notifications_of_task_id _ _ _ _ _ _ Hn0) as Hid. simpl in Hid.
    destruct (Hrow n t Hn Herr Hin (eq_sym Hid)) as (_ & _ & _ & Hn1).
    pose proof (Hnext n telegram' now' t Hn Herr Hin (eq_sym Hid)) as Hsame.
    split.
    + intros n' Hn' Hid'.
      assert (Hn2 : n' ∈ List.filter (λ n', n_task n' =? id t)
                      (check_deadlines zone_load strftime telegram' now'
                         (check_deadlines zone_load strftime telegram now db).1).2).
      { apply elem_of_filter_bool. split; [done|]. apply Z.eqb_eq. congruence. }
      rewrite Hsame in Hn2. by eapply notifications_of_later.
    + intros Hfinal.
      destruct (notifications_of_later_exists telegram' now now' t _
                  (default "UTC" (users db !! user_id t)) n Hn1 Hle
                  (Hfinal t Hin (eq_sym Hid))) as [n' Hn'].
      rewrite <- Hsame in Hn'. apply elem_of_filter_bool in Hn' as [Hn' Hid'].
      apply Z.eqb_eq in Hid'. exists n'. split; [done|congruence].
  - intros n t' Hn Hok Ht' Hid.
    rewrite sweep_tasks in Ht'. apply list_elem_of_fmap in Ht' as (t & -> & Ht).
    rewrite apply_notifications_id in Hid.
    by apply apply_notifications_sets.
Qed.

End SweepDelivery.

Lemma sweep_commits_only_delivered_witness :
  let telegram := fails_for 0 67890 in
  let db := sample_db [sample_task 1 (Some (minutes 20));
                       sample_task_in 555 2 (Some (minutes 20))] in
  let db' := (check_deadlines sample_zone_load sample_strftime telegram 0 db).1 in
  let ns := (check_deadlines sample_zone_load sample_strftime telegram 0 db).2 in
  (∀ r n, r ∈ get_pending_tasks_with_due_dates db →
          n ∈ notifications_of sample_zone_load sample_strftime telegram 0 r → n ∈ ns)
  ∧ (∀ n t', n ∈ ns → n_error n ≠ None → t' ∈ tasks db' → id t' = n_task n →
             t' ∈ tasks db ∧ flag (n_key n) t' = false)
  ∧ (∀ n telegram' now' t, n ∈ ns → n_error n ≠ None → t ∈ tasks db → id t = n_task n →
        List.filter (λ n', n_task n' =? id t)
          (check_deadlines sample_zone_load sample_strftime telegram' now' db').2
        = notifications_of sample_zone_load sample_strftime telegram' now'
            (t, default "UTC" (users db !! user_id t)))
  ∧ (∀ n telegram', n ∈ ns → n_error n ≠ None →
        ∃ n', n' ∈ (check_deadlines sample_zone_load sample_strftime telegram' 0 db').2
              ∧ n_task n' = n_task n ∧ n_key n' = n_key n)
  ∧ (∀ n telegram' now', n ∈ ns → n_error n ≠ None → 0 ≤ now' →
        (∀ n', n' ∈ (check_deadlines sample_zone_load sample_strftime telegram' now' db').2 →
               n_task n' = n_task n → offset (n_key n') ≤ offset (n_key n))
        ∧ ((∀ t, t ∈ tasks db → id t = n_task n → flag Ifinal t = false) →
           ∃ n', n' ∈ (check_deadlines sample_zone_load sample_strftime telegram' now' db').2
                 ∧ n_task n' = n_task n))
  ∧ (∀ n t', n ∈ ns → n_error n = None → t' ∈ tasks db' → id t' = n_task n →
             flag (n_key n) t' = true).
Proof.
  apply (sweep_commits_only_delivered sample_zone_load sample_strftime (fails_for 0 67890) 0
           (sample_db [sample_task 1 (Some (minutes 20));
                       sample_task_in 555 2 (Some (minutes 20))])).
  simpl. apply NoDup_cons. split; [|apply NoDup_singleton].
  intros H%list_elem_of_singleton. discriminate H.
Defined.

(** The sweep of the witness: the send for task 1 fails and the send for
    task 2 is delivered; the sweep goes on to task 2, whose flag is set,
    and leaves task 1 as it was. *)
Example sweep_failed_and_delivered :
  let db := sample_db [sample_task 1 (Some (minutes 20));
                       sample_task_in 555 2 (Some (minutes 20))] in
  let sweep := check_deadlines sample_zone_load sample_strftime (fails_for 0 67890) 0 db in
  ((λ n, (n_task n, n_key n, n_error n)) <$> sweep.2)
  = [(1, I1h, Some TelegramError); (2, I1h, None)]
  ∧ ((λ t, (id t, fired_thresholds t)) <$> tasks sweep.1) = [(1, []); (2, [I1h])].
Proof. by vm_compute. Qed.

(** C3 (as stated) fails: the send of the one-hour notification fails
    twenty minutes before the due date; the next sweep, fifteen minutes
    later, does not retry it: it sends the 15-minute notification. *)
Lemma failed_threshold_not_retried_next_sweep :
  ¬ (∀ (telegram telegram' : request → option exn) now now' db n,
       NoDup (id <$> tasks db) → now ≤ now' →
       n ∈ (check_deadlines sample_zone_load sample_strftime telegram now db).2 →
       n_error n ≠ None →
       ∃ n', n' ∈ (check_deadlines sample_zone_load sample_strftime telegram' now'
                     (check_deadlines sample_zone_load sample_strftime telegram now db).1).2
             ∧ n_task n' = n_task n ∧ n_key n' = n_key n).
Proof.
  intros H.
  specialize (H (fails_for 0 67890) delivers_all 0 (minutes 15)
                (sample_db [sample_task 1 (Some (minutes 20))])).
  destruct (head (check_deadlines sample_zone_load sample_strftime (fails_for 0 67890) 0
                    (sample_db [sample_task 1 (Some (minutes 20))])).2) as [n|] eqn:E;
    [|vm_compute in E; discriminate E].
  assert (Hk : n_key n = I1h) by (vm_compute in E; by injection E as <-).
  assert (He : n_error n ≠ None) by (vm_compute in E; by injection E as <-).
  apply head_elem in E.
  destruct (H n (NoDup_singleton _) ltac:(vm_compute; discriminate) E He)
    as (n' & Hn' & _ & Hk').
  vm_compute in Hn'. apply list_elem_of_singleton in Hn'. subst n'.
  rewrite Hk in Hk'. discriminate Hk'.
Qed.

(** ** Writes of the repository and the operations built from them *)

Lemma fmap_id_preserved (f : task → task) (l : list task) :
  (∀ t, id (f t) = id t) → id <$> (f <$> l) = id <$> l.
Proof.
  intros H. rewrite <- list_fmap_compose. apply list_fmap_ext. intros i t _. apply H.
Qed.

Lemma set_status_id s t : id (set_status s t) = id t.
Proof. reflexivity. Qed.

Lemma flag_set_status k s t : flag k (set_status s t) = flag k t.
Proof. by destruct k. Qed.

Lemma fired_thresholds_elem k t : k ∈ fired_thresholds t ↔ flag k t = true.
Proof.
  unfold fired_thresholds. rewrite elem_of_filter_bool. split; [by intros [_ ?]|].
  intros H. split; [|done]. unfold all_intervals.
  destruct k; repeat (first [left | right]).
Qed.

Lemma fired_thresholds_nil t : fired_thresholds t = [] ↔ ∀ k, flag k t = false.
Proof.
  split.
  - intros H k. destruct (flag k t) eqn:E; [|done].
    apply fired_thresholds_elem in E. rewrite H in E. inversion E.
  - intros H. apply filter_all_false. intros k _. apply H.
Qed.

Section Writes.

Variable zone_load : string → option exn.
Variable strftime : string → Z → option string.
Variable dateparser_parse : string → Z → string → result (option Z).

Lemma write_admits (G G' : Z → database → Prop) db db' :
  (∀ tid d, G tid d → G' tid d) →
  write zone_load G db db' → write zone_load G' db db'.
Proof. intros HG H. destruct H; try by constructor. constructor. by apply HG. Qed.

(** *** What each write does to the table *)

Lemma add_task_tasks now uid cid desc due db :
  ∃ row, tasks (add_task now uid cid desc due db).2 = (tasks db ++ [row])%list
         ∧ id row = seq db + 1 ∧ description row = desc ∧ due_date row = due
         ∧ status row = "pending" ∧ user_id row = uid ∧ chat_id row = cid
         ∧ fired_thresholds row = []
         ∧ seq (add_task now uid cid desc due db).2 = seq db + 1
         ∧ (add_task now uid cid desc due db).1 = seq db + 1.
Proof. eexists. simpl. repeat (split; [reflexivity|]). reflexivity. Qed.

Lemma set_user_timezone_tasks uid tz db :
  tasks (set_user_timezone zone_load uid tz db).2 = tasks db
  ∧ seq (set_user_timezone zone_load uid tz db).2 = seq db.
Proof. unfold set_user_timezone. by destruct (zone_load tz) as [[]|]. Qed.

Lemma mark_tasks tid k db :
  (mark_specific_notification_sent tid k db).2 = db
  ∨ ∃ i, column_of_key k = Some i
         ∧ (mark_specific_notification_sent tid k db).2
           = with_tasks db ((λ t, if id t =? tid then set_flag i t else t) <$> tasks db).
Proof.
  unfold mark_specific_notification_sent.
  destruct (column_of_key k) as [i|]; [right; by exists i|by left].
Qed.

(** *** Well-formedness is kept *)

Lemma wf_fmap (f : task → task) db :
  (∀ t, id (f t) = id t) → wf db → wf (with_tasks db (f <$> tasks db)).
Proof.
  intros Hf [Hnd Hle]. split; simpl.
  - by rewrite fmap_id_preserved.
  - intros t' (t & -> & Ht)%list_elem_of_fmap. rewrite Hf. by apply Hle.
Qed.

Lemma write_wf G db db' : write zone_load G db db' → wf db → wf db'.
Proof.
  intros Hw [Hnd Hle]. destruct Hw.
  - split; simpl.
    + rewrite fmap_app. apply NoDup_app. split; [done|]. split; [|apply NoDup_singleton].
      intros i (t & -> & Ht)%list_elem_of_fmap Hi. simpl in Hi.
      apply list_elem_of_singleton in Hi. apply Hle in Ht. lia.
    + intros t [Ht|Ht]%elem_of_app.
      * apply Hle in Ht. lia.
      * apply list_elem_of_singleton in Ht. subst t. simpl. lia.
  - apply (wf_fmap (λ t, if (id t =? tid) && (user_id t =? uid) then set_status st t else t));
      [|done].
    intros t. by destruct (_ && _).
  - split; simpl.
    + by apply NoDup_fmap_filter.
    + intros t [Ht _]%elem_of_filter_bool. by apply Hle.
  - destruct (set_user_timezone_tasks uid tz db) as [Ht Hs].
    split; [by rewrite Ht|]. intros t. rewrite Ht, Hs. apply Hle.
  - destruct (mark_tasks tid k db) as [->|(i & _ & ->)]; [done|].
    apply (wf_fmap (λ t, if id t =? tid then set_flag i t else t)); [|done].
    intros t. by destruct (_ =? _).
Qed.

(** *** No write clears a flag *)

Lemma flags_kept_refl db : flags_kept db db.
Proof. split; [lia|]. intros t Ht _. exists t. auto. Qed.

Lemma flags_kept_trans db1 db2 db3 :
  flags_kept db1 db2 → flags_kept db2 db3 → flags_kept db1 db3.
Proof.
  intros [Hs12 H12] [Hs23 H23]. split; [lia|].
  intros t3 Ht3 Hid.
  destruct (H23 t3 Ht3) as (t2 & Ht2 & Hid2 & Hfl2); [lia|].
  destruct (H12 t2 Ht2) as (t1 & Ht1 & Hid1 & Hfl1); [lia|].
  exists t1. split; [done|]. split; [congruence|]. auto.
Qed.

Lemma flags_kept_fmap (f : task → task) db :
  (∀ t, id (f t) = id t) → (∀ t k, flag k t = true → flag k (f t) = true) →
  flags_kept db (with_tasks db (f <$> tasks db)).
Proof.
  intros Hid Hfl. split; [simpl; lia|]. simpl.
  intros t' (t & -> & Ht)%list_elem_of_fmap _. exists t. split; [done|].
  split; [by rewrite Hid|]. apply Hfl.
Qed.

Lemma write_flags_kept G db db' : write zone_load G db db' → flags_kept db db'.
Proof.
  intros Hw. destruct Hw.
  - split; [simpl; lia|]. simpl. intros t' [Ht|Ht]%elem_of_app Hid.
    + exists t'. auto.
    + apply list_elem_of_singleton in Ht. subst t'. simpl in Hid. lia.
  - apply (flags_kept_fmap
             (λ t, if (id t =? tid) && (user_id t =? uid) then set_status st t else t)).
    + intros t. by destruct (_ && _).
    + intros t k. destruct (_ && _); [by rewrite flag_set_status|done].
  - split; [simpl; lia|]. simpl. intros t' [Ht _]%elem_of_filter_bool _.
    exists t'. auto.
  - destruct (set_user_timezone_tasks uid tz db) as [Ht Hs].
    split; [lia|]. rewrite Ht. intros t' Ht' _. exists t'. auto.
  - destruct (mark_tasks tid k db) as [->|(i & _ & ->)]; [apply flags_kept_refl|].
    apply (flags_kept_fmap (λ t, if id t =? tid then set_flag i t else t)).
    + intros t. by destruct (_ =? _).
    + intros t k'. destruct (_ =? _); [apply flag_set_flag_mono|done].
Qed.

(** *** Tasks without a due date stay unfired *)

Lemma write_none_unfired db db' :
  write zone_load has_due_date db db' → none_unfired db → none_unfired db'.
Proof.
  intros Hw Hinv. destruct Hw.
  - intros t [Ht|Ht]%elem_of_app Hd; [by apply Hinv|].
    apply list_elem_of_singleton in Ht. by subst t.
  - intros t' (t & -> & Ht)%list_elem_of_fmap Hd.
    destruct (_ && _); [|by apply Hinv].
    apply fired_thresholds_nil. intros k. rewrite flag_set_status.
    by apply fired_thresholds_nil, Hinv.
  - intros t [Ht _]%elem_of_filter_bool. by apply Hinv.
  - destruct (set_user_timezone_tasks uid tz db) as [Ht _].
    intros t. rewrite Ht. apply Hinv.
  - destruct (mark_tasks tid k db) as [->|(i & _ & ->)]; [done|].
    intros t' (t & -> & Ht)%list_elem_of_fmap Hd.
    destruct (id t =? tid) eqn:E; [|by apply Hinv].
    apply Z.eqb_eq in E. exfalso. by apply (H t Ht E).
Qed.

End Writes.

(** ** The database each handler leaves behind *)

Section Handlers.

Variable zone_load : string → option exn.
Variable strftime : string → Z → option string.
Variable dateparser_parse : string → Z → string → result (option Z).

Lemma add_task_logic_db now desc due uid cid db :
  (add_task_logic zone_load strftime dateparser_parse now desc due uid cid db).2 = db
  ∨ ∃ due_utc,
      (add_task_logic zone_load strftime dateparser_parse now desc due uid cid db).2
      = (add_task (now `div` 1000000) uid cid desc due_utc db).2.
Proof.
  unfold add_task_logic. destruct (_ || _); [by left|].
  destruct (get_user_tz zone_load uid db) as [user_tz|e]; [|by left].
  right. eexists. unfold add_task. cbv beta iota zeta.
  destruct (seq db + 1 =? 0); reflexivity.
Qed.

Lemma mark_task_done_logic_db tid uid db :
  (mark_task_done_logic tid uid db).2 = db
  ∨ (mark_task_done_logic tid uid db).2 = (update_task_status tid uid "done" db).2.
Proof.
  unfold mark_task_done_logic. destruct (_ || _); [by left|].
  destruct (get_task_by_id tid uid db) as [t|]; [|by left].
  destruct (String.eqb (status t) "done"); [by left|]. right.
  destruct (update_task_status _ _ _ _) as [[] db']; done.
Qed.

Lemma delete_task_logic_db tid uid db :
  (delete_task_logic tid uid db).2 = db
  ∨ (delete_task_logic tid uid db).2 = (delete_task tid uid db).2.
Proof.
  unfold delete_task_logic. destruct (_ || _); [by left|]. right.
  destruct (delete_task _ _ _) as [[] db']; done.
Qed.

Lemma list_tasks_command_db telegram uid cid db :
  final (list_tasks_command zone_load strftime telegram uid cid db) = db.
Proof.
  unfold list_tasks_command, reply.
  destruct (get_user_tz zone_load uid db) as [user_tz|e]; [|done].
  destruct (get_user_tasks uid "pending" db); [done|].
  destruct (telegram _); [done|].
  by destruct (list_tasks_loop _ _ _ _ _ _ _).
Qed.

Lemma done_task_command_db telegram uid args db :
  final (done_task_command telegram uid args db) = db
  ∨ ∃ tid, final (done_task_command telegram uid args db)
           = (update_task_status tid uid "done" db).2.
Proof.
  unfold done_task_command, reply. destruct args as [|a args]; [by left|].
  destruct (negb (isdigit a)); [by left|].
  destruct (int a) as [task_id|e]; [|by left].
  destruct (get_task_by_id task_id uid db) as [t|]; [|by left; destruct (overflows task_id)].
  destruct (String.eqb (status t) "done"); [by left|]. right. exists task_id.
  destruct (update_task_status _ _ _ _) as [[] db']; done.
Qed.

Lemma delete_task_command_db telegram uid args db :
  final (delete_task_command telegram uid args db) = db
  ∨ ∃ tid, final (delete_task_command telegram uid args db) = (delete_task tid uid db).2.
Proof.
  unfold delete_task_command, reply. destruct args as [|a args]; [by left|].
  destruct (negb (isdigit a)); [by left|].
  destruct (int a) as [task_id|e]; [|by left].
  destruct (get_task_by_id task_id uid db) as [t|]; [|by left; destruct (overflows task_id)].
  right. exists task_id.
  destruct (delete_task _ _ _) as [[] db']; done.
Qed.

Lemma button_callback_db telegram uid data db :
  final (button_callback zone_load strftime telegram uid data db) = db
  ∨ ∃ tid, final (button_callback zone_load strftime telegram uid data db)
           = (update_task_status tid uid "done" db).2
         ∨ final (button_callback zone_load strftime telegram uid data db)
           = (delete_task tid uid db).2.
Proof.
  unfold button_callback, edit_except_BadRequest, edit_except_Exception.
  destruct (get_user_tz zone_load uid db) as [user_tz|e]; [|by left].
  destruct data as [callback_data|]; [|by left].
  destruct (split_colon callback_data) as [[action task_id_str]|e]; [|by left].
  destruct (int task_id_str) as [task_id|e]; [|by left].
  destruct (get_task_by_id task_id uid db) as [t|]; [|by left; destruct (overflows task_id)].
  destruct (String.eqb action "done").
  - destruct (negb _); [by left|].
    destruct (String.eqb (status t) "done"); [by left|].
    right. exists task_id. left.
    destruct (update_task_status _ _ _ _) as [[] db']; done.
  - destruct (String.eqb action "delete"); [|by left].
    right. exists task_id. right.
    destruct (delete_task _ _ _) as [[] db']; done.
Qed.

(** Every action but the sweep leaves the database as it was or makes
    one write that is not a mark. *)
Lemma perform_write G a db :
  (∀ tg now, a ≠ Sweep tg now) →
  perform zone_load strftime dateparser_parse a db = db
  ∨ write zone_load G db (perform zone_load strftime dateparser_parse a db).
Proof.
  intros Hns. destruct a; simpl.
  - destruct (add_task_logic_db now desc due uid cid db) as [->|[d ->]];
      [by left|right; constructor].
  - by left.
  - destruct (mark_task_done_logic_db tid uid db) as [->| ->];
      [by left|right; constructor].
  - destruct (delete_task_logic_db tid uid db) as [->| ->];
      [by left|right; constructor].
  - left. apply list_tasks_command_db.
  - destruct (done_task_command_db telegram uid args db) as [->|[tid ->]];
      [by left|right; constructor].
  - destruct (delete_task_command_db telegram uid args db) as [->|[tid ->]];
      [by left|right; constructor].
  - destruct (button_callback_db telegram uid data db) as [->|[tid [-> | ->]]];
      [by left|right; constructor|right; constructor].
  - right. constructor.
  - by destruct (Hns telegram now_utc).
Qed.

(** *** The sweep *)

Lemma sweep_effect telegram now db :
  (check_deadlines zone_load strftime telegram now db).1
  = with_tasks db
      (apply_notifications (check_deadlines zone_load strftime telegram now db).2
         <$> tasks db).
Proof. unfold check_deadlines. by rewrite check_tasks_effect. Qed.

Lemma sweep_wf telegram now db :
  wf db → wf (check_deadlines zone_load strftime telegram now db).1.
Proof. intros H. rewrite sweep_effect. apply wf_fmap; [apply apply_notifications_id|done]. Qed.

Lemma sweep_flags_kept telegram now db :
  flags_kept db (check_deadlines zone_load strftime telegram now db).1.
Proof.
  rewrite sweep_effect. apply flags_kept_fmap.
  - apply apply_notifications_id.
  - intros t k. apply apply_notifications_flag_mono.
Qed.

(** A sweep notifies only tasks that have a due date. *)
Lemma sweep_notifies_due_tasks telegram now db n t :
  NoDup (id <$> tasks db) →
  n ∈ (check_deadlines zone_load strftime telegram now db).2 →
  t ∈ tasks db → id t = n_task n → due_date t ≠ None.
Proof.
  intros Hnd Hn Ht Hid.
  destruct (sweep_notification_row _ _ _ _ _ _ Hn) as ([t0 tz] & Hr & Hn0).
  apply fetched_row_elem in Hr as (Hin0 & _ & Hd & _). simpl in Hin0, Hd.
  apply notifications_of_task_id in Hn0. simpl in Hn0.
  assert (t0 = t) as <-; [|done].
  apply (NoDup_fmap_eq id (tasks db)); [done|done|done|congruence].
Qed.

Lemma sweep_none_unfired telegram now db :
  wf db → none_unfired db →
  none_unfired (check_deadlines zone_load strftime telegram now db).1.
Proof.
  intros [Hnd _] Hinv. rewrite sweep_effect. simpl.
  intros t' (t & -> & Ht)%list_elem_of_fmap Hd.
  rewrite apply_notifications_due_date in Hd.
  rewrite apply_notifications_unchanged; [by apply Hinv|].
  intros n Hn _ Heq.
  by apply (sweep_notifies_due_tasks telegram now db n t Hnd Hn Ht).
Qed.

End Handlers.

(** ** Invariants over sequences of operations *)

Section Histories.

Variable zone_load : string → option exn.
Variable strftime : string → Z → option string.
Variable dateparser_parse : string → Z → string → result (option Z).

Lemma is_sweep_dec (a : action) :
  (∃ tg now, a = Sweep tg now) ∨ (∀ tg now, a ≠ Sweep tg now).
Proof. destruct a; try (by right); left; eauto. Qed.

Lemma perform_wf a db :
  wf db → wf (perform zone_load strftime dateparser_parse a db).
Proof.
  intros Hwf. destruct (is_sweep_dec a) as [(tg & now & ->)|Hns].
  - by apply sweep_wf.
  - destruct (perform_write zone_load strftime dateparser_parse any_task a db Hns)
      as [->|Hw]; [done|]. by apply (write_wf _ _ _ _ Hw).
Qed.

Lemma perform_flags_kept a db :
  flags_kept db (perform zone_load strftime dateparser_parse a db).
Proof.
  destruct (is_sweep_dec a) as [(tg & now & ->)|Hns].
  - apply sweep_flags_kept.
  - destruct (perform_write zone_load strftime dateparser_parse any_task a db Hns)
      as [->|Hw]; [apply flags_kept_refl|]. by apply (write_flags_kept _ _ _ _ Hw).
Qed.

Lemma perform_none_unfired a db :
  wf db → none_unfired db →
  none_unfired (perform zone_load strftime dateparser_parse a db).
Proof.
  intros Hwf Hinv. destruct (is_sweep_dec a) as [(tg & now & ->)|Hns].
  - by apply sweep_none_unfired.
  - destruct (perform_write zone_load strftime dateparser_parse has_due_date a db Hns)
      as [->|Hw]; [done|]. by apply (write_none_unfired _ _ _ Hw).
Qed.

Lemma perform_all_invariant acts db :
  wf db → none_unfired db →
  wf (perform_all zone_load strftime dateparser_parse acts db)
  ∧ none_unfired (perform_all zone_load strftime dateparser_parse acts db).
Proof.
  revert db. induction acts as [|a acts IH]; intros db Hwf Hinv; [done|].
  simpl. apply IH; [by apply perform_wf|by apply perform_none_unfired].
Qed.

Lemma empty_db_wf : wf empty_db.
Proof. split; [constructor|]. intros t Ht. inversion Ht. Qed.

Lemma empty_db_none_unfired : none_unfired empty_db.
Proof. intros t Ht. inversion Ht. Qed.

(** C7: in every database the program reaches from the empty one by its
    actions (the four task operations from conversation, commands and
    buttons, timezone changes and sweeps with any delivery outcomes), a
    task without a due date has no fired threshold, and a sweep run from
    there sends no notification for such a task. *)
Theorem no_due_date_never_fired (acts : list action) :
  let db := perform_all zone_load strftime dateparser_parse acts empty_db in
  (∀ t, t ∈ tasks db → due_date t = None → fired_thresholds t = [])
  ∧ (∀ telegram now n t,
       n ∈ (check_deadlines zone_load strftime telegram now db).2 →
       t ∈ tasks db → id t = n_task n → due_date t ≠ None).
Proof.
  destruct (perform_all_invariant acts empty_db empty_db_wf empty_db_none_unfired)
    as [[Hnd Hle] Hinv].
  simpl. split; [exact Hinv|].
  intros telegram now n t. by apply sweep_notifies_due_tasks.
Qed.

Lemma execute_wf o db :
  wf db → wf (execute zone_load strftime dateparser_parse o db).
Proof.
  destruct o as [a|tid k]; simpl; [apply perform_wf|].
  apply (write_wf zone_load any_task). by constructor.
Qed.

Lemma execute_flags_kept o db :
  flags_kept db (execute zone_load strftime dateparser_parse o db).
Proof.
  destruct o as [a|tid k]; simpl; [apply perform_flags_kept|].
  apply (write_flags_kept zone_load any_task). by constructor.
Qed.

Lemma execute_all_wf ops db :
  wf db → wf (execute_all zone_load strftime dateparser_parse ops db).
Proof.
  revert db. induction ops as [|o ops IH]; intros db Hwf; [done|].
  simpl. apply IH. by apply execute_wf.
Qed.

Lemma execute_all_flags_kept ops db :
  flags_kept db (execute_all zone_load strftime dateparser_parse ops db).
Proof.
  revert db. induction ops as [|o ops IH]; intros db; [apply flags_kept_refl|].
  simpl. eapply flags_kept_trans; [apply execute_flags_kept|apply IH].
Qed.

(** C8: from a well-formed database, after any sequence of operations
    (actions of users, sweeps, and direct marks of a threshold), a task
    that is still in the table has every threshold fired that it had
    fired before. *)
Theorem fired_thresholds_monotone (ops : list operation) (db : database) (t t' : task) :
  wf db → t ∈ tasks db →
  t' ∈ tasks (execute_all zone_load strftime dateparser_parse ops db) →
  id t' = id t →
  fired_thresholds t ⊆ fired_thresholds t'.
Proof.
  intros [Hnd Hle] Ht Ht' Hid.
  destruct (execute_all_flags_kept ops db) as [_ Hkept].
  destruct (Hkept t' Ht') as (t0 & Ht0 & Hid0 & Hfl).
  { rewrite Hid. by apply Hle. }
  assert (t0 = t) as ->.
  { apply (NoDup_fmap_eq id (tasks db)); [done|done|done|congruence]. }
  intros k. rewrite !fired_thresholds_elem. apply Hfl.
Qed.

End Histories.

Lemma fired_thresholds_monotone_witness :
  let t := set_flag I1h (sample_task 1 (Some (minutes 10))) in
  let ops := [Act (Sweep delivers_all 0); Act (Complete 1 12345);
              MarkThresholdFired 1 "notified_24h"] in
  let t' := set_flag I24h (set_status "done" (set_flag I15m t)) in
  fired_thresholds t ⊆ fired_thresholds t'.
Proof.
  apply (fired_thresholds_monotone sample_zone_load sample_strftime sample_parse
           [Act (Sweep delivers_all 0); Act (Complete 1 12345);
            MarkThresholdFired 1 "notified_24h"]
           (sample_db [set_flag I1h (sample_task 1 (Some (minutes 10)))])).
  - split; [apply NoDup_singleton|].
    intros t ->%list_elem_of_singleton. simpl. lia.
  - left.
  - vm_compute. left.
  - reflexivity.
Defined.

(** ** Listing the tasks of a user *)

Lemma order_by_listed_before (a b : task) :
  order_by a b = true ↔ listed_before a b.
Proof.
  unfold order_by, listed_before, due_date_compare.
  destruct (due_date a) as [x|], (due_date b) as [y|]; try done.
  - destruct (Z.compare_spec x y) as [->|Hlt|Hgt].
    + rewrite Z.leb_le. split; [by right|]. intros [?|[_ ?]]; [lia|done].
    + split; [by left|done].
    + split; [done|]. intros [?|[? _]]; lia.
  - apply Z.leb_le.
Qed.

Lemma listed_before_total (a b : task) : listed_before a b ∨ listed_before b a.
Proof.
  unfold listed_before. destruct (due_date a) as [x|], (due_date b) as [y|]; try tauto; lia.
Qed.

Lemma listed_before_trans (a b c : task) :
  listed_before a b → listed_before b c → listed_before a c.
Proof.
  unfold listed_before.
  destruct (due_date a) as [x|], (due_date b) as [y|], (due_date c) as [z|];
    try tauto; lia.
Qed.

#[local] Instance order_by_Total : Total (λ a b : task, Is_true (order_by a b)).
Proof.
  intros a b. rewrite !Is_true_true, !order_by_listed_before. apply listed_before_total.
Qed.

#[local] Instance order_by_Transitive : Transitive (λ a b : task, Is_true (order_by a b)).
Proof.
  intros a b c. rewrite !Is_true_true, !order_by_listed_before. apply listed_before_trans.
Qed.

Lemma StronglySorted_weaken {A} (R R' : A → A → Prop) (l : list A) :
  (∀ x y, R x y → R' x y) → StronglySorted R l → StronglySorted R' l.
Proof.
  intros HR. induction 1 as [|a l Hs IH Hall]; constructor; [done|].
  eapply Forall_impl; [exact Hall|]. intros y. apply HR.
Qed.

(** C5 (as the code has it): for every owner and status, the rows
    [get_user_tasks] returns are exactly the tasks of that owner with
    that status, each once, ordered with the tasks that have no due date
    first, then by increasing due date, and by [added_date] between equal
    due dates. *)
Theorem get_user_tasks_sorted (uid : Z) (st : string) (db : database) :
  get_user_tasks uid st db
    ≡ₚ List.filter (λ t, (user_id t =? uid) && String.eqb (status t) st) (tasks db)
  ∧ (∀ t, t ∈ get_user_tasks uid st db ↔ t ∈ tasks db ∧ user_id t = uid ∧ status t = st)
  ∧ StronglySorted listed_before (get_user_tasks uid st db).
Proof.
  assert (Hperm : get_user_tasks uid st db
    ≡ₚ List.filter (λ t, (user_id t =? uid) && String.eqb (status t) st) (tasks db))
    by apply merge_sort_Permutation.
  split; [done|]. split.
  - intros t. rewrite Hperm, elem_of_filter_bool, andb_true_iff, Z.eqb_eq, String.eqb_eq.
    tauto.
  - apply (StronglySorted_weaken (λ a b : task, Is_true (order_by a b))).
    + intros x y. rewrite Is_true_true. apply order_by_listed_before.
    + apply StronglySorted_merge_sort; apply _.
Qed.

(** C5 (as stated) fails: a task without a due date is listed before a
    task with one, not after it. *)
Lemma no_due_date_is_listed_first :
  ¬ (∀ (uid : Z) (st : string) (db : database),
       Sorted listed_before_nulls_last (get_user_tasks uid st db)).
Proof.
  intros H.
  specialize (H 12345 "pending" (sample_db [sample_task 1 (Some 5); sample_task 2 None])).
  assert (E : get_user_tasks 12345 "pending"
                (sample_db [sample_task 1 (Some 5); sample_task 2 None])
              = [sample_task 2 None; sample_task 1 (Some 5)]) by reflexivity.
  rewrite E in H. apply Sorted_inv in H as [_ Hhd].
  apply HdRel_inv in Hhd. exact Hhd.
Qed.

(** The conversational list shows every row of [get_user_tasks], one
    line each, in one message. *)
Lemma list_tasks_logic_all zone_load strftime uid st db user_tz :
  uid ≠ 0 → get_user_tz zone_load uid db = Ok user_tz →
  get_user_tasks uid st db ≠ [] →
  list_tasks_logic zone_load strftime uid st db
  = Ok ("OK. Your " +:+ st +:+ " tasks (Times in " +:+ zone_key user_tz +:+ "):"
        +:+ nl +:+ nl
        +:+ String.concat nl
              ((λ t, replace "*" "" (replace "📌 " "- "
                                      (build_task_message_text strftime t user_tz)))
                 <$> get_user_tasks uid st db)).
Proof.
  intros Huid Htz Hne. unfold list_tasks_logic. rewrite Htz.
  destruct (uid =? 0) eqn:E; [apply Z.eqb_eq in E; done|].
  by destruct (get_user_tasks uid st db).
Qed.

(** ** Adding a task *)

Section Add.

Variable zone_load : string → option exn.
Variable strftime : string → Z → option string.
Variable dateparser_parse : string → Z → string → result (option Z).

(** C6 (as the code has it): [add_task_logic] aborts without a state
    change, with the message "Error: Missing context.", when the user id
    or the chat id is missing; it does not look at the description: with
    both ids present and the user's timezone resolved, an empty
    description is stored as a new pending task like any other, and a
    reply is returned. *)
Theorem add_task_logic_validation (now : Z) (desc : string) (due : option string)
    (uid cid : Z) (db : database) :
  (uid = 0 ∨ cid = 0 →
     add_task_logic zone_load strftime dateparser_parse now desc due uid cid db
     = (Ok "Error: Missing context.", db))
  ∧ (∀ user_tz, uid ≠ 0 → cid ≠ 0 → get_user_tz zone_load uid db = Ok user_tz →
       ∃ row msg,
         add_task_logic zone_load strftime dateparser_parse now "" due uid cid db
         = (Ok msg, with_tasks {| tasks := tasks db; users := users db; seq := seq db + 1 |}
                      (tasks db ++ [row]))
         ∧ id row = seq db + 1 ∧ description row = "" ∧ status row = "pending"
         ∧ user_id row = uid ∧ chat_id row = cid ∧ fired_thresholds row = []).
Proof.
  split.
  - intros H. unfold add_task_logic.
    assert ((uid =? 0) || (cid =? 0) = true) as ->; [|done].
    apply orb_true_iff. rewrite !Z.eqb_eq. done.
  - intros user_tz Hu Hc Htz. unfold add_task_logic. rewrite Htz.
    assert ((uid =? 0) || (cid =? 0) = false) as ->.
    { apply orb_false_iff. by rewrite !Z.eqb_neq. }
    unfold add_task. cbv beta iota zeta.
    eexists. destruct (seq db + 1 =? 0); eexists; (split; [reflexivity|]); done.
Qed.

End Add.

(** C6 (as stated) fails: an Add with an empty description stores a
    task. *)
Lemma add_task_logic_stores_empty_description :
  ¬ (∀ (now : Z) (due : option string) (uid cid : Z) (db : database),
       (add_task_logic sample_zone_load sample_strftime sample_parse
          now "" due uid cid db).2 = db).
Proof.
  intros H. specialize (H 0 None 12345 67890 empty_db).
  apply (f_equal tasks) in H. vm_compute in H. discriminate H.
Qed.

(** ** Resolving the timezone of a user *)

Section Timezone.

Variable zone_load : string → option exn.

(** The module constant [UTC = zoneinfo.ZoneInfo("UTC")] was built when
    bot.py was imported. *)
Hypothesis UTC_loads : zone_load "UTC" = None.

Lemma get_user_tz_missing uid db :
  users db !! uid = None → get_user_tz zone_load uid db = Ok UTC.
Proof.
  intros H. unfold get_user_tz, get_user_timezone_str, ZoneInfo.
  by rewrite H, UTC_loads.
Qed.

Lemma get_user_tz_unrecognized uid db tz :
  users db !! uid = Some tz → zone_load tz = Some ZoneInfoNotFoundError →
  get_user_tz zone_load uid db = Ok UTC.
Proof.
  intros H Hz. unfold get_user_tz, get_user_timezone_str, ZoneInfo.
  by rewrite H, Hz, UTC_loads.
Qed.

Lemma get_user_tz_recognized uid db tz :
  users db !! uid = Some tz → zone_load tz = None →
  get_user_tz zone_load uid db = Ok {| zone_key := tz |}.
Proof.
  intros H Hz. unfold get_user_tz, get_user_timezone_str, ZoneInfo.
  by rewrite H, Hz, Hz.
Qed.

(** A row the program never writes: when the stored timezone is a key
    for which [zoneinfo.ZoneInfo] raises something other than
    [ZoneInfoNotFoundError] (a malformed key such as the empty string
    raises [ValueError]), the exception leaves [get_user_timezone_str]
    and, the call standing outside the [try] of [get_user_tz], reaches
    the caller.  [set_user_timezone] stores only keys that load. *)
Lemma get_user_tz_raises_on_malformed_key uid db tz e :
  users db !! uid = Some tz → zone_load tz = Some e → e ≠ ZoneInfoNotFoundError →
  get_user_tz zone_load uid db = Raise e.
Proof.
  intros H Hz He. unfold get_user_tz, get_user_timezone_str.
  rewrite H, Hz. by destruct e.
Qed.

(** The sweep reads the same stored string and falls back to UTC for
    every exception. *)
Lemma sweep_zone_fallback tz_str :
  zone_load tz_str ≠ None →
  match ZoneInfo zone_load tz_str with Ok z => z | Raise _ => UTC end = UTC.
Proof. unfold ZoneInfo. by destruct (zone_load tz_str). Qed.

End Timezone.

Example get_user_tz_malformed_row :
  get_user_tz sample_zone_load 12345 (sample_db_in_zone "" []) = Raise ValueError.
Proof. reflexivity. Qed.

(** ** Completing a task: the button and the command *)

Section Completion.

Variable zone_load : string → option exn.
Variable strftime : string → Z → option string.
Variable telegram : request → option exn.

(** Neither [tid] nor [uid] is a name [button_callback] can read. *)
Lemma tid_uid_unbound :
  name_bound button_callback_locals "tid" = false
  ∧ name_bound button_callback_locals "uid" = false.
Proof. split; reflexivity. Qed.

Lemma update_task_status_done tid uid db t' :
  t' ∈ tasks (update_task_status tid uid "done" db).2 →
  id t' = tid → user_id t' = uid → status t' = "done".
Proof.
  simpl. intros (t & -> & Ht)%list_elem_of_fmap.
  destruct ((id t =? tid) && (user_id t =? uid)) eqn:E; [done|].
  intros <- <-. by rewrite !Z.eqb_refl in E.
Qed.

Lemma get_task_by_id_some tid uid db t :
  get_task_by_id tid uid db = Some t → t ∈ tasks db ∧ id t = tid ∧ user_id t = uid.
Proof.
  unfold get_task_by_id. intros [Hin Hp]%find_some.
  apply andb_true_iff in Hp as [H1 H2]. apply Z.eqb_eq in H1, H2.
  by rewrite list_elem_of_In.
Qed.

(** C2, where the code departs from it: for a task the clicking user
    owns, the "done" callback stops at the first log statement of its
    branch with [NameError]: nothing is written and no message is edited,
    so a pending task stays pending.  The command, given the same id,
    writes the status: every task of that id and owner is done
    afterwards. *)
Theorem button_done_raises_NameError (uid tid : Z) (data s : string) (t : task)
    (user_tz : zone) (db : database) :
  get_user_tz zone_load uid db = Ok user_tz →
  split_colon data = Ok ("done", s) → int s = Ok tid → isdigit s = true →
  get_task_by_id tid uid db = Some t → status t = "pending" →
  let r := button_callback zone_load strftime telegram uid (Some data) db in
  let r' := done_task_command telegram uid [s] db in
  (raised r = Some NameError ∧ final r = db ∧ calls r = [(answer, telegram answer)])
  ∧ (final r' = (update_task_status tid uid "done" db).2
     ∧ ∀ t', t' ∈ tasks (final r') → id t' = tid → user_id t' = uid → status t' = "done").
Proof.
  intros Htz Hsplit Hint Hdig Hget Hst. cbv zeta. split.
  - unfold button_callback. rewrite Htz, Hsplit, Hint, Hget.
    destruct tid_uid_unbound as [-> _]. done.
  - assert (E : final (done_task_command telegram uid [s] db)
                = (update_task_status tid uid "done" db).2).
    { unfold done_task_command. rewrite Hdig, Hint, Hget, Hst. simpl.
      by destruct (bool_decide _). }
    split; [done|]. rewrite E. apply update_task_status_done.
Qed.

End Completion.

Lemma button_done_raises_NameError_witness :
  let db := sample_db [sample_task 1 (Some (minutes 10))] in
  let r := button_callback sample_zone_load sample_strftime delivers_all 12345
             (Some "done:1") db in
  let r' := done_task_command delivers_all 12345 ["1"] db in
  (raised r = Some NameError ∧ final r = db
   ∧ calls r = [(answer, delivers_all answer)])
  ∧ (final r' = (update_task_status 1 12345 "done" db).2
     ∧ ∀ t', t' ∈ tasks (final r') → id t' = 1 → user_id t' = 12345 → status t' = "done").
Proof.
  apply (button_done_raises_NameError sample_zone_load sample_strftime delivers_all
           12345 1 "done:1" "1" (sample_task 1 (Some (minutes 10))) UTC
           (sample_db [sample_task 1 (Some (minutes 10))])); reflexivity.
Defined.

(** ** The /list command *)

Section ListCommand.

Variable zone_load : string → option exn.
Variable strftime : string → Z → option string.
Variable telegram : request → option exn.

(** When every send of a task message returns, the loop sends the first
    [max_show - shown] tasks and then the notice. *)
Lemma list_tasks_loop_delivered user_tz cid (max_show shown : nat) (ts : list task) :
  let message t := send_message cid (build_task_message_text strftime t user_tz) (Some (id t)) in
  let notice := send_message cid
                  ("..." +:+ nl +:+ "(First " +:+ pretty (Z.of_nat max_show) +:+ ")") None in
  (∀ t, t ∈ take (max_show - shown) ts → telegram (message t) = None) →
  (max_show - shown < length ts)%nat →
  list_tasks_loop strftime telegram user_tz cid max_show shown ts
  = (telegram notice,
     (((λ t, (message t, None)) <$> take (max_show - shown) ts)
        ++ [(notice, telegram notice)])%list).
Proof.
  cbv zeta. revert shown. induction ts as [|t ts IH]; intros shown Hok Hlen.
  { simpl in Hlen. lia. }
  cbn [list_tasks_loop]. destruct (max_show <=? shown)%nat eqn:E.
  - apply Nat.leb_le in E. by replace (max_show - shown)%nat with 0%nat by lia.
  - apply Nat.leb_gt in E.
    replace (max_show - shown)%nat with (S (max_show - S shown)) in * by lia.
    cbn [take] in *. rewrite (Hok t) by left.
    rewrite IH; [done| |simpl in Hlen; lia].
    intros t' Ht'. apply Hok. by right.
Qed.

(** The task messages that were delivered never exceed what is left of
    [max_show]. *)
Lemma list_tasks_loop_bound user_tz cid (max_show shown : nat) (ts : list task) :
  (shown ≤ max_show)%nat →
  (length (List.filter delivered_task_message
             (list_tasks_loop strftime telegram user_tz cid max_show shown ts).2)
   + shown ≤ max_show)%nat.
Proof.
  revert shown. induction ts as [|t ts IH]; intros shown Hle; [simpl; lia|].
  cbn [list_tasks_loop]. destruct (max_show <=? shown)%nat eqn:E; [simpl; lia|].
  apply Nat.leb_gt in E. destruct (telegram _) as [err|].
  - specialize (IH shown Hle). destruct (list_tasks_loop _ _ _ _ _ _ _). simpl in *. lia.
  - specialize (IH (S shown) E). destruct (list_tasks_loop _ _ _ _ _ _ _). simpl in *. lia.
Qed.

(** C10 (as the code has it): for an owner with more than 20 pending
    tasks whose timezone resolves, (1) /list delivers at most 20 task
    messages, whatever the sends do; (2) when the header and the task
    messages of the first 20 tasks are delivered, its calls are the
    header, the task messages of the first 20 tasks with their keyboards,
    and the truncation notice; (3) the conversational list returns one
    message with a line for every pending task. *)
Theorem list_tasks_command_first_twenty (uid cid : Z) (db : database) (user_tz : zone) :
  let ts := get_user_tasks uid "pending" db in
  let r := list_tasks_command zone_load strftime telegram uid cid db in
  let header := reply_text ("Pending tasks (Times: " +:+ zone_key user_tz +:+ "):") in
  let message t := send_message cid (build_task_message_text strftime t user_tz) (Some (id t)) in
  let notice := send_message cid ("..." +:+ nl +:+ "(First 20)") None in
  get_user_tz zone_load uid db = Ok user_tz → (20 < length ts)%nat →
  (length (List.filter delivered_task_message (calls r)) ≤ 20)%nat
  ∧ (telegram header = None →
     (∀ t, t ∈ take 20 ts → telegram (message t) = None) →
     raised r = telegram notice
     ∧ calls r = ((header, None) :: ((λ t, (message t, None)) <$> take 20 ts)
                    ++ [(notice, telegram notice)])%list)
  ∧ (uid ≠ 0 →
     list_tasks_logic zone_load strftime uid "pending" db
     = Ok ("OK. Your pending tasks (Times in " +:+ zone_key user_tz +:+ "):"
           +:+ nl +:+ nl
           +:+ String.concat nl
                 ((λ t, replace "*" "" (replace "📌 " "- "
                                         (build_task_message_text strftime t user_tz)))
                    <$> ts))).
Proof.
  cbv zeta. intros Htz Hlen. split; [|split].
  - unfold list_tasks_command, reply. rewrite Htz.
    destruct (get_user_tasks uid "pending" db) as [|t ts] eqn:Ets; [simpl in Hlen; lia|].
    destruct (telegram _); [simpl; lia|].
    pose proof (list_tasks_loop_bound user_tz cid 20 0 (t :: ts) ltac:(lia)) as Hb.
    destruct (list_tasks_loop _ _ _ _ _ _ _). simpl in *. lia.
  - intros Hhead Hall. unfold list_tasks_command. rewrite Htz.
    destruct (get_user_tasks uid "pending" db) as [|t ts] eqn:Ets; [simpl in Hlen; lia|].
    rewrite Hhead.
    rewrite (list_tasks_loop_delivered user_tz cid 20 0 (t :: ts)); [done|done|].
    simpl in *. lia.
  - intros Huid. rewrite (list_tasks_logic_all _ _ _ _ _ _ Huid Htz); [done|].
    intros E. rewrite E in Hlen. simpl in Hlen. lia.
Qed.

End ListCommand.

Lemma list_tasks_command_first_twenty_witness :
  let db := sample_db (many_tasks 21) in
  let ts := get_user_tasks 12345 "pending" db in
  let r := list_tasks_command sample_zone_load sample_strftime delivers_all 12345 67890 db in
  let header := reply_text "Pending tasks (Times: UTC):" in
  let message t := send_message 67890 (build_task_message_text sample_strftime t UTC) (Some (id t)) in
  let notice := send_message 67890 ("..." +:+ nl +:+ "(First 20)") None in
  (length (List.filter delivered_task_message (calls r)) ≤ 20)%nat
  ∧ (delivers_all header = None →
     (∀ t, t ∈ take 20 ts → delivers_all (message t) = None) →
     raised r = delivers_all notice
     ∧ calls r = ((header, None) :: ((λ t, (message t, None)) <$> take 20 ts)
                    ++ [(notice, delivers_all notice)])%list)
  ∧ (12345 ≠ 0 →
     list_tasks_logic sample_zone_load sample_strftime 12345 "pending" db
     = Ok ("OK. Your pending tasks (Times in UTC):"
           +:+ nl +:+ nl
           +:+ String.concat nl
                 ((λ t, replace "*" "" (replace "📌 " "- "
                                         (build_task_message_text sample_strftime t UTC)))
                    <$> ts))).
Proof.
  apply (list_tasks_command_first_twenty sample_zone_load sample_strftime delivers_all
           12345 67890 (sample_db (many_tasks 21)) UTC).
  - reflexivity.
  - vm_compute. lia.
Defined.

(** C10 (as stated) fails: with 21 pending tasks, when the send of the
    first task message fails, the command goes on to send a message for
    each of the tasks 2 to 21 and ends without a truncation notice. *)
Lemma list_command_ends_without_notice :
  ¬ (∀ (telegram : request → option exn) (uid cid : Z) (db : database),
       (20 < length (get_user_tasks uid "pending" db))%nat →
       existsb truncation_notice
         (calls (list_tasks_command sample_zone_load sample_strftime telegram uid cid db))
       = true).
Proof.
  intros H.
  specialize (H (fails_for 1 0) 12345 67890 (sample_db (many_tasks 21))).
  assert (Hlen : (20 < length (get_user_tasks 12345 "pending"
                                 (sample_db (many_tasks 21))))%nat)
    by (vm_compute; lia).
  apply H in Hlen. vm_compute in Hlen. discriminate Hlen.
Qed.

(** ** Scenarios *)

(** The case of [test_check_deadlines]: ten minutes before the due date
    the reminder goes to the task's chat and names the 15-minute
    interval. *)
Example reminder_ten_minutes_before :
  (λ n, (n_chat n, n_key n,
         String.prefix ("⏳ Reminder: Due in less than 15 minutes!" +:+ nl +:+ "ID:1"
                        +:+ nl +:+ "Desc:Submit thesis") (n_text n)))
    <$> (check_deadlines sample_zone_load sample_strftime delivers_all 0
           (sample_db_in_zone "Asia/Tashkent" [sample_task 1 (Some (minutes 10))])).2
  = [(67890, I15m, true)].
Proof. by vm_compute. Qed.

(** A task two hours past its due date is sent the final notification
    once: a second sweep at the same instant sends nothing and writes
    nothing. *)
Example overdue_notified_once :
  let first := check_deadlines sample_zone_load sample_strftime delivers_all (hours 2)
                 (sample_db [sample_task 1 (Some 0)]) in
  let second := check_deadlines sample_zone_load sample_strftime delivers_all (hours 2)
                  first.1 in
  n_key <$> first.2 = [Ifinal] ∧ second.2 = [] ∧ second.1 = first.1.
Proof. by vm_compute. Qed.

(** Before the due date, a second sweep at the same instant goes on to
    the next interval. *)
Example second_sweep_next_interval :
  let first := check_deadlines sample_zone_load sample_strftime delivers_all 0
                 (sample_db [sample_task 1 (Some (minutes 10))]) in
  let second := check_deadlines sample_zone_load sample_strftime delivers_all 0 first.1 in
  n_key <$> first.2 = [I15m] ∧ n_key <$> second.2 = [I1h].
Proof. by vm_compute. Qed.

(** Completing a task that is done writes nothing. *)
Example complete_done_task :
  mark_task_done_logic 1 12345 (sample_db [set_status "done" (sample_task 1 None)])
  = ("Task 1 ('Submit thesis') is already done.",
     sample_db [set_status "done" (sample_task 1 None)]).
Proof. by vm_compute. Qed.

(** Deleting a task the owner does not have writes nothing. *)
Example delete_absent_task :
  delete_task_logic 9 12345 (sample_db [sample_task 1 None])
  = ("❌ Failed to delete task 9. It might have already been deleted.",
     sample_db [sample_task 1 None]).
Proof. by vm_compute. Qed.

(** The case of [test_button_callback_invalid_data]: a callback without
    data edits the message to the error text. *)
Example button_without_data :
  calls (button_callback sample_zone_load sample_strftime delivers_all 12345 None
           (sample_db [sample_task 1 None]))
  = [(answer, None); (edit_message_text "⚠️ Error.", None)].
Proof. by vm_compute. Qed.

(** * Further properties of the repository *)

Lemma find_app_none {A} (p : A → bool) (l1 l2 : list A) :
  (∀ x, x ∈ l1 → p x = false) → List.find p (l1 ++ l2) = List.find p l2.
Proof.
  induction l1 as [|a l1 IH]; intros H; [done|]. simpl.
  rewrite H by left. apply IH. intros x Hx. apply H. by right.
Qed.

Lemma find_app_some {A} (p : A → bool) (l1 l2 : list A) (x : A) :
  List.find p l1 = Some x → List.find p (l1 ++ l2) = Some x.
Proof.
  induction l1 as [|a l1 IH]; [done|]. simpl. destruct (p a); [done|apply IH].
Qed.

Lemma find_app_l {A} (p : A → bool) (l1 l2 : list A) :
  (∀ x, x ∈ l2 → p x = false) → List.find p (l1 ++ l2) = List.find p l1.
Proof.
  intros H. induction l1 as [|a l1 IH]; simpl.
  - by apply find_none_all.
  - by destruct (p a).
Qed.

Lemma find_fmap_preserved {A} (p : A → bool) (f : A → A) (l : list A) :
  (∀ x, p (f x) = p x) → List.find p (f <$> l) = f <$> List.find p l.
Proof.
  intros H. induction l as [|a l IH]; [done|].
  rewrite fmap_cons. simpl. rewrite H. by destruct (p a).
Qed.

Lemma find_filter_other {A} (p q : A → bool) (l : list A) :
  (∀ x, p x = true → q x = true) → List.find p (List.filter q l) = List.find p l.
Proof.
  intros H. induction l as [|a l IH]; [done|]. simpl.
  destruct (q a) eqn:Hq; simpl.
  - by destruct (p a).
  - destruct (p a) eqn:Hp; [|done]. apply H in Hp. congruence.
Qed.

(** X1: adding a task to a well-formed table hands out an id no row
    has, stores the row as given (pending, no threshold fired) where its
    owner finds it and no other user does, leaves every other lookup as
    it was, and keeps the table well-formed. *)
Theorem add_task_then_get (now uid cid : Z) (desc : string) (due : option Z)
    (db : database) :
  wf db →
  let r := add_task now uid cid desc due db in
  (∀ t, t ∈ tasks db → id t ≠ r.1)
  ∧ (∃ row, get_task_by_id r.1 uid r.2 = Some row
            ∧ id row = r.1 ∧ user_id row = uid ∧ chat_id row = cid
            ∧ description row = desc ∧ due_date row = due
            ∧ status row = "pending" ∧ added_date row = now
            ∧ fired_thresholds row = [])
  ∧ (∀ uid', uid' ≠ uid → get_task_by_id r.1 uid' r.2 = None)
  ∧ (∀ tid uid', tid ≠ r.1 → get_task_by_id tid uid' r.2 = get_task_by_id tid uid' db)
  ∧ wf r.2.
Proof.
  intros [Hnd Hle]. cbv zeta.
  assert (Hfresh : ∀ t, t ∈ tasks db → id t ≠ seq db + 1).
  { intros t Ht. apply Hle in Ht. lia. }
  split; [exact Hfresh|]. split; [|split; [|split]].
  - eexists. split.
    { unfold get_task_by_id. cbn [add_task fst snd tasks].
      rewrite find_app_none.
      + simpl. by rewrite !Z.eqb_refl.
      + intros t Ht. apply andb_false_iff. left. apply Z.eqb_neq. by apply Hfresh. }
    repeat (split; [reflexivity|]). reflexivity.
  - intros uid' Hne. unfold get_task_by_id. cbn [add_task fst snd tasks].
    rewrite find_app_none.
    + simpl. rewrite Z.eqb_refl. simpl.
      destruct (uid =? uid') eqn:E; [apply Z.eqb_eq in E; congruence|done].
    + intros t Ht. apply andb_false_iff. left. apply Z.eqb_neq. by apply Hfresh.
  - intros tid uid' Hne. unfold get_task_by_id. cbn [add_task fst snd tasks].
    apply find_app_l. intros t ->%list_elem_of_singleton. simpl.
    apply andb_false_iff. left. apply Z.eqb_neq. cbn [add_task fst] in Hne. congruence.
  - apply (write_wf (λ _, None) any_task db); [constructor|done].
Qed.

Lemma with_tasks_unchanged db l : l = tasks db → with_tasks db l = db.
Proof. intros ->. apply with_tasks_same. Qed.

(** X2: [delete_task] returns true exactly when the user owns a task of
    that id; afterwards the user does not find the id any more, the rows
    left are exactly the rows that are not that user's task of that id,
    and when it returns false nothing has changed.  The users table and
    the id counter are never touched. *)
Theorem delete_task_removes_own_task (tid uid : Z) (db : database) :
  let r := delete_task tid uid db in
  (r.1 = true ↔ ∃ t, t ∈ tasks db ∧ id t = tid ∧ user_id t = uid)
  ∧ get_task_by_id tid uid r.2 = None
  ∧ (∀ t, t ∈ tasks r.2 ↔ t ∈ tasks db ∧ ¬ (id t = tid ∧ user_id t = uid))
  ∧ (r.1 = false → r.2 = db)
  ∧ users r.2 = users db ∧ seq r.2 = seq db.
Proof.
  cbv zeta. unfold delete_task. cbn [fst snd].
  assert (Hmatch : ∀ t, (id t =? tid) && (user_id t =? uid) = true
                        ↔ id t = tid ∧ user_id t = uid).
  { intros t. by rewrite andb_true_iff, !Z.eqb_eq. }
  split; [|split; [|split; [|split]]].
  - rewrite rowcount_positive. split; intros (t & Ht & Hp); exists t;
      (split; [done|]); by apply Hmatch.
  - unfold get_task_by_id. simpl. apply find_none_all.
    intros t [_ Ht]%elem_of_filter_bool. by apply negb_true_iff.
  - intros t. simpl. rewrite elem_of_filter_bool, negb_true_iff.
    rewrite <- Hmatch. destruct (_ && _); split; intros [H1 H2]; done.
  - intros Hfalse. apply with_tasks_unchanged. apply filter_all_true.
    intros t Ht. apply negb_true_iff.
    destruct (_ && _) eqn:E; [|done].
    exfalso. apply not_true_iff_false in Hfalse.
    apply Hfalse, rowcount_positive. by exists t.
  - done.
Qed.

(** X3: [update_task_status] returns true exactly when the user owns a
    task of that id; the user then finds that task with the new status
    and everything else as before; every other lookup gives what it gave
    before; and when it returns false nothing has changed. *)
Theorem update_task_status_sets_own_status (tid uid : Z) (st : string) (db : database) :
  let r := update_task_status tid uid st db in
  (r.1 = true ↔ ∃ t, t ∈ tasks db ∧ id t = tid ∧ user_id t = uid)
  ∧ get_task_by_id tid uid r.2 = set_status st <$> get_task_by_id tid uid db
  ∧ (∀ tid' uid', ¬ (tid' = tid ∧ uid' = uid) →
       get_task_by_id tid' uid' r.2 = get_task_by_id tid' uid' db)
  ∧ (r.1 = false → r.2 = db)
  ∧ users r.2 = users db ∧ seq r.2 = seq db.
Proof.
  cbv zeta. unfold update_task_status. cbn [fst snd].
  assert (Hmatch : ∀ t, (id t =? tid) && (user_id t =? uid) = true
                        ↔ id t = tid ∧ user_id t = uid).
  { intros t. by rewrite andb_true_iff, !Z.eqb_eq. }
  split; [|split; [|split; [|split]]].
  - rewrite rowcount_positive. split; intros (t & Ht & Hp); exists t;
      (split; [done|]); by apply Hmatch.
  - unfold get_task_by_id. simpl.
    assert (E : ∀ l : list task,
               List.find (λ t, (id t =? tid) && (user_id t =? uid))
                 ((λ t, if (id t =? tid) && (user_id t =? uid) then set_status st t else t)
                    <$> l)
               = set_status st <$> List.find (λ t, (id t =? tid) && (user_id t =? uid)) l).
    { induction l as [|a l IH]; [done|]. rewrite fmap_cons. simpl.
      destruct ((id a =? tid) && (user_id a =? uid)) eqn:Ea; simpl; rewrite Ea; [done|].
      apply IH. }
    apply E.
  - intros tid' uid' Hne. unfold get_task_by_id. simpl.
    induction (tasks db) as [|a l IH]; [done|]. rewrite fmap_cons. simpl.
    destruct ((id a =? tid) && (user_id a =? uid)) eqn:Ea; simpl.
    + apply Hmatch in Ea as [<- <-].
      assert ((id a =? tid') && (user_id a =? uid') = false) as ->; [|apply IH].
      apply andb_false_iff. rewrite !Z.eqb_neq.
      destruct (decide (id a = tid')); [right|left; done].
      intros ?. apply Hne. done.
    + destruct ((id a =? tid') && (user_id a =? uid')); [done|apply IH].
  - intros Hfalse. apply with_tasks_unchanged. apply fmap_unchanged.
    intros t Ht. destruct (_ && _) eqn:E; [|done].
    exfalso. apply not_true_iff_false in Hfalse.
    apply Hfalse, rowcount_positive. by exists t.
  - done.
Qed.

Lemma flag_set_flag (k k' : interval) (t : task) :
  flag k' (set_flag k t) = flag k' t || interval_eqb k' k.
Proof. destruct k, k'; simpl; by rewrite ?orb_false_r, ?orb_true_r. Qed.

Lemma filter_length_fmap {A} (p : A → bool) (f : A → A) (l : list A) :
  (∀ x, p (f x) = p x) → length (List.filter p (f <$> l)) = length (List.filter p l).
Proof.
  intros H. induction l as [|a l IH]; [done|]. rewrite fmap_cons. simpl.
  rewrite H. destruct (p a); simpl; by rewrite IH.
Qed.

Lemma later_task_refl t : later_task t t.
Proof. unfold later_task. tauto. Qed.

(** X4: [mark_specific_notification_sent] with a name that is no
    threshold column returns false and changes nothing; with a threshold
    column it changes, row by row, nothing but that one flag of the rows
    with that id, which it sets; marking again changes nothing more. *)
Theorem mark_sets_one_flag (tid : Z) (s : string) (db : database) :
  let r := mark_specific_notification_sent tid s db in
  match column_of_key s with
  | None => r = (false, db)
  | Some k =>
      Forall2 (λ t t', later_task t t' ∧ status t' = status t
                       ∧ ∀ k', flag k' t' = flag k' t || (interval_eqb k' k && (id t =? tid)))
        (tasks db) (tasks r.2)
      ∧ users r.2 = users db ∧ seq r.2 = seq db
      ∧ mark_specific_notification_sent tid s r.2 = r
  end.
Proof.
  cbv zeta. unfold mark_specific_notification_sent.
  destruct (column_of_key s) as [k|] eqn:Hk; [|done]. cbn [fst snd].
  split; [|split; [done|split; [done|]]].
  - simpl. apply Forall2_fmap_r, Forall_Forall2_diag, Forall_forall.
    intros t _. unfold compose. cbv beta. destruct (id t =? tid).
    + split; [unfold later_task; simpl; auto 10|]. split; [done|].
      intros k'. by rewrite flag_set_flag, andb_true_r.
    + split; [apply later_task_refl|]. split; [done|].
      intros k'. by rewrite andb_false_r, orb_false_r.
  - f_equal.
    + unfold rowcount. cbn [tasks with_tasks].
      rewrite filter_length_fmap; [done|]. intros t.
      replace (id (if id t =? tid then set_flag k t else t)) with (id t);
        [done|by destruct (id t =? tid)].
    + unfold with_tasks. simpl. f_equal.
      rewrite <- list_fmap_compose. apply list_fmap_ext. intros i t _. simpl.
      destruct (id t =? tid) eqn:E; simpl; rewrite E; [|done].
      destruct t, k; reflexivity.
Qed.

Section TimezoneStore.

Variable zone_load : string → option exn.

(** X5: [set_user_timezone] stores a zone that loads, and
    [get_user_timezone_str] then returns it for that user and what it
    returned before for every other user; a zone that does not load is
    not stored: the database is as before and the result is not true.
    The tasks are never touched. *)
Theorem set_user_timezone_then_get (uid : Z) (tz : string) (db : database) :
  let r := set_user_timezone zone_load uid tz db in
  (zone_load tz = None →
     r.1 = Ok true
     ∧ get_user_timezone_str zone_load uid r.2 = Ok tz
     ∧ ∀ uid', uid' ≠ uid →
         get_user_timezone_str zone_load uid' r.2 = get_user_timezone_str zone_load uid' db)
  ∧ (zone_load tz ≠ None → r.1 ≠ Ok true ∧ r.2 = db)
  ∧ tasks r.2 = tasks db ∧ seq r.2 = seq db.
Proof.
  cbv zeta. unfold set_user_timezone. split; [|split].
  - intros Hz. rewrite Hz. cbn [fst snd]. split; [done|]. split.
    + unfold get_user_timezone_str. simpl. by rewrite lookup_insert_eq, Hz.
    + intros uid' Hne. unfold get_user_timezone_str. simpl.
      by rewrite lookup_insert_ne.
  - intros Hz. destruct (zone_load tz) as [[]|]; done.
  - by destruct (zone_load tz) as [[]|].
Qed.

End TimezoneStore.

Lemma add_task_then_get_witness :
  let db := sample_db [sample_task 1 None] in
  let r := add_task 7 12345 67890 "Buy milk" (Some 5) db in
  (∀ t, t ∈ tasks db → id t ≠ r.1)
  ∧ (∃ row, get_task_by_id r.1 12345 r.2 = Some row
            ∧ id row = r.1 ∧ user_id row = 12345 ∧ chat_id row = 67890
            ∧ description row = "Buy milk" ∧ due_date row = Some 5
            ∧ status row = "pending" ∧ added_date row = 7
            ∧ fired_thresholds row = [])
  ∧ (∀ uid', uid' ≠ 12345 → get_task_by_id r.1 uid' r.2 = None)
  ∧ (∀ tid uid', tid ≠ r.1 → get_task_by_id tid uid' r.2 = get_task_by_id tid uid' db)
  ∧ wf r.2.
Proof.
  apply (add_task_then_get 7 12345 67890 "Buy milk" (Some 5)
           (sample_db [sample_task 1 None])).
  split; [apply NoDup_singleton|].
  intros t ->%list_elem_of_singleton. simpl. lia.
Defined.

(** * Further properties of the deadline sweep *)

Section SweepMore.

Variable zone_load : string → option exn.
Variable strftime : string → Z → option string.
Variable dateparser_parse : string → Z → string → result (option Z).

Lemma notifications_of_timing telegram now t tz_str n due :
  n ∈ notifications_of zone_load strftime telegram now (t, tz_str) →
  due_date t = Some due →
  (n_key n = Ifinal ∧ due ≤ now)
  ∨ (n_key n ≠ Ifinal ∧ 0 < due - now ≤ offset (n_key n)).
Proof.
  unfold notifications_of, check_task. intros Hn Hdue. rewrite Hdue in Hn.
  destruct (due - now <=? 0) eqn:Hle.
  - apply Z.leb_le in Hle.
    destruct (negb (flag Ifinal t)); [|by inversion Hn].
    apply send_and_mark_notification in Hn as (_ & -> & _). left. split; [done|lia].
  - apply Z.leb_gt in Hle.
    destruct (first_due_interval _ _) as [[k [d desc]]|] eqn:Hfind; [|by inversion Hn].
    apply send_and_mark_notification in Hn as (_ & -> & _). right.
    apply find_some in Hfind as [Hin Hp]. simpl in Hp.
    apply list_elem_of_In, listed_interval_offset in Hin as [Hk ->].
    apply andb_true_iff in Hp as [Hp _]. apply Z.leb_le in Hp. done.
Qed.

(** The task a notification of a sweep was computed from. *)
Lemma sweep_notification_task (telegram : request → option exn) (now : Z)
    (db : database) (n : notification) :
  n ∈ (check_deadlines zone_load strftime telegram now db).2 →
  ∃ t due,
    t ∈ tasks db ∧ id t = n_task n ∧ status t = "pending" ∧ due_date t = Some due
    ∧ n_chat n = chat_id t ∧ flag (n_key n) t = false
    ∧ ((n_key n = Ifinal ∧ due ≤ now)
       ∨ (n_key n ≠ Ifinal ∧ 0 < due - now ≤ offset (n_key n)))
    ∧ n_error n = telegram (send_message (chat_id t) (n_text n) None).
Proof.
  intros Hn.
  destruct (sweep_notification_row _ _ _ _ _ _ Hn) as ([t tz] & Hr & Hn0).
  apply fetched_row_elem in Hr as (Hin & Hs & Hd & _). simpl in Hin, Hs, Hd.
  destruct (due_date t) as [due|] eqn:Hdue; [|done].
  exists t, due.
  destruct (notifications_of_row _ _ _ _ _ _ _ Hn0) as (Hid & Hc & He & _).
  split; [done|]. split; [done|]. split; [done|]. split; [done|]. split; [done|].
  split; [by eapply notifications_of_unfired|].
  split; [by eapply notifications_of_timing|]. by rewrite <- Hc.
Qed.

(** X7: every notification a sweep sends is for a task of the table
    that is pending and has a due date, goes to that task's chat, and is
    for a threshold not yet fired for it; it is the final notification
    exactly when the due date has been reached, and otherwise is for a
    threshold whose offset covers the time that remains. *)
Theorem sweep_notification_sound (telegram : request → option exn) (now : Z)
    (db : database) (n : notification) :
  n ∈ (check_deadlines zone_load strftime telegram now db).2 →
  ∃ t due,
    t ∈ tasks db ∧ id t = n_task n ∧ status t = "pending" ∧ due_date t = Some due
    ∧ n_chat n = chat_id t ∧ flag (n_key n) t = false
    ∧ ((n_key n = Ifinal ∧ due ≤ now)
       ∨ (n_key n ≠ Ifinal ∧ 0 < due - now ≤ offset (n_key n)))
    ∧ n_error n = telegram (send_message (chat_id t) (n_text n) None).
Proof.
  intros Hn. destruct (sweep_notification_task telegram now db n Hn) as (t & due & H).
  eauto.
Qed.

Lemma apply_notification_later t n : later_task t (apply_notification t n)
                                     ∧ status (apply_notification t n) = status t.
Proof.
  unfold apply_notification, later_task.
  destruct (n_error n), (id t =? n_task n); simpl; auto 10.
Qed.

Lemma later_task_trans t1 t2 t3 : later_task t1 t2 → later_task t2 t3 → later_task t1 t3.
Proof.
  unfold later_task. intros (?&?&?&?&?&?&H12) (?&?&?&?&?&?&H23).
  repeat (split; [congruence|]).
  destruct H23 as [H23|H23]; [|by right]. destruct H12 as [H12|H12]; [left|right]; congruence.
Qed.

Lemma apply_notifications_later ns t :
  later_task t (apply_notifications ns t) ∧ status (apply_notifications ns t) = status t.
Proof.
  revert t. induction ns as [|n ns IH]; intros t.
  - split; [apply later_task_refl|done].
  - unfold apply_notifications. simpl. fold (apply_notifications ns).
    destruct (IH (apply_notification t n)) as [H1 H2].
    destruct (apply_notification_later t n) as [H3 H4].
    split; [by eapply later_task_trans|exact (eq_trans H2 H4)].
Qed.

(** X8: a sweep writes flags and nothing else: the users table and the
    id counter are as before, and row by row the table has the same
    tasks with the same owner, chat, description, due date and status,
    each with at least the flags it had. *)
Theorem sweep_writes_flags_only (telegram : request → option exn) (now : Z)
    (db : database) :
  let db' := (check_deadlines zone_load strftime telegram now db).1 in
  users db' = users db ∧ seq db' = seq db
  ∧ Forall2 (λ t t', later_task t t' ∧ status t' = status t
                     ∧ ∀ k, flag k t = true → flag k t' = true)
      (tasks db) (tasks db').
Proof.
  cbv zeta. rewrite sweep_effect. split; [done|]. split; [done|]. simpl.
  apply Forall2_fmap_r, Forall_Forall2_diag, Forall_forall. intros t _.
  unfold compose. cbv beta.
  destruct (apply_notifications_later
              (check_deadlines zone_load strftime telegram now db).2 t) as [H1 H2].
  split; [done|]. split; [done|]. intros k. apply apply_notifications_flag_mono.
Qed.

(** *** Writes on behalf of a user *)

Lemma perform_user_write a uid db :
  actor a = Some uid →
  perform zone_load strftime dateparser_parse a db = db
  ∨ user_write zone_load uid db (perform zone_load strftime dateparser_parse a db).
Proof.
  destruct a; simpl; intros [= <-].
  - destruct (add_task_logic_db zone_load strftime dateparser_parse now desc due uid0 cid db)
      as [->|[d ->]]; [by left|right; constructor].
  - by left.
  - destruct (mark_task_done_logic_db tid uid0 db) as [->| ->];
      [by left|right; constructor].
  - destruct (delete_task_logic_db tid uid0 db) as [->| ->];
      [by left|right; constructor].
  - left. apply list_tasks_command_db.
  - destruct (done_task_command_db telegram uid0 args db) as [->|[tid ->]];
      [by left|right; constructor].
  - destruct (delete_task_command_db telegram uid0 args db) as [->|[tid ->]];
      [by left|right; constructor].
  - destruct (button_callback_db zone_load strftime telegram uid0 data db)
      as [->|[tid [-> | ->]]]; [by left|right; constructor|right; constructor].
  - right. constructor.
Qed.

Lemma actor_sweep a : actor a = None → ∃ tg now, a = Sweep tg now.
Proof. destruct a; try done. eauto. Qed.

Lemma tasks_kept_refl db : tasks_kept db db.
Proof. split; [lia|]. intros t Ht _. exists t. split; [done|apply later_task_refl]. Qed.

Lemma tasks_kept_trans db1 db2 db3 :
  tasks_kept db1 db2 → tasks_kept db2 db3 → tasks_kept db1 db3.
Proof.
  intros [Hs12 H12] [Hs23 H23]. split; [lia|].
  intros t3 Ht3 Hid.
  destruct (H23 t3 Ht3) as (t2 & Ht2 & Hl2); [lia|].
  destruct (H12 t2 Ht2) as (t1 & Ht1 & Hl1).
  { destruct Hl2 as (E & _). by rewrite <- E. }
  exists t1. split; [done|]. by eapply later_task_trans.
Qed.

Lemma tasks_kept_fmap (f : task → task) db :
  (∀ t, later_task t (f t)) → tasks_kept db (with_tasks db (f <$> tasks db)).
Proof.
  intros Hf. split; [simpl; lia|]. simpl.
  intros t' (t & -> & Ht)%list_elem_of_fmap _. exists t. auto.
Qed.

Lemma user_write_tasks_kept uid db db' :
  user_write zone_load uid db db' → tasks_kept db db'.
Proof.
  intros Hw. destruct Hw.
  - split; [simpl; lia|]. simpl. intros t' [Ht|Ht]%elem_of_app Hid.
    + exists t'. split; [done|apply later_task_refl].
    + apply list_elem_of_singleton in Ht. subst t'. simpl in Hid. lia.
  - apply (tasks_kept_fmap
             (λ t, if (id t =? tid) && (user_id t =? uid) then set_status "done" t else t)).
    intros t. destruct (_ && _); [|apply later_task_refl].
    unfold later_task. simpl. auto 10.
  - split; [simpl; lia|]. simpl. intros t' [Ht _]%elem_of_filter_bool _.
    exists t'. split; [done|apply later_task_refl].
  - destruct (set_user_timezone_tasks zone_load uid tz db) as [Ht Hs].
    split; [lia|]. rewrite Ht. intros t' Ht' _. exists t'.
    split; [done|apply later_task_refl].
Qed.

Lemma perform_tasks_kept a db :
  tasks_kept db (perform zone_load strftime dateparser_parse a db).
Proof.
  destruct (actor a) as [uid|] eqn:Ha.
  - destruct (perform_user_write a uid db Ha) as [->|Hw];
      [apply tasks_kept_refl|by eapply user_write_tasks_kept].
  - apply actor_sweep in Ha as (tg & now & ->). simpl. rewrite sweep_effect.
    apply tasks_kept_fmap. intros t. apply apply_notifications_later.
Qed.

Lemma execute_tasks_kept o db :
  tasks_kept db (execute zone_load strftime dateparser_parse o db).
Proof.
  destruct o as [a|tid k]; simpl; [apply perform_tasks_kept|].
  destruct (mark_tasks tid k db) as [->|(i & _ & ->)]; [apply tasks_kept_refl|].
  apply (tasks_kept_fmap (λ t, if id t =? tid then set_flag i t else t)).
  intros t. destruct (id t =? tid); [|apply later_task_refl].
  unfold later_task. simpl. auto 10.
Qed.

Lemma execute_all_tasks_kept ops db :
  tasks_kept db (execute_all zone_load strftime dateparser_parse ops db).
Proof.
  revert db. induction ops as [|o ops IH]; intros db; [apply tasks_kept_refl|].
  simpl. eapply tasks_kept_trans; [apply execute_tasks_kept|apply IH].
Qed.

(** X9: over any sequence of operations from a well-formed database, a
    task that is still in the table has the owner, chat, description,
    due date and creation time it was created with, and its status is
    what it was or has become done: nothing edits a task, and done is
    never taken back. *)
Theorem task_data_never_changes (ops : list operation) (db : database) (t t' : task) :
  wf db → t ∈ tasks db →
  t' ∈ tasks (execute_all zone_load strftime dateparser_parse ops db) →
  id t' = id t →
  user_id t' = user_id t ∧ chat_id t' = chat_id t ∧ description t' = description t
  ∧ due_date t' = due_date t ∧ added_date t' = added_date t
  ∧ (status t' = status t ∨ status t' = "done").
Proof.
  intros [Hnd Hle] Ht Ht' Hid.
  destruct (execute_all_tasks_kept ops db) as [_ Hkept].
  destruct (Hkept t' Ht') as (t0 & Ht0 & Hl).
  { rewrite Hid. by apply Hle. }
  assert (t0 = t) as ->.
  { apply (NoDup_fmap_eq id (tasks db)); [done|done|done|].
    destruct Hl as (E & _). congruence. }
  unfold later_task in Hl. tauto.
Qed.

(** *** The sweep with handlers running during its sends *)

Lemma check_tasks_during_sends telegram now rows during db :
  (check_tasks_during zone_load strftime dateparser_parse telegram now rows during db).2
  = flat_map (notifications_of zone_load strftime telegram now) rows.
Proof.
  revert during db. induction rows as [|row rows IH]; intros during db; [done|].
  cbn [check_tasks_during flat_map].
  pose proof (notifications_of_length zone_load strftime telegram now row) as Hlen.
  destruct (notifications_of zone_load strftime telegram now row) as [|n l]; [apply IH|].
  destruct l as [|n' l]; [|simpl in Hlen; lia].
  specialize (IH (tl during) (commit_during zone_load strftime dateparser_parse
                                (hd [] during) n db)).
  destruct (check_tasks_during _ _ _ _ _ _ _ _) as [db2 ns]. simpl in *. by rewrite IH.
Qed.

(** What a sweep sends is decided when it fetches: the handlers that run
    during its sends change nothing of it. *)
Lemma check_deadlines_during_sends telegram now during db :
  (check_deadlines_during zone_load strftime dateparser_parse telegram now during db).2
  = (check_deadlines zone_load strftime telegram now db).2.
Proof.
  unfold check_deadlines_during, check_deadlines.
  by rewrite check_tasks_during_sends, check_tasks_effect.
Qed.

Lemma execute_all_app ops1 ops2 db :
  execute_all zone_load strftime dateparser_parse (ops1 ++ ops2) db
  = execute_all zone_load strftime dateparser_parse ops2
      (execute_all zone_load strftime dateparser_parse ops1 db).
Proof. apply fold_left_app. Qed.

(** The table such a sweep leaves is one that operations reach: those
    of the handlers and the marks of the sweep. *)
Lemma check_tasks_during_operations telegram now rows during db :
  ∃ ops, (check_tasks_during zone_load strftime dateparser_parse telegram now rows during db).1
         = execute_all zone_load strftime dateparser_parse ops db.
Proof.
  revert during db. induction rows as [|row rows IH]; intros during db; [by exists []|].
  cbn [check_tasks_during].
  destruct (notifications_of zone_load strftime telegram now row) as [|n l]; [apply IH|].
  destruct (IH (tl during) (commit_during zone_load strftime dateparser_parse
                              (hd [] during) n db)) as [ops Hops].
  destruct (check_tasks_during _ _ _ _ _ _ _ _) as [db2 ns]. simpl in *. subst db2.
  unfold commit_during. destruct (n_error n).
  - exists (hd [] during ++ ops)%list. by rewrite execute_all_app.
  - exists ((hd [] during ++ [MarkThresholdFired (n_task n) (key (n_key n))]) ++ ops)%list.
    by rewrite !execute_all_app.
Qed.

Lemma check_task_commit telegram now row db :
  check_task zone_load strftime telegram now row db
  = match notifications_of zone_load strftime telegram now row with
    | [] => (db, [])
    | n :: _ => (commit_during zone_load strftime dateparser_parse [] n db, [n])
    end.
Proof.
  unfold notifications_of, check_task, commit_during. destruct row as [t tz_str].
  destruct (due_date t) as [due|]; [|done].
  destruct (due - now <=? 0).
  - destruct (negb (flag Ifinal t)); [|done].
    unfold send_and_mark. by destruct (telegram _).
  - destruct (first_due_interval _ _) as [[k [d desc]]|]; [|done].
    unfold send_and_mark. by destruct (telegram _).
Qed.

(** With no handler running during its sends, the sweep is
    [check_deadlines]. *)
Lemma check_deadlines_during_nil telegram now db :
  check_deadlines_during zone_load strftime dateparser_parse telegram now [] db
  = check_deadlines zone_load strftime telegram now db.
Proof.
  unfold check_deadlines_during, check_deadlines.
  generalize (get_pending_tasks_with_due_dates db). intros rows.
  revert db. induction rows as [|row rows IH]; intros db; [done|].
  cbn [check_tasks_during check_tasks]. rewrite check_task_commit.
  pose proof (notifications_of_length zone_load strftime telegram now row) as Hlen.
  destruct (notifications_of zone_load strftime telegram now row) as [|n l].
  - rewrite IH. by destruct (check_tasks _ _ _ _ _ _).
  - destruct l as [|n' l]; [|simpl in Hlen; lia].
    cbn [hd tl]. rewrite IH. by destruct (check_tasks _ _ _ _ _ _).
Qed.

(** X10: a task that is done or deleted when a sweep fetches its rows
    is not notified by that sweep, whatever came before and whatever the
    handlers do while the sweep sends: for an id that has been handed
    out and belongs to no pending task, no sweep after any sequence of
    operations sends a notification, and the table the sweep leaves is
    again one that operations reach from the first, so the same holds of
    every later sweep. *)
Theorem finished_task_never_notified (ops : list operation) (db : database) (tid : Z)
    (telegram : request → option exn) (now : Z) (during : list (list operation)) :
  tid ≤ seq db →
  (∀ t, t ∈ tasks db → id t = tid → status t ≠ "pending") →
  let sweep :=
    check_deadlines_during zone_load strftime dateparser_parse telegram now during
      (execute_all zone_load strftime dateparser_parse ops db) in
  Forall (λ n, n_task n ≠ tid) sweep.2
  ∧ ∃ ops', sweep.1 = execute_all zone_load strftime dateparser_parse (ops ++ ops') db.
Proof.
  intros Hseq Hfin. cbv zeta. split.
  - apply Forall_forall. intros n Hn Heq.
    rewrite check_deadlines_during_sends in Hn.
    destruct (sweep_notification_task _ _ _ _ Hn) as (t' & due & Ht' & Hid & Hs & _).
    destruct (execute_all_tasks_kept ops db) as [_ Hkept].
    destruct (Hkept t' Ht') as (t & Ht & Hl); [lia|].
    destruct Hl as (Hid' & _ & _ & _ & _ & _ & Hst).
    apply (Hfin t Ht); [congruence|].
    destruct Hst as [Hst|Hst]; [congruence|]. rewrite Hs in Hst. discriminate Hst.
  - destruct (check_tasks_during_operations telegram now
                (get_pending_tasks_with_due_dates
                   (execute_all zone_load strftime dateparser_parse ops db))
                during (execute_all zone_load strftime dateparser_parse ops db))
      as [ops' Hops].
    exists ops'. unfold check_deadlines_during. by rewrite Hops, execute_all_app.
Qed.

(** X11: a threshold that is fired for a task is never sent for it
    again, whatever operations follow; and once the final notification
    is fired, no sweep at or after the due date sends the task
    anything. *)
Theorem fired_threshold_never_resent (ops : list operation) (db : database) (t : task)
    (k : interval) (telegram : request → option exn) (now : Z) (n : notification) :
  wf db → t ∈ tasks db → flag k t = true →
  n ∈ (check_deadlines zone_load strftime telegram now
         (execute_all zone_load strftime dateparser_parse ops db)).2 →
  n_task n = id t →
  n_key n ≠ k
  ∧ (k = Ifinal → ∀ due, due_date t = Some due → now < due).
Proof.
  intros [Hnd Hle] Ht Hfl Hn Hid.
  destruct (sweep_notification_task _ _ _ _ Hn)
    as (t' & due' & Ht' & Hid' & _ & Hdue' & _ & Hunf & Htime & _).
  assert (Hold : id t' ≤ seq db) by (rewrite Hid', Hid; by apply Hle).
  destruct (execute_all_flags_kept zone_load strftime dateparser_parse ops db)
    as [_ Hkept].
  destruct (Hkept t' Ht' Hold) as (t0 & Ht0 & Hid0 & Hmono).
  assert (t0 = t) as ->.
  { apply (NoDup_fmap_eq id (tasks db)); [done|done|done|congruence]. }
  assert (Hne : n_key n ≠ k).
  { intros E. rewrite E, (Hmono _ Hfl) in Hunf. discriminate Hunf. }
  split; [done|]. intros -> due Hdue.
  destruct (Z.lt_ge_cases now due) as [|Hnow]; [done|exfalso].
  destruct (execute_all_tasks_kept ops db) as [_ Hkept'].
  destruct (Hkept' t' Ht' Hold) as (t1 & Ht1 & Hl).
  assert (t1 = t) as ->.
  { apply (NoDup_fmap_eq id (tasks db)); [done|done|done|].
    destruct Hl as (E & _). congruence. }
  destruct Hl as (_ & _ & _ & _ & Hd & _).
  assert (due' = due) as -> by congruence.
  destruct Htime as [[Hk _]|[_ Hpos]]; [done|lia].
Qed.

End SweepMore.

Lemma sweep_notification_sound_witness :
  let db := sample_db [sample_task 1 (Some (minutes 10))] in
  let n := {| n_task := 1; n_key := I15m; n_chat := 67890;
              n_text := "⏳ Reminder: Due in less than 15 minutes!" +:+ nl +:+ "ID:1"
                        +:+ nl +:+ "Desc:Submit thesis" +:+ nl +:+ "Due:600000000(UTC)";
              n_error := None |} in
  ∃ t due,
    t ∈ tasks db ∧ id t = n_task n ∧ status t = "pending" ∧ due_date t = Some due
    ∧ n_chat n = chat_id t ∧ flag (n_key n) t = false
    ∧ ((n_key n = Ifinal ∧ due ≤ 0)
       ∨ (n_key n ≠ Ifinal ∧ 0 < due - 0 ≤ offset (n_key n)))
    ∧ n_error n = delivers_all (send_message (chat_id t) (n_text n) None).
Proof.
  apply (sweep_notification_sound sample_zone_load sample_strftime delivers_all 0
           (sample_db [sample_task 1 (Some (minutes 10))])).
  vm_compute. left.
Defined.

Lemma task_data_never_changes_witness :
  let t := sample_task 1 (Some (minutes 10)) in
  let t' := set_status "done" (set_flag I15m t) in
  user_id t' = user_id t ∧ chat_id t' = chat_id t ∧ description t' = description t
  ∧ due_date t' = due_date t ∧ added_date t' = added_date t
  ∧ (status t' = status t ∨ status t' = "done").
Proof.
  apply (task_data_never_changes sample_zone_load sample_strftime sample_parse
           [Act (Sweep delivers_all 0); Act (Complete 1 12345)]
           (sample_db [sample_task 1 (Some (minutes 10))])).
  - split; [apply NoDup_singleton|].
    intros t ->%list_elem_of_singleton. simpl. lia.
  - left.
  - vm_compute. left.
  - reflexivity.
Defined.

Lemma fired_threshold_never_resent_witness :
  let n := {| n_task := 1; n_key := I1h; n_chat := 67890;
              n_text := "⏳ Reminder: Due in less than 1 hour!" +:+ nl +:+ "ID:1"
                        +:+ nl +:+ "Desc:Submit thesis" +:+ nl +:+ "Due:600000000(UTC)";
              n_error := None |} in
  n_key n ≠ I15m
  ∧ (I15m = Ifinal → ∀ due, Some (minutes 10) = Some due → 0 < due).
Proof.
  apply (fired_threshold_never_resent sample_zone_load sample_strftime sample_parse
           [Act (ListTasks 12345 "pending")]
           (sample_db [set_flag I15m (sample_task 1 (Some (minutes 10)))])
           (set_flag I15m (sample_task 1 (Some (minutes 10)))) I15m delivers_all 0).
  - split; [apply NoDup_singleton|].
    intros t ->%list_elem_of_singleton. simpl. lia.
  - left.
  - reflexivity.
  - vm_compute. left.
  - reflexivity.
Defined.

Lemma finished_task_never_notified_witness :
  let db := sample_db [set_status "done" (sample_task 1 (Some (minutes 10)));
                       sample_task 2 (Some (minutes 10));
                       sample_task 3 (Some (minutes 10))] in
  let ops := [Act (Sweep delivers_all (minutes (-50))); Act (Delete 3 12345)] in
  let during := [[Act (Complete 2 12345)]] in
  let sweep :=
    check_deadlines_during sample_zone_load sample_strftime sample_parse delivers_all 0
      during (execute_all sample_zone_load sample_strftime sample_parse ops db) in
  Forall (λ n, n_task n ≠ 1) sweep.2
  ∧ ∃ ops', sweep.1
            = execute_all sample_zone_load sample_strftime sample_parse (ops ++ ops') db.
Proof.
  apply (finished_task_never_notified sample_zone_load sample_strftime sample_parse
           [Act (Sweep delivers_all (minutes (-50))); Act (Delete 3 12345)]
           (sample_db [set_status "done" (sample_task 1 (Some (minutes 10)));
                       sample_task 2 (Some (minutes 10));
                       sample_task 3 (Some (minutes 10))])
           1 delivers_all 0 [[Act (Complete 2 12345)]]).
  - simpl. lia.
  - intros t Ht Hid.
    apply elem_of_cons in Ht as [->|Ht]; [done|].
    apply elem_of_cons in Ht as [->|Ht]; [simpl in Hid; lia|].
    apply list_elem_of_singleton in Ht. subst t. simpl in Hid. lia.
Defined.

(** A task completed while the sweep sends for an earlier row is still
    notified, and its flag is written to the finished task: the sweep
    goes by the rows it fetched. *)
Example completed_during_sweep_still_notified :
  let db := sample_db [sample_task 1 (Some (minutes 10)); sample_task 2 (Some (minutes 10))] in
  let sweep :=
    check_deadlines_during sample_zone_load sample_strftime sample_parse delivers_all 0
      [[Act (Complete 2 12345)]] db in
  (n_task <$> sweep.2) = [1; 2]
  ∧ ((λ t, (id t, status t, flag I15m t)) <$> tasks sweep.1)
    = [(1, "pending", true); (2, "done", true)].
Proof. by vm_compute. Qed.

(** * Users and their data *)

Section Users.

Variable zone_load : string → option exn.
Variable strftime : string → Z → option string.
Variable dateparser_parse : string → Z → string → result (option Z).

Lemma filter_fmap_untouched {A} (q : A → bool) (f : A → A) (l : list A) :
  (∀ x, q x = true → f x = x) → (∀ x, q (f x) = q x) →
  List.filter q (f <$> l) = List.filter q l.
Proof.
  intros Hf Hq. induction l as [|a l IH]; [done|]. rewrite fmap_cons. simpl.
  rewrite Hq. destruct (q a) eqn:E; [|done]. by rewrite Hf, IH.
Qed.

Lemma filter_filter_untouched {A} (q p : A → bool) (l : list A) :
  (∀ x, q x = true → p x = true) →
  List.filter q (List.filter p l) = List.filter q l.
Proof.
  intros H. induction l as [|a l IH]; [done|]. simpl.
  destruct (p a) eqn:Hp; simpl; destruct (q a) eqn:Hq; try by rewrite IH.
  apply H in Hq. congruence.
Qed.

(** A write on behalf of a user touches neither the tasks nor the
    timezone of anyone else. *)
Lemma user_write_others uid db db' :
  user_write zone_load uid db db' →
  tasks_of_others uid db' = tasks_of_others uid db
  ∧ ∀ u, u ≠ uid → users db' !! u = users db !! u.
Proof.
  intros Hw. destruct Hw; unfold tasks_of_others.
  - split; [|done]. simpl. rewrite List.filter_app. simpl.
    rewrite Z.eqb_refl. simpl. apply app_nil_r.
  - split; [|done]. simpl. apply filter_fmap_untouched.
    + intros t Ht. apply negb_true_iff in Ht. rewrite Ht. by rewrite andb_false_r.
    + intros t. by destruct (_ && _).
  - split; [|done]. simpl. apply filter_filter_untouched.
    intros t Ht. apply negb_true_iff in Ht. rewrite Ht. by rewrite andb_false_r.
  - destruct (set_user_timezone_tasks zone_load uid tz db) as [Ht _]. rewrite Ht.
    split; [done|]. intros u Hu. unfold set_user_timezone.
    destruct (zone_load tz) as [[]|]; try done. simpl. by rewrite lookup_insert_ne.
Qed.

(** X12: whatever a user does (the four task operations by
    conversation, command or button, /list, a timezone change), the
    tasks of every other user stay in the table exactly as they were,
    and so does every other user's timezone. *)
Theorem actions_touch_own_data_only (a : action) (uid : Z) (db : database) :
  actor a = Some uid →
  tasks_of_others uid (perform zone_load strftime dateparser_parse a db)
  = tasks_of_others uid db
  ∧ ∀ u, u ≠ uid →
      users (perform zone_load strftime dateparser_parse a db) !! u = users db !! u.
Proof.
  intros Ha.
  destruct (perform_user_write zone_load strftime dateparser_parse a uid db Ha)
    as [->|Hw]; [done|]. by apply user_write_others.
Qed.

Lemma call_tool_user_write now uid cid c db :
  (call_tool zone_load strftime dateparser_parse now uid cid c db).2 = db
  ∨ user_write zone_load uid db
      (call_tool zone_load strftime dateparser_parse now uid cid c db).2.
Proof.
  destruct c as [desc due|st|task_id|task_id]; simpl.
  - destruct (add_task_logic_db zone_load strftime dateparser_parse now desc
                due uid cid db) as [->|[d ->]]; [by left|right; constructor].
  - by left.
  - destruct (mark_task_done_logic_db task_id uid db) as [E|E];
      destruct (mark_task_done_logic task_id uid db) as [s db']; simpl in *; subst db';
      [by left|right; constructor].
  - destruct (delete_task_logic_db task_id uid db) as [E|E];
      destruct (delete_task_logic task_id uid db) as [s db']; simpl in *; subst db';
      [by left|right; constructor].
Qed.

(** X13: whatever calls the language model makes while answering a
    message, they act for the sender of the message only: the tasks and
    timezones of all other users are as before, the sender's own
    timezone is untouched, and no id handed out earlier changes owner,
    chat, description or due date. *)
Theorem conversation_tools_touch_sender_only (now uid cid : Z) (cs : list tool_call)
    (db : database) :
  let db' := call_tools zone_load strftime dateparser_parse now uid cid cs db in
  tasks_of_others uid db' = tasks_of_others uid db
  ∧ users db' = users db
  ∧ tasks_kept db db'.
Proof.
  cbv zeta. revert db. induction cs as [|c cs IH]; intros db.
  { split; [done|]. split; [done|apply tasks_kept_refl]. }
  cbn [call_tools].
  assert (Hstep : tasks_of_others uid
                    (call_tool zone_load strftime dateparser_parse now uid cid c db).2
                  = tasks_of_others uid db
                  ∧ users (call_tool zone_load strftime dateparser_parse now uid cid c db).2
                    = users db
                  ∧ tasks_kept db
                      (call_tool zone_load strftime dateparser_parse now uid cid c db).2).
  { destruct (call_tool_user_write now uid cid c db) as [->|Hw].
    - split; [done|]. split; [done|apply tasks_kept_refl].
    - split; [by apply (user_write_others uid db)|].
      split; [|by eapply user_write_tasks_kept].
      destruct c as [desc due|st|task_id|task_id]; simpl.
      + destruct (add_task_logic_db zone_load strftime dateparser_parse now desc
                    due uid cid db) as [->|[d ->]]; done.
      + done.
      + destruct (mark_task_done_logic_db task_id uid db) as [E|E];
          destruct (mark_task_done_logic task_id uid db) as [s db']; simpl in *;
          by subst db'.
      + destruct (delete_task_logic_db task_id uid db) as [E|E];
          destruct (delete_task_logic task_id uid db) as [s db']; simpl in *;
          by subst db'. }
  destruct (call_tool zone_load strftime dateparser_parse now uid cid c db)
    as [[msg|e] db1]; simpl in Hstep; [|done].
  destruct Hstep as (H1 & H2 & H3). destruct (IH db1) as (H4 & H5 & H6).
  split; [congruence|]. split; [congruence|]. by eapply tasks_kept_trans.
Qed.

(** *** Stored timezones *)

Lemma user_write_zones_load uid db db' :
  user_write zone_load uid db db' → zones_load zone_load db → zones_load zone_load db'.
Proof.
  intros Hw Hz. destruct Hw; try done.
  unfold set_user_timezone. destruct (zone_load tz) as [[]|] eqn:E; try done.
  intros u z. simpl. destruct (decide (u = uid)) as [->|Hne].
  - rewrite lookup_insert_eq. by intros [= <-].
  - rewrite lookup_insert_ne by done. apply Hz.
Qed.

Lemma perform_zones_load a db :
  zones_load zone_load db →
  zones_load zone_load (perform zone_load strftime dateparser_parse a db).
Proof.
  intros Hz. destruct (actor a) as [uid|] eqn:Ha.
  - destruct (perform_user_write zone_load strftime dateparser_parse a uid db Ha)
      as [->|Hw]; [done|by eapply user_write_zones_load].
  - apply actor_sweep in Ha as (tg & now & ->). simpl. by rewrite sweep_effect.
Qed.

Lemma perform_all_zones_load acts db :
  zones_load zone_load db →
  zones_load zone_load (perform_all zone_load strftime dateparser_parse acts db).
Proof.
  revert db. induction acts as [|a acts IH]; intros db Hz; [done|].
  simpl. by apply IH, perform_zones_load.
Qed.

(** X6: in every database the program reaches from the empty one by
    its actions, every stored timezone is one that loads, so resolving
    the timezone of any user returns a zone and never raises: the zone
    of the stored key, or UTC for a user without one. *)
Theorem reachable_timezone_resolves (acts : list action) (uid : Z) :
  let db := perform_all zone_load strftime dateparser_parse acts empty_db in
  zones_load zone_load db
  ∧ ∃ tz_str, get_user_timezone_str zone_load uid db = Ok tz_str
              ∧ (tz_str = default "UTC" (users db !! uid))
              ∧ ∃ z, get_user_tz zone_load uid db = Ok z
                     ∧ (z = {| zone_key := tz_str |} ∨ z = UTC).
Proof.
  cbv zeta.
  assert (Hz : zones_load zone_load
                 (perform_all zone_load strftime dateparser_parse acts empty_db)).
  { apply perform_all_zones_load. intros u z. simpl. by rewrite lookup_empty. }
  split; [done|].
  unfold get_user_tz, get_user_timezone_str, ZoneInfo.
  destruct (users _ !! uid) as [tz|] eqn:E.
  - rewrite (Hz uid tz E). exists tz. split; [done|]. split; [done|].
    rewrite (Hz uid tz E). eauto.
  - exists "UTC". split; [done|]. split; [done|].
    destruct (zone_load "UTC"); eauto.
Qed.

End Users.

Lemma actions_touch_own_data_only_witness :
  let db := sample_db [sample_task 1 None; sample_task 2 None] in
  tasks_of_others 777
    (perform sample_zone_load sample_strftime sample_parse (Delete 1 777) db)
  = tasks_of_others 777 db
  ∧ ∀ u, u ≠ 777 →
      users (perform sample_zone_load sample_strftime sample_parse (Delete 1 777) db) !! u
      = users db !! u.
Proof.
  apply (actions_touch_own_data_only sample_zone_load sample_strftime sample_parse
           (Delete 1 777) 777 (sample_db [sample_task 1 None; sample_task 2 None])).
  reflexivity.
Defined.

(** * Timezone resolution in the databases the program reaches *)

Section Resolution.

(** The zone database when the timezones were stored, and now: a key
    that loaded then is well-formed, so now it loads or is not found. *)
Variable stored_load : string → option exn.
Variable zone_load : string → option exn.
Variable strftime : string → Z → option string.
Variable dateparser_parse : string → Z → string → result (option Z).

Hypothesis stored_keys :
  ∀ k, stored_load k = None →
       zone_load k = None ∨ zone_load k = Some ZoneInfoNotFoundError.


End Resolution.


(** The history of the witness: the zone is stored, the empty
    identifier is not; after the zone was removed from the zone database
    the user's timezone resolves to UTC. *)
Example timezone_removed_later :
  let db := perform_all sample_zone_load sample_strftime sample_parse
              [SetTimezone 12345 "Asia/Tashkent"; SetTimezone 12345 ""] empty_db in
  users db !! 12345 = Some "Asia/Tashkent"
  ∧ get_user_tz sample_zone_load 12345 db = Ok {| zone_key := "Asia/Tashkent" |}
  ∧ get_user_tz later_zone_load 12345 db = Ok UTC.
Proof. by vm_compute. Qed.

(** * Numbers in commands and callbacks *)

Lemma isdigit_cons c s :
  isdigit (String c s) = is_ascii_digit c && forallb is_ascii_digit (String.list_ascii_of_string s).
Proof. reflexivity. Qed.

Lemma digits_value_fold s :
  digits_value s
  = fold_left (λ acc c, 10 * acc + (Z.of_nat (nat_of_ascii c) - 48))
      (String.list_ascii_of_string s) 0.
Proof. reflexivity. Qed.

(** A string of digits is read as the number it spells. *)
Lemma int_of_digits s : isdigit s = true → int s = Ok (digits_value s).
Proof.
  intros H. destruct s as [|c s]; [done|].
  assert (Hc : is_ascii_digit c = true).
  { rewrite isdigit_cons in H. by apply andb_true_iff in H as [? _]. }
  unfold int. rewrite H.
  destruct c as [[] [] [] [] [] [] [] []]; try reflexivity; discriminate Hc.
Qed.

Lemma pretty_N_char_digit d :
  (d < 10)%N →
  is_ascii_digit (pretty_N_char d) = true
  ∧ Z.of_nat (nat_of_ascii (pretty_N_char d)) - 48 = Z.of_N d.
Proof.
  intros H.
  assert (d = 0 ∨ d = 1 ∨ d = 2 ∨ d = 3 ∨ d = 4 ∨ d = 5 ∨ d = 6 ∨ d = 7 ∨ d = 8 ∨ d = 9)%N
    as Hd by lia.
  repeat (destruct Hd as [->|Hd]; [by vm_compute|]). subst d. by vm_compute.
Qed.

(** The digits [pretty_N_go] puts before [s] spell [x]. *)
Lemma pretty_N_go_digits (x : N) :
  ∃ k : Z, 0 ≤ k ∧ ∀ s acc,
    forallb is_ascii_digit (String.list_ascii_of_string (pretty_N_go x s))
    = forallb is_ascii_digit (String.list_ascii_of_string s)
    ∧ fold_left (λ acc c, 10 * acc + (Z.of_nat (nat_of_ascii c) - 48))
        (String.list_ascii_of_string (pretty_N_go x s)) acc
      = fold_left (λ acc c, 10 * acc + (Z.of_nat (nat_of_ascii c) - 48))
          (String.list_ascii_of_string s) (acc * 10 ^ k + Z.of_N x).
Proof.
  induction (N.lt_wf_0 x) as [x _ IH].
  assert (x = 0 ∨ 0 < x)%N as [->|Hpos] by lia.
  - exists 0. split; [done|]. intros s acc. rewrite pretty_N_go_0. split; [done|].
    f_equal. lia.
  - destruct (IH (x `div` 10)%N) as (k & Hk & Hgo); [by apply N.div_lt|].
    exists (k + 1). split; [lia|]. intros s acc.
    rewrite pretty_N_go_step by done.
    destruct (Hgo (String (pretty_N_char (x `mod` 10)%N) s) acc) as [H1 H2].
    destruct (pretty_N_char_digit (x `mod` 10)%N) as [Hd Hv];
      [by apply N.mod_lt|].
    split.
    + rewrite H1. simpl. by rewrite Hd.
    + rewrite H2. simpl. f_equal. rewrite Hv.
      rewrite Z.pow_add_r by lia.
      pose proof (N.div_mod x 10 ltac:(done)) as Hdm.
      assert (Z.of_N x = 10 * Z.of_N (x `div` 10)%N + Z.of_N (x `mod` 10)%N) by lia.
      lia.
Qed.

Lemma pretty_N_go_nonempty (x : N) (s : string) :
  (0 < x)%N → pretty_N_go x s ≠ "".
Proof.
  intros Hpos. rewrite pretty_N_go_step by done.
  assert (Hgo : ∀ y s', s' ≠ "" → pretty_N_go y s' ≠ "").
  { clear. intros y. induction (N.lt_wf_0 y) as [y _ IH]. intros s' Hs'.
    assert (y = 0 ∨ 0 < y)%N as [->|Hpos] by lia.
    - by rewrite pretty_N_go_0.
    - rewrite pretty_N_go_step by done. apply IH; [by apply N.div_lt|done]. }
  by apply Hgo.
Qed.

Lemma pretty_N_digits (x : N) :
  isdigit (pretty x) = true ∧ digits_value (pretty x) = Z.of_N x.
Proof.
  unfold pretty, pretty_N. destruct (decide (x = 0%N)) as [->|Hne]; [done|].
  destruct (pretty_N_go_digits x) as (k & Hk & Hgo).
  destruct (Hgo "" 0) as [H1 H2]. split.
  - unfold isdigit. rewrite H1. simpl. rewrite andb_true_r. apply negb_true_iff.
    apply String.eqb_neq. apply pretty_N_go_nonempty. lia.
  - rewrite digits_value_fold, H2. simpl. lia.
Qed.

(** What [pretty] prints, [int] reads back; a number that is not
    negative prints as digits only. *)
Lemma int_pretty (z : Z) : int (pretty z) = Ok z.
Proof.
  unfold pretty, pretty_Z. destruct z as [|p|p].
  - reflexivity.
  - destruct (pretty_N_digits (N.pos p)) as [H1 H2].
    change (pretty p) with (pretty (N.pos p)).
    rewrite int_of_digits by done. rewrite H2. done.
  - destruct (pretty_N_digits (N.pos p)) as [H1 H2].
    change (pretty p) with (pretty (N.pos p)).
    change ("-" +:+ pretty (N.pos p)) with (String "-" (pretty (N.pos p))).
    unfold int. rewrite H1, H2. done.
Qed.

Lemma isdigit_pretty (z : Z) : 0 ≤ z → isdigit (pretty z) = true.
Proof.
  unfold pretty, pretty_Z. destruct z as [|p|p]; [done| |lia]. intros _.
  change (pretty p) with (pretty (N.pos p)). apply pretty_N_digits.
Qed.

Lemma split_colon_append (a b : string) :
  (∀ c, c ∈ String.list_ascii_of_string a → c ≠ ":"%char) →
  split_colon (a +:+ ":" +:+ b) = Ok (a, b).
Proof.
  induction a as [|c a IH]; intros H; [done|]. simpl.
  destruct (Ascii.eqb_spec c ":") as [->|Hne].
  - exfalso. apply (H ":"%char); [left|done].
  - rewrite IH; [done|]. intros c' Hc'. apply H. by right.
Qed.

(** * Further properties of the handlers *)

Lemma get_task_by_id_found tid uid db t :
  get_task_by_id tid uid db = Some t →
  ∃ t0, t0 ∈ tasks db ∧ (id t0 =? tid) && (user_id t0 =? uid) = true.
Proof.
  unfold get_task_by_id. intros [Hin Hp]%find_some. exists t.
  by rewrite list_elem_of_In.
Qed.

Lemma get_task_by_id_absent tid uid db :
  get_task_by_id tid uid db = None →
  ∀ t, t ∈ tasks db → (id t =? tid) && (user_id t =? uid) = false.
Proof. unfold get_task_by_id. intros H. by apply find_none_all. Qed.

Lemma delete_task_found tid uid db t :
  get_task_by_id tid uid db = Some t → (delete_task tid uid db).1 = true.
Proof.
  intros H. unfold delete_task. cbn [fst]. apply rowcount_positive.
  destruct (get_task_by_id_found _ _ _ _ H) as (t0 & Ht0 & Hp). by exists t0.
Qed.

Lemma delete_task_absent tid uid db :
  get_task_by_id tid uid db = None → (delete_task tid uid db).2 = db.
Proof.
  intros H. unfold delete_task. cbn [snd]. apply with_tasks_unchanged.
  apply filter_all_true. intros t Ht. apply negb_true_iff.
  by apply (get_task_by_id_absent _ _ _ H).
Qed.

Lemma update_task_status_found tid uid st db t :
  get_task_by_id tid uid db = Some t → (update_task_status tid uid st db).1 = true.
Proof.
  intros H. unfold update_task_status. cbn [fst]. apply rowcount_positive.
  destruct (get_task_by_id_found _ _ _ _ H) as (t0 & Ht0 & Hp). by exists t0.
Qed.

Lemma get_task_by_id_updated tid uid st db :
  get_task_by_id tid uid (update_task_status tid uid st db).2
  = set_status st <$> get_task_by_id tid uid db.
Proof.
  unfold get_task_by_id, update_task_status. cbn [snd tasks with_tasks].
  induction (tasks db) as [|a l IH]; [done|]. rewrite fmap_cons. simpl.
  destruct ((id a =? tid) && (user_id a =? uid)) eqn:Ea; simpl; rewrite Ea; [done|].
  apply IH.
Qed.

Lemma get_task_by_id_deleted tid uid db :
  get_task_by_id tid uid (delete_task tid uid db).2 = None.
Proof.
  unfold get_task_by_id, delete_task. cbn [snd tasks with_tasks].
  apply find_none_all. intros t [_ Ht]%elem_of_filter_bool. by apply negb_true_iff.
Qed.

Section HandlersMore.

Variable zone_load : string → option exn.
Variable strftime : string → Z → option string.
Variable dateparser_parse : string → Z → string → result (option Z).
Variable telegram : request → option exn.

Lemma delete_data_parse (tid : Z) :
  split_colon ("delete:" +:+ pretty tid) = Ok ("delete", pretty tid).
Proof.
  change ("delete:" +:+ pretty tid) with ("delete" +:+ ":" +:+ pretty tid).
  apply split_colon_append. intros c Hc. vm_compute in Hc.
  repeat (apply elem_of_cons in Hc as [->|Hc]; [done|]). inversion Hc.
Qed.

(** X14: the Delete button of the keyboard built for a task carries
    callback data that [button_callback] reads back as that task: when
    the user who owns the task clicks it, the task is deleted, the
    message is edited to the deleted text, and of the exceptions of the
    edit only [BadRequest] is swallowed. *)
Theorem delete_button_deletes_task (uid : Z) (t : task) (user_tz : zone) (db : database) :
  get_user_tz zone_load uid db = Ok user_tz →
  get_task_by_id (id t) uid db = Some t →
  ∃ done_data delete_data,
    build_task_keyboard (id t)
    = [[("✅ Done", done_data); ("🗑️ Delete", delete_data)]]
    ∧ let r := button_callback zone_load strftime telegram uid (Some delete_data) db in
      let edit := edit_message_text
                    ("🗑️ Deleted: ~" +:+ build_task_message_text strftime t user_tz +:+ "~") in
      final r = (delete_task (id t) uid db).2
      ∧ get_task_by_id (id t) uid (final r) = None
      ∧ calls r = [(answer, telegram answer); (edit, telegram edit)]
      ∧ raised r = match telegram edit with Some BadRequest => None | o => o end.
Proof.
  intros Htz Hget. eexists _, _. split; [reflexivity|]. cbv zeta.
  unfold button_callback. rewrite Htz.
  rewrite delete_data_parse, int_pretty.
  rewrite Hget. cbn [String.eqb Ascii.eqb Bool.eqb]. cbv iota.
  pose proof (delete_task_found _ _ _ _ Hget) as Hok.
  destruct (delete_task (id t) uid db) as [ok db'] eqn:E. simpl in Hok. subst ok.
  unfold edit_except_BadRequest. cbn [final calls raised].
  split; [done|]. split; [|done].
  change db' with (true, db').2. rewrite <- E. apply get_task_by_id_deleted.
Qed.

(** X15: deleting by command, by button and by conversation leave the
    same database behind: the one [delete_task] produces for that user
    and id (the table unchanged when the user has no such task). *)
Theorem delete_paths_agree (telegram' : request → option exn) (uid tid : Z)
    (user_tz : zone) (db : database) :
  0 < tid → uid ≠ 0 → get_user_tz zone_load uid db = Ok user_tz →
  final (delete_task_command telegram uid [pretty tid] db) = (delete_task tid uid db).2
  ∧ final (button_callback zone_load strftime telegram' uid
             (Some ("delete:" +:+ pretty tid)) db) = (delete_task tid uid db).2
  ∧ (delete_task_logic tid uid db).2 = (delete_task tid uid db).2.
Proof.
  intros Htid Huid Htz. split; [|split].
  - unfold delete_task_command. rewrite isdigit_pretty by lia. cbn [negb].
    rewrite int_pretty.
    destruct (get_task_by_id tid uid db) as [t|] eqn:Hget.
    + by destruct (delete_task tid uid db) as [[] db'].
    + rewrite delete_task_absent by done. by destruct (overflows tid).
  - unfold button_callback. rewrite Htz.
    rewrite delete_data_parse, int_pretty.
    destruct (get_task_by_id tid uid db) as [t|] eqn:Hget.
    + cbn [String.eqb Ascii.eqb Bool.eqb]. cbv iota.
      by destruct (delete_task tid uid db) as [[] db'].
    + rewrite delete_task_absent by done. by destruct (overflows tid).
  - unfold delete_task_logic.
    assert ((uid =? 0) || (tid =? 0) = false) as ->.
    { apply orb_false_iff. rewrite !Z.eqb_neq. lia. }
    by destruct (delete_task tid uid db) as [[] db'].
Qed.

(** X16: completing by command and by conversation leave the same
    database behind: the task of that user and id is done, and the table
    is unchanged when the user has no such task or it was done
    already. *)
Theorem complete_paths_agree (uid tid : Z) (db : database) :
  0 < tid → uid ≠ 0 →
  final (done_task_command telegram uid [pretty tid] db)
  = (mark_task_done_logic tid uid db).2
  ∧ (mark_task_done_logic tid uid db).2
    = match get_task_by_id tid uid db with
      | Some t => if String.eqb (status t) "done" then db
                  else (update_task_status tid uid "done" db).2
      | None => db
      end.
Proof.
  intros Htid Huid.
  assert (E : (mark_task_done_logic tid uid db).2
              = match get_task_by_id tid uid db with
                | Some t => if String.eqb (status t) "done" then db
                            else (update_task_status tid uid "done" db).2
                | None => db
                end).
  { unfold mark_task_done_logic.
    assert ((uid =? 0) || (tid =? 0) = false) as ->.
    { apply orb_false_iff. rewrite !Z.eqb_neq. lia. }
    destruct (get_task_by_id tid uid db) as [t|]; [|done].
    destruct (String.eqb (status t) "done"); [done|].
    by destruct (update_task_status tid uid "done" db) as [[] db']. }
  split; [|done]. rewrite E.
  unfold done_task_command. rewrite isdigit_pretty by lia. cbn [negb].
  rewrite int_pretty.
  destruct (get_task_by_id tid uid db) as [t|]; [|by destruct (overflows tid)].
  destruct (String.eqb (status t) "done"); [done|].
  by destruct (update_task_status tid uid "done" db) as [[] db'].
Qed.

(** X17: completing a task twice is completing it once: the second
    call of [mark_task_done_logic] writes nothing, and when the user has
    the task it answers that the task is already done. *)
Theorem mark_task_done_logic_twice (tid uid : Z) (db : database) :
  let db1 := (mark_task_done_logic tid uid db).2 in
  (mark_task_done_logic tid uid db1).2 = db1
  ∧ ∀ t, get_task_by_id tid uid db = Some t → uid ≠ 0 → tid ≠ 0 →
         mark_task_done_logic tid uid db1
         = ("Task " +:+ pretty tid +:+ " ('" +:+ description t +:+ "') is already done.",
            db1).
Proof.
  cbv zeta.
  assert (Hdone : ∀ t, get_task_by_id tid uid db = Some t → uid ≠ 0 → tid ≠ 0 →
            mark_task_done_logic tid uid (mark_task_done_logic tid uid db).2
            = ("Task " +:+ pretty tid +:+ " ('" +:+ description t +:+ "') is already done.",
               (mark_task_done_logic tid uid db).2)).
  { intros t Hget Hu Ht.
    assert (Hz : (uid =? 0) || (tid =? 0) = false).
    { apply orb_false_iff. by rewrite !Z.eqb_neq. }
    unfold mark_task_done_logic at 2 3. rewrite Hz, Hget.
    destruct (String.eqb (status t) "done") eqn:Hst.
    - cbn [snd]. unfold mark_task_done_logic. by rewrite Hz, Hget, Hst.
    - assert (E : (let '(ok, db') := update_task_status tid uid "done" db in
                   if ok
                   then ("✅ Marked task " +:+ pretty tid +:+ " ('" +:+ description t
                         +:+ "') as done.", db')
                   else ("❌ Failed to mark task " +:+ pretty tid
                         +:+ " as done (it might have been deleted).", db')).2
                  = (update_task_status tid uid "done" db).2).
      { by destruct (update_task_status tid uid "done" db) as [[] db']. }
      rewrite E. unfold mark_task_done_logic.
      rewrite Hz, get_task_by_id_updated, Hget. done. }
  split; [|exact Hdone].
  destruct (decide (uid = 0 ∨ tid = 0)) as [Hz|Hz].
  - unfold mark_task_done_logic.
    assert ((uid =? 0) || (tid =? 0) = true) as ->; [|done].
    apply orb_true_iff. by rewrite !Z.eqb_eq.
  - destruct (get_task_by_id tid uid db) as [t|] eqn:Hget.
    + rewrite (Hdone t); [done|done|lia|lia].
    + assert (E : (mark_task_done_logic tid uid db).2 = db).
      { unfold mark_task_done_logic. rewrite Hget. by destruct (_ || _). }
      by rewrite E, E.
Qed.

End HandlersMore.

Section HandlersEdge.

Variable zone_load : string → option exn.
Variable strftime : string → Z → option string.
Variable dateparser_parse : string → Z → string → result (option Z).
Variable telegram : request → option exn.
Variable strftime_zone : string → Z → string.

(** X18: an Add with a due-date text always creates the task: with
    the date the parser returns when it understands the text, and
    without a due date, saying so in the reply, when the parser does not
    understand it or raises. *)
Theorem add_task_logic_due_date (now : Z) (desc s : string) (uid cid : Z)
    (db : database) (user_tz : zone) :
  uid ≠ 0 → cid ≠ 0 → 0 ≤ seq db → s ≠ "" →
  get_user_tz zone_load uid db = Ok user_tz →
  let parsed := match dateparser_parse s now (zone_key user_tz) with
                | Ok (Some d) => Some d
                | _ => None
                end in
  add_task_logic zone_load strftime dateparser_parse now desc (Some s) uid cid db
  = (Ok (("Okay, I've added task '" +:+ desc +:+ "' (ID: " +:+ pretty (seq db + 1) +:+ ").")
         +:+ match parsed with
             | Some d => " Due date is set to "
                         +:+ format_datetime_local strftime (Some d) user_tz +:+ "."
             | None => " I couldn't understand the due date, so none was set."
             end),
     (add_task (now `div` 1000000) uid cid desc parsed db).2).
Proof.
  intros Hu Hc Hseq Hs Htz. cbv zeta. unfold add_task_logic. rewrite Htz.
  assert ((uid =? 0) || (cid =? 0) = false) as ->.
  { apply orb_false_iff. by rewrite !Z.eqb_neq. }
  assert (String.eqb s "" = false) as -> by by apply String.eqb_neq.
  unfold add_task. cbv beta iota zeta. cbn [negb snd].
  assert ((seq db + 1 =? 0) = false) as -> by (apply Z.eqb_neq; lia).
  by destruct (dateparser_parse s now (zone_key user_tz)) as [[d|]|e].
Qed.

(** X19: the conversational list answers that there are no tasks
    exactly when the user has no task of the status asked for. *)
Theorem list_tasks_logic_empty (uid : Z) (st : string) (db : database) (user_tz : zone) :
  uid ≠ 0 → get_user_tz zone_load uid db = Ok user_tz →
  (list_tasks_logic zone_load strftime uid st db
   = Ok ("You have no " +:+ st +:+ " tasks! 🎉")
   ↔ ∀ t, t ∈ tasks db → ¬ (user_id t = uid ∧ status t = st)).
Proof.
  intros Hu Htz. unfold list_tasks_logic. rewrite Htz.
  assert ((uid =? 0) = false) as -> by by apply Z.eqb_neq.
  assert (Hnil : get_user_tasks uid st db = []
                 ↔ ∀ t, t ∈ tasks db → ¬ (user_id t = uid ∧ status t = st)).
  { unfold get_user_tasks. split.
    - intros E t Ht [Hu' Hs'].
      assert (Hin : t ∈ List.filter (λ t, (user_id t =? uid) && String.eqb (status t) st)
                          (tasks db)).
      { apply elem_of_filter_bool. split; [done|].
        apply andb_true_iff. by rewrite Z.eqb_eq, String.eqb_eq. }
      rewrite <- (merge_sort_Permutation (λ a b, order_by a b)) in Hin.
      rewrite E in Hin. inversion Hin.
    - intros H. apply Permutation_nil_r. rewrite merge_sort_Permutation.
      rewrite filter_all_false; [done|]. intros t Ht.
      destruct (_ && _) eqn:E; [|done].
      apply andb_true_iff in E as [E1 E2]. apply Z.eqb_eq in E1.
      apply String.eqb_eq in E2. by destruct (H t Ht). }
  rewrite <- Hnil.
  destruct (get_user_tasks uid st db) as [|t ts]; [done|].
  split; [|done]. by intros [=].
Qed.

(** X20: [/set_timezone] with a zone that does not load stores
    nothing and answers that the zone is invalid; with a zone that loads
    it stores the zone for that user alone, so that the user's timezone
    then resolves to it; without an argument it stores nothing.  The
    tasks are never touched. *)
Theorem set_timezone_command_stores_valid_zone (now uid : Z) (tz : string)
    (rest : list string) (db : database) :
  let r := set_timezone_command zone_load telegram strftime_zone now uid (tz :: rest) db in
  let invalid := reply_text ("❌ Invalid timezone: '" +:+ tz +:+ "' ...") in
  let stored := reply_text ("✅ TZ set: " +:+ tz +:+ nl +:+ "Current: "
                            +:+ strftime_zone tz now) in
  (zone_load tz ≠ None → final r = db ∧ calls r = [(invalid, telegram invalid)])
  ∧ (zone_load tz = None →
       users (final r) !! uid = Some tz
       ∧ get_user_tz zone_load uid (final r) = Ok {| zone_key := tz |}
       ∧ (∀ u, u ≠ uid → users (final r) !! u = users db !! u)
       ∧ calls r = [(stored, telegram stored)])
  ∧ tasks (final r) = tasks db
  ∧ final (set_timezone_command zone_load telegram strftime_zone now uid [] db) = db.
Proof.
  cbv zeta. unfold set_timezone_command, set_user_timezone, reply.
  destruct (zone_load tz) as [e|] eqn:Hz.
  - cbn [negb]. split; [done|]. split; [done|]. done.
  - cbn [negb]. split; [done|].
    assert (Htz : get_user_tz zone_load uid
                    {| tasks := tasks db; users := <[uid:=tz]> (users db); seq := seq db |}
                  = Ok {| zone_key := tz |}).
    { unfold get_user_tz, get_user_timezone_str, ZoneInfo. simpl.
      by rewrite lookup_insert_eq, Hz, Hz. }
    rewrite Htz. cbn [final calls zone_key users tasks].
    split; [|done]. intros _.
    split; [by rewrite lookup_insert_eq|]. split; [done|].
    split; [|done]. intros u Hu. by rewrite lookup_insert_ne.
Qed.

(** *** The deadline job *)

Lemma start_jobs uid mention jobs db :
  (start zone_load telegram uid mention jobs db).2
  = if bool_decide (raised (start zone_load telegram uid mention [] db).1 = None)
    then match deadline_jobs jobs with
         | [] => (jobs ++ [{| job_name := "global_deadline_check"; job_interval := 900;
                              job_first := 5 |}])%list
         | _ => jobs
         end
    else jobs.
Proof.
  unfold start, deadline_jobs.
  destruct (get_user_timezone_str zone_load uid db); [|done].
  by destruct (telegram _).
Qed.

Lemma start_raised uid mention jobs db :
  raised (start zone_load telegram uid mention jobs db).1
  = raised (start zone_load telegram uid mention [] db).1.
Proof.
  unfold start. destruct (get_user_timezone_str zone_load uid db); [|done].
  by destruct (telegram _).
Qed.

Lemma start_db uid mention jobs db :
  final (start zone_load telegram uid mention jobs db).1 = db.
Proof.
  unfold start. destruct (get_user_timezone_str zone_load uid db); [|done].
  by destruct (telegram _).
Qed.

End HandlersEdge.

Section Jobs.

Variable zone_load : string → option exn.

(** X21: however many users send /start, the job queue ends up with
    at most one deadline job, the one that runs [check_deadlines] every
    900 seconds after a first delay of 5; it is there exactly when some
    /start got through (the timezone lookup did not raise and the
    greeting was delivered), so without a /start that got through no
    sweep ever runs. *)
Theorem start_schedules_one_job (reqs : list ((request → option exn) * Z * string))
    (db : database) :
  let the_job := {| job_name := "global_deadline_check"; job_interval := 900;
                    job_first := 5 |} in
  let got_through q :=
    raised (start zone_load q.1.1 q.1.2 q.2 [] db).1 = None in
  (Exists got_through reqs → starts zone_load reqs db [] = [the_job])
  ∧ (¬ Exists got_through reqs → starts zone_load reqs db [] = []).
Proof.
  cbv zeta.
  assert (Hone : ∀ reqs,
            starts zone_load reqs db
              [{| job_name := "global_deadline_check"; job_interval := 900; job_first := 5 |}]
            = [{| job_name := "global_deadline_check"; job_interval := 900;
                  job_first := 5 |}]).
  { clear. intros reqs. induction reqs as [|q reqs IH]; [done|].
    unfold starts in *. simpl. rewrite start_jobs. simpl.
    destruct (bool_decide _); apply IH. }
  induction reqs as [|q reqs IH].
  { split; [by intros H; inversion H|done]. }
  unfold starts. simpl. rewrite start_jobs. simpl.
  destruct (bool_decide _) eqn:E.
  - apply bool_decide_eq_true in E. split.
    + intros _. apply Hone.
    + intros H. destruct H. by left.
  - apply bool_decide_eq_false in E. destruct IH as [IH1 IH2]. split.
    + intros H. apply Exists_cons in H as [H|H]; [done|]. by apply IH1.
    + intros H. apply IH2. intros H'. apply H. by right.
Qed.

End Jobs.

(** * The schema [init_db] leaves behind *)

Lemma existsb_eqb_elem (c : string) (cols : list string) :
  existsb (String.eqb c) cols = true ↔ c ∈ cols.
Proof.
  rewrite existsb_exists. split.
  - intros (x & Hx & E). apply String.eqb_eq in E. subst x. by apply list_elem_of_In.
  - intros H. exists c. split; [by apply list_elem_of_In|apply String.eqb_refl].
Qed.

Lemma add_missing_column (s : schema) (cols : list string) (col : string) :
  s !! "tasks" = Some cols →
  (if negb (table_has_column s "tasks" col) then add_column "tasks" col s else s)
  = <["tasks" := if existsb (String.eqb col) cols then cols else (cols ++ [col])%list]> s.
Proof.
  intros H. unfold table_has_column, add_column. rewrite H. simpl.
  destruct (existsb (String.eqb col) cols); simpl; [|done].
  symmetry. by apply insert_id.
Qed.

Lemma add_missing_columns (keys : list string) (s : schema) (cols : list string) :
  s !! "tasks" = Some cols →
  fold_left
    (λ s col_name,
       if negb (table_has_column s "tasks" col_name)
       then add_column "tasks" col_name s else s) keys s
  = <["tasks" :=
        fold_left (λ cols col, if existsb (String.eqb col) cols then cols
                               else (cols ++ [col])%list) keys cols]> s.
Proof.
  revert s cols. induction keys as [|k keys IH]; intros s cols H; simpl.
  - symmetry. by apply insert_id.
  - rewrite (add_missing_column s cols k H).
    rewrite (IH _ (if existsb (String.eqb k) cols then cols else (cols ++ [k])%list)).
    + by rewrite insert_insert_eq.
    + by rewrite lookup_insert_eq.
Qed.

Lemma fold_add_missing_prefix (keys cols : list string) :
  cols `prefix_of`
    fold_left (λ cols col, if existsb (String.eqb col) cols then cols
                           else (cols ++ [col])%list) keys cols.
Proof.
  revert cols. induction keys as [|k keys IH]; intros cols; simpl; [done|].
  etrans; [|apply IH]. destruct (existsb _ _); [done|]. by apply prefix_app_r.
Qed.

Lemma fold_add_missing_elem (keys cols : list string) (c : string) :
  c ∈ fold_left (λ cols col, if existsb (String.eqb col) cols then cols
                             else (cols ++ [col])%list) keys cols
  ↔ c ∈ cols ∨ c ∈ keys.
Proof.
  revert cols. induction keys as [|k keys IH]; intros cols; simpl.
  - split; [by left|]. intros [?|H]; [done|inversion H].
  - rewrite IH. destruct (existsb (String.eqb k) cols) eqn:E.
    + apply existsb_eqb_elem in E. rewrite elem_of_cons. split; [tauto|].
      intros [?|[->|?]]; tauto.
    + rewrite elem_of_app, list_elem_of_singleton, elem_of_cons. tauto.
Qed.

Lemma fold_add_missing_fixed (keys cols : list string) :
  (∀ k, k ∈ keys → k ∈ cols) →
  fold_left (λ cols col, if existsb (String.eqb col) cols then cols
                         else (cols ++ [col])%list) keys cols = cols.
Proof.
  induction keys as [|k keys IH]; intros H; simpl; [done|].
  assert (existsb (String.eqb k) cols = true) as ->.
  { apply existsb_eqb_elem, H. left. }
  apply IH. intros k' Hk'. apply H. by right.
Qed.

Lemma create_table_insert (name : string) (cols : list string) (s : schema) :
  create_table_if_not_exists name cols s = <[name := default cols (s !! name)]> s.
Proof.
  unfold create_table_if_not_exists. destruct (s !! name) eqn:E; [|done].
  symmetry. by apply insert_id.
Qed.

(** The schema after [init_db]: the two tables, the tasks table with
    the missing threshold columns added at its end. *)
Lemma init_db_eq (s : schema) :
  init_db s
  = <["users" := default ["user_id"; "timezone"] (s !! "users")]>
      (<["tasks" :=
           fold_left (λ cols col, if existsb (String.eqb col) cols then cols
                                  else (cols ++ [col])%list)
             NOTIFICATION_INTERVAL_KEYS
             (default ["id"; "user_id"; "chat_id"; "description"; "due_date"; "status";
                       "added_date"] (s !! "tasks"))]> s).
Proof.
  unfold init_db. rewrite !create_table_insert.
  rewrite (add_missing_columns _ _ _ (lookup_insert_eq _ _ _)).
  rewrite insert_insert_eq.
  rewrite (lookup_insert_ne _ "tasks" "users") by done.
  set (cols := fold_left _ _ _).
  assert (Hfinal : table_has_column
                     (<["users" := default ["user_id"; "timezone"] (s !! "users")]>
                        (<["tasks" := cols]> s)) "tasks" "notified_final_due" = true).
  { unfold table_has_column.
    rewrite lookup_insert_ne by done. rewrite lookup_insert_eq.
    change (default [] (Some cols)) with cols.
    apply existsb_eqb_elem, fold_add_missing_elem. right.
    by apply list_elem_of_In; vm_compute; tauto. }
  rewrite Hfinal. cbn [negb]. by rewrite andb_false_r.
Qed.

(** X22: after [init_db] both tables exist and the tasks table has
    all seven threshold columns; the columns a table had before are kept
    as they were, in place (so the [notified] column of an older
    database is neither renamed nor read: the rename branch is never
    taken); a newly created tasks table has the seven base columns
    followed by the seven threshold columns; other tables are not
    touched; and running [init_db] again changes nothing. *)
Theorem init_db_schema (s : schema) :
  ∃ cols ucols,
    init_db s !! "tasks" = Some cols ∧ init_db s !! "users" = Some ucols
    ∧ (∀ k, k ∈ NOTIFICATION_INTERVAL_KEYS → k ∈ cols)
    ∧ (∀ old, s !! "tasks" = Some old →
         old `prefix_of` cols ∧ ∀ c, c ∈ cols → c ∈ old ∨ c ∈ NOTIFICATION_INTERVAL_KEYS)
    ∧ (s !! "tasks" = None →
         cols = (["id"; "user_id"; "chat_id"; "description"; "due_date"; "status";
                  "added_date"] ++ NOTIFICATION_INTERVAL_KEYS)%list)
    ∧ ucols = default ["user_id"; "timezone"] (s !! "users")
    ∧ (∀ name, name ≠ "tasks" → name ≠ "users" → init_db s !! name = s !! name)
    ∧ init_db (init_db s) = init_db s.
Proof.
  eexists _, _. rewrite !init_db_eq.
  split; [by rewrite lookup_insert_ne, lookup_insert_eq|].
  split; [by rewrite lookup_insert_eq|].
  split; [intros k Hk; apply fold_add_missing_elem; by right|].
  split; [|split; [|split; [done|split]]].
  - intros old ->. change (default _ (Some old)) with old.
    split; [apply fold_add_missing_prefix|].
    intros c. by rewrite fold_add_missing_elem.
  - by intros ->.
  - intros name H1 H2. by rewrite !lookup_insert_ne.
  - rewrite lookup_insert_eq. rewrite (lookup_insert_ne _ "users" "tasks") by done.
    rewrite lookup_insert_eq. cbn [from_option]. unfold Datatypes.id.
    rewrite fold_add_missing_fixed.
    + rewrite (insert_insert_ne _ "tasks" "users") by done.
      by rewrite !insert_insert_eq.
    + intros k Hk. apply fold_add_missing_elem. by right.
Qed.

(** * /list with few tasks, and what leaves [button_callback] *)

Section ListShort.

Variable zone_load : string → option exn.
Variable strftime : string → Z → option string.
Variable telegram : request → option exn.

Lemma list_tasks_loop_no_notice user_tz cid (max_show shown : nat) (ts : list task) :
  (shown + length ts ≤ max_show)%nat →
  existsb truncation_notice
    (list_tasks_loop strftime telegram user_tz cid max_show shown ts).2 = false.
Proof.
  revert shown. induction ts as [|t ts IH]; intros shown Hle; [done|].
  cbn [list_tasks_loop]. simpl in Hle.
  destruct (max_show <=? shown)%nat eqn:E; [apply Nat.leb_le in E; lia|].
  destruct (telegram _) as [err|].
  - specialize (IH shown ltac:(lia)). by destruct (list_tasks_loop _ _ _ _ _ _ _).
  - specialize (IH (S shown) ltac:(lia)). by destruct (list_tasks_loop _ _ _ _ _ _ _).
Qed.

Lemma list_tasks_loop_all user_tz cid (max_show shown : nat) (ts : list task) :
  (∀ req, telegram req = None) →
  (shown + length ts ≤ max_show)%nat →
  list_tasks_loop strftime telegram user_tz cid max_show shown ts
  = (None,
     (λ t, (send_message cid (build_task_message_text strftime t user_tz) (Some (id t)),
            None)) <$> ts).
Proof.
  intros Hall. revert shown. induction ts as [|t ts IH]; intros shown Hle; [done|].
  cbn [list_tasks_loop]. simpl in Hle.
  destruct (max_show <=? shown)%nat eqn:E; [apply Nat.leb_le in E; lia|].
  rewrite Hall. by rewrite IH by lia.
Qed.

(** X23: with at most 20 pending tasks /list never sends the
    truncation notice, whatever the sends do; and when every call is
    delivered its calls are the header and one task message with its
    keyboard per pending task, in listing order. *)
Theorem list_tasks_command_short_list (uid cid : Z) (db : database) :
  (length (get_user_tasks uid "pending" db) ≤ 20)%nat →
  let r := list_tasks_command zone_load strftime telegram uid cid db in
  existsb truncation_notice (calls r) = false
  ∧ ∀ user_tz, get_user_tz zone_load uid db = Ok user_tz →
      (∀ req, telegram req = None) →
      get_user_tasks uid "pending" db ≠ [] →
      raised r = None
      ∧ calls r
        = (reply_text ("Pending tasks (Times: " +:+ zone_key user_tz +:+ "):"), None)
          :: ((λ t, (send_message cid (build_task_message_text strftime t user_tz)
                       (Some (id t)), None))
                <$> get_user_tasks uid "pending" db).
Proof.
  intros Hlen. cbv zeta. unfold list_tasks_command, reply. split.
  - destruct (get_user_tz zone_load uid db) as [user_tz|e]; [|done].
    destruct (get_user_tasks uid "pending" db) as [|t ts] eqn:Ets; [done|].
    destruct (telegram _); [done|].
    pose proof (list_tasks_loop_no_notice user_tz cid 20 0 (t :: ts) ltac:(simpl in *; lia))
      as Hn.
    by destruct (list_tasks_loop _ _ _ _ _ _ _).
  - intros user_tz -> Hall Hne.
    destruct (get_user_tasks uid "pending" db) as [|t ts] eqn:Ets; [done|].
    rewrite Hall. rewrite list_tasks_loop_all; [done|done|simpl in *; lia].
Qed.

(** What leaves a message edit guarded by [except BadRequest]. *)
Lemma edit_except_BadRequest_raised db pre text :
  let r := edit_except_BadRequest telegram db pre text in
  raised r = None
  ∨ ∃ text e, (edit_message_text text, Some e) ∈ calls r ∧ e ≠ BadRequest
              ∧ raised r = Some e.
Proof.
  cbv zeta. unfold edit_except_BadRequest. cbn [raised calls].
  destruct (telegram (edit_message_text text)) as [e|] eqn:E; [|by left].
  destruct e; try (by left);
    right; eexists text, _;
    (split; [apply elem_of_app; right; left|by split]).
Qed.

(** X24: once the timezone of the user is resolved, the only
    exceptions that leave [button_callback] are the [NameError] of its
    done branch, the [OverflowError] of looking up an id beyond SQLite's
    64 bits (nothing is written or edited then), and an exception of one
    of its message edits other than [BadRequest]: a [BadRequest] of an
    edit (the message is already in that state) never reaches the
    caller, nor does a failure of answering the callback.  The
    [OverflowError] does leave: callback data with such an id, for which
    no row is found, raises it. *)
Theorem button_callback_raises (uid : Z) (data : option string) (db : database)
    (user_tz : zone) :
  get_user_tz zone_load uid db = Ok user_tz →
  let r := button_callback zone_load strftime telegram uid data db in
  (raised r = None
   ∨ raised r = Some NameError
   ∨ (∃ callback_data action task_id_str task_id,
        data = Some callback_data
        ∧ split_colon callback_data = Ok (action, task_id_str)
        ∧ int task_id_str = Ok task_id
        ∧ sqlite_integer task_id = false
        ∧ raised r = Some OverflowError ∧ final r = db
        ∧ calls r = [(answer, telegram answer)])
   ∨ ∃ text e, (edit_message_text text, Some e) ∈ calls r ∧ e ≠ BadRequest
               ∧ raised r = Some e)
  ∧ ∀ action tid,
      (∀ c, c ∈ String.list_ascii_of_string action → c ≠ ":"%char) →
      sqlite_integer tid = false → get_task_by_id tid uid db = None →
      raised (button_callback zone_load strftime telegram uid
                (Some (action +:+ ":" +:+ pretty tid)) db) = Some OverflowError.
Proof.
  intros Htz. cbv zeta. split.
  - unfold button_callback. rewrite Htz.
    assert (Hedit : ∀ db0 pre text,
              let r := edit_except_BadRequest telegram db0 pre text in
              raised r = None ∨ raised r = Some NameError
              ∨ (∃ callback_data action task_id_str task_id,
                   data = Some callback_data
                   ∧ split_colon callback_data = Ok (action, task_id_str)
                   ∧ int task_id_str = Ok task_id
                   ∧ sqlite_integer task_id = false
                   ∧ raised r = Some OverflowError ∧ final r = db
                   ∧ calls r = [(answer, telegram answer)])
              ∨ ∃ text e, (edit_message_text text, Some e) ∈ calls r ∧ e ≠ BadRequest
                          ∧ raised r = Some e).
    { intros db0 pre text.
      destruct (edit_except_BadRequest_raised db0 pre text) as [H|H];
        [by left|by right; right; right]. }
    destruct data as [callback_data|]; [|apply Hedit].
    destruct (split_colon callback_data) as [[action task_id_str]|e] eqn:Hsplit;
      [|apply Hedit].
    destruct (int task_id_str) as [task_id|e] eqn:Hint; [|apply Hedit].
    destruct (get_task_by_id task_id uid db) as [t|].
    + destruct (String.eqb action "done").
      * destruct (negb _); [by right; left|].
        destruct (String.eqb (status t) "done"); [by left|].
        destruct (update_task_status _ _ _ _) as [[] db']; apply Hedit.
      * destruct (String.eqb action "delete"); [|apply Hedit].
        destruct (delete_task _ _ _) as [[] db']; apply Hedit.
    + unfold overflows. destruct (sqlite_integer task_id) eqn:Hrange; [apply Hedit|].
      right. right. left. by exists callback_data, action, task_id_str, task_id.
  - intros action tid Hcolon Hrange Hget.
    unfold button_callback. rewrite Htz.
    rewrite (split_colon_append action (pretty tid)) by done.
    rewrite int_pretty, Hget. unfold overflows. by rewrite Hrange.
Qed.

End ListShort.

(** * /my_timezone in a reachable database *)

Section MyTimezone.

Variable zone_load : string → option exn.
Variable strftime : string → Z → option string.
Variable dateparser_parse : string → Z → string → result (option Z).
Variable telegram : request → option exn.
Variable strftime_zone : string → Z → string.

(** X25: in every database the program reaches from the empty one,
    /my_timezone changes nothing and sends one reply, with the zone
    stored for the user, or UTC when none is stored, and the time in
    that zone; it raises only what that reply raises. *)
Theorem my_timezone_command_reachable (acts : list action) (now uid : Z) :
  let db := perform_all zone_load strftime dateparser_parse acts empty_db in
  let tz := default "UTC" (users db !! uid) in
  let msg := reply_text ("TZ: *" +:+ tz +:+ "*" +:+ nl +:+ "Now: "
                         +:+ strftime_zone tz now) in
  my_timezone_command zone_load telegram strftime_zone now uid db
  = {| raised := telegram msg; final := db; calls := [(msg, telegram msg)] |}.
Proof.
  cbv zeta.
  assert (Hz : zones_load zone_load
                 (perform_all zone_load strftime dateparser_parse acts empty_db)).
  { apply perform_all_zones_load. intros u z. simpl. by rewrite lookup_empty. }
  unfold my_timezone_command, get_user_tz, get_user_timezone_str, ZoneInfo, reply.
  destruct (users _ !! uid) as [tz|] eqn:E.
  - by rewrite !(Hz uid tz E).
  - by destruct (zone_load "UTC").
Qed.

End MyTimezone.

(** * The theorems above at the sample environment *)

Lemma delete_button_deletes_task_witness :
  let db := sample_db [sample_task 1 None] in
  let t := sample_task 1 None in
  ∃ done_data delete_data,
    build_task_keyboard (id t)
    = [[("✅ Done", done_data); ("🗑️ Delete", delete_data)]]
    ∧ let r := button_callback sample_zone_load sample_strftime delivers_all 12345
                 (Some delete_data) db in
      let edit := edit_message_text
                    ("🗑️ Deleted: ~" +:+ build_task_message_text sample_strftime t UTC
                     +:+ "~") in
      final r = (delete_task (id t) 12345 db).2
      ∧ get_task_by_id (id t) 12345 (final r) = None
      ∧ calls r = [(answer, delivers_all answer); (edit, delivers_all edit)]
      ∧ raised r = match delivers_all edit with Some BadRequest => None | o => o end.
Proof.
  apply (delete_button_deletes_task sample_zone_load sample_strftime delivers_all 12345
           (sample_task 1 None) UTC (sample_db [sample_task 1 None]));
    reflexivity.
Defined.

Lemma delete_paths_agree_witness :
  let db := sample_db [sample_task 1 None; sample_task 2 None] in
  final (delete_task_command delivers_all 12345 [pretty 2] db) = (delete_task 2 12345 db).2
  ∧ final (button_callback sample_zone_load sample_strftime (fails_for 2 0) 12345
             (Some ("delete:" +:+ pretty 2)) db) = (delete_task 2 12345 db).2
  ∧ (delete_task_logic 2 12345 db).2 = (delete_task 2 12345 db).2.
Proof.
  apply (delete_paths_agree sample_zone_load sample_strftime delivers_all (fails_for 2 0)
           12345 2 UTC (sample_db [sample_task 1 None; sample_task 2 None]));
    [lia|lia|reflexivity].
Defined.

Lemma complete_paths_agree_witness :
  let db := sample_db [sample_task 1 None; sample_task 2 None] in
  final (done_task_command delivers_all 12345 [pretty 2] db)
  = (mark_task_done_logic 2 12345 db).2
  ∧ (mark_task_done_logic 2 12345 db).2
    = match get_task_by_id 2 12345 db with
      | Some t => if String.eqb (status t) "done" then db
                  else (update_task_status 2 12345 "done" db).2
      | None => db
      end.
Proof.
  apply (complete_paths_agree delivers_all 12345 2
           (sample_db [sample_task 1 None; sample_task 2 None])); lia.
Defined.

Lemma add_task_logic_due_date_witness :
  let db := sample_db [sample_task 1 None] in
  let parsed := match sample_parse "in ten minutes" 5000000 (zone_key UTC) with
                | Ok (Some d) => Some d
                | _ => None
                end in
  add_task_logic sample_zone_load sample_strftime sample_parse 5000000 "Buy milk"
    (Some "in ten minutes") 12345 67890 db
  = (Ok (("Okay, I've added task '" +:+ "Buy milk" +:+ "' (ID: " +:+ pretty (seq db + 1)
          +:+ ").")
         +:+ match parsed with
             | Some d => " Due date is set to "
                         +:+ format_datetime_local sample_strftime (Some d) UTC +:+ "."
             | None => " I couldn't understand the due date, so none was set."
             end),
     (add_task (5000000 `div` 1000000) 12345 67890 "Buy milk" parsed db).2).
Proof.
  apply (add_task_logic_due_date sample_zone_load sample_strftime sample_parse 5000000
           "Buy milk" "in ten minutes" 12345 67890 (sample_db [sample_task 1 None]) UTC);
    [lia|lia|simpl; lia|discriminate|reflexivity].
Defined.

Lemma list_tasks_logic_empty_witness :
  let db := sample_db [sample_task 1 None] in
  list_tasks_logic sample_zone_load sample_strftime 12345 "done" db
  = Ok ("You have no " +:+ "done" +:+ " tasks! 🎉")
  ↔ ∀ t, t ∈ tasks db → ¬ (user_id t = 12345 ∧ status t = "done").
Proof.
  apply (list_tasks_logic_empty sample_zone_load sample_strftime 12345 "done"
           (sample_db [sample_task 1 None]) UTC); [lia|reflexivity].
Defined.

Lemma list_tasks_command_short_list_witness :
  let db := sample_db (many_tasks 3) in
  let r := list_tasks_command sample_zone_load sample_strftime delivers_all 12345 67890 db in
  existsb truncation_notice (calls r) = false
  ∧ ∀ user_tz, get_user_tz sample_zone_load 12345 db = Ok user_tz →
      (∀ req, delivers_all req = None) →
      get_user_tasks 12345 "pending" db ≠ [] →
      raised r = None
      ∧ calls r
        = (reply_text ("Pending tasks (Times: " +:+ zone_key user_tz +:+ "):"), None)
          :: ((λ t, (send_message 67890 (build_task_message_text sample_strftime t user_tz)
                       (Some (id t)), None))
                <$> get_user_tasks 12345 "pending" db).
Proof.
  apply (list_tasks_command_short_list sample_zone_load sample_strftime delivers_all
           12345 67890 (sample_db (many_tasks 3))).
  vm_compute. lia.
Defined.

Lemma button_callback_raises_witness :
  let db := sample_db [sample_task 1 None] in
  let data := Some "delete:99999999999999999999" in
  let r := button_callback sample_zone_load sample_strftime delivers_all 12345 data db in
  (raised r = None
   ∨ raised r = Some NameError
   ∨ (∃ callback_data action task_id_str task_id,
        data = Some callback_data
        ∧ split_colon callback_data = Ok (action, task_id_str)
        ∧ int task_id_str = Ok task_id
        ∧ sqlite_integer task_id = false
        ∧ raised r = Some OverflowError ∧ final r = db
        ∧ calls r = [(answer, delivers_all answer)])
   ∨ ∃ text e, (edit_message_text text, Some e) ∈ calls r ∧ e ≠ BadRequest
               ∧ raised r = Some e)
  ∧ ∀ action tid,
      (∀ c, c ∈ String.list_ascii_of_string action → c ≠ ":"%char) →
      sqlite_integer tid = false → get_task_by_id tid 12345 db = None →
      raised (button_callback sample_zone_load sample_strftime delivers_all 12345
                (Some (action +:+ ":" +:+ pretty tid)) db) = Some OverflowError.
Proof.
  apply (button_callback_raises sample_zone_load sample_strftime delivers_all 12345
           (Some "delete:99999999999999999999") (sample_db [sample_task 1 None]) UTC).
  reflexivity.
Defined.

(** An id beyond 64 bits, in callback data and typed after /done and
    /delete: the [OverflowError] of the lookup leaves the handler, and
    nothing is sent or written. *)
Example task_id_beyond_64_bits :
  let db := sample_db [sample_task 1 None] in
  let b := button_callback sample_zone_load sample_strftime delivers_all 12345
             (Some "delete:99999999999999999999") db in
  let d := done_task_command delivers_all 12345 ["99999999999999999999"] db in
  let x := delete_task_command delivers_all 12345 ["99999999999999999999"] db in
  (raised b, final b, calls b) = (Some OverflowError, db, [(answer, None)])
  ∧ (raised d, final d, calls d) = (Some OverflowError, db, [])
  ∧ (raised x, final x, calls x) = (Some OverflowError, db, []).
Proof. by vm_compute. Qed.
